(** * ebay-price-simulator: the shipping-rate route and the price calculator

    A shallow embedding of the two TypeScript sources of the repository:

    - the rates route (buildCacheKey, pruneCache, fetchRates,
      getRatesForDestination, POST), in [Module Route];
    - the calculator page (fetchExchangeRate and the memoised price
      computation of Home), in [Module Page].

    JavaScript values are modelled as far as the code can observe them:
    a string holds the UTF-8 encoding of its text ([trim] and [toUpperCase]
    act on its characters, with the white space and the upper-case mappings
    of Unicode), JSON values are an inductive type,
    the absent property ([undefined]) is [None], and a coercion that raises
    a TypeError returns [Thrown].  Numbers are abstract in the route (only
    the built-in conversions touch them) and IEEE binary64 floats in the
    page, where the code does arithmetic on them. *)

From Stdlib Require Import ZArith String Ascii List Bool Lia Floats.
From Stdlib Require Import DecimalString DecimalZ DecimalPos.
From stdpp Require Import base option gmap strings.

Import ListNotations.
Local Open Scope string_scope.
Local Open Scope Z_scope.

(** ** Exceptions *)

Inductive exn : Type :=
| TypeError        (* a built-in coercion found no primitive value *)
| SyntaxError      (* a body handed to [json()] does not parse *)
| FetchRejected.   (* the promise of an outbound [fetch] rejected *)

Inductive outcome (A : Type) : Type :=
| Returned (a : A)
| Thrown (e : exn).

Arguments Returned {A} a.
Arguments Thrown {A} e.

#[global] Instance outcome_ret : MRet outcome := fun _ a => Returned a.
#[global] Instance outcome_bind : MBind outcome := fun _ _ k m =>
  match m with
  | Returned a => k a
  | Thrown e => Thrown e
  end.
#[global] Instance outcome_fmap : FMap outcome := fun _ _ f m =>
  match m with
  | Returned a => Returned (f a)
  | Thrown e => Thrown e
  end.

Definition returns {A} (m : outcome A) : bool :=
  match m with Returned _ => true | Thrown _ => false end.

(** [Array.prototype.map] with a callback that may throw: the callbacks run
    in index order and the first exception aborts the call. *)
Fixpoint mapM_outcome {A B} (f : A -> outcome B) (l : list A) : outcome (list B) :=
  match l with
  | [] => Returned []
  | x :: rest => y ← f x; ys ← mapM_outcome f rest; Returned (y :: ys)
  end.

(** [Array.prototype.filter] with a predicate that may throw. *)
Fixpoint filterM_outcome {A} (f : A -> outcome bool) (l : list A) : outcome (list A) :=
  match l with
  | [] => Returned []
  | x :: rest =>
      f x ≫= fun keep : bool =>
      ys ← filterM_outcome f rest;
      Returned (if keep then x :: ys else ys)
  end.

(** ** Strings *)

Module Str.

Definition code (c : ascii) : N := N_of_ascii c.

Definition is_upper (c : ascii) : bool := ((65 <=? code c) && (code c <=? 90))%N.
Definition is_lower (c : ascii) : bool := ((97 <=? code c) && (code c <=? 122))%N.

Definition lower_char (c : ascii) : ascii :=
  if is_upper c then ascii_of_N (code c + 32) else c.
Definition upper_char (c : ascii) : ascii :=
  if is_lower c then ascii_of_N (code c - 32) else c.

(** White space and line terminators of the ASCII range: TAB, LF, VT, FF,
    CR and SPACE. *)
Definition is_space (c : ascii) : bool :=
  ((9 <=? code c) && (code c <=? 13) || (code c =? 32))%N.

Fixpoint map_chars (f : ascii -> ascii) (s : string) : string :=
  match s with
  | EmptyString => EmptyString
  | String c rest => String (f c) (map_chars f rest)
  end.

(** [s.toLowerCase()], as far as the code observes it.  The code only
    searches the result for, or compares it with, the names dhl, fedex,
    japan post, japanpost and japan; the letters of the ASCII range are
    mapped, and no other character has a lower-case mapping with a letter
    of these names (the only ASCII letters so obtained are k and i). *)
Definition toLowerCase : string -> string := map_chars lower_char.

Fixpoint all_chars (p : ascii -> bool) (s : string) : bool :=
  match s with
  | EmptyString => true
  | String c rest => p c && all_chars p rest
  end.

(** *** Characters

    A string holds the UTF-8 encoding of its text (a text without unpaired
    surrogates).  A character is a byte outside the ASCII range with the
    continuation bytes that follow it, or a byte of the ASCII range by
    itself: on the encoding of a text these are its code points. *)

Definition is_ascii (c : ascii) : bool := (code c <? 128)%N.
Definition is_continuation (c : ascii) : bool :=
  ((128 <=? code c) && (code c <? 192))%N.

Definition continued (s : string) : bool :=
  match s with
  | EmptyString => false
  | String c _ => is_continuation c
  end.

Fixpoint chars (s : string) : list string :=
  match s with
  | EmptyString => []
  | String c rest =>
      if negb (is_ascii c) && continued rest then
        match chars rest with
        | next :: others => String c next :: others
        | [] => [String c EmptyString]
        end
      else String c EmptyString :: chars rest
  end.

Definition glue (parts : list string) : string := fold_right append EmptyString parts.

(** The UTF-8 encoding of a code point *)
Definition byte (n : N) : ascii := ascii_of_N n.

Definition encode (cp : N) : string :=
  (if cp <? 0x80 then String (byte cp) EmptyString
   else if cp <? 0x800 then
     String (byte (0xC0 + cp / 0x40)) (String (byte (0x80 + cp mod 0x40)) EmptyString)
   else if cp <? 0x10000 then
     String (byte (0xE0 + cp / 0x1000))
       (String (byte (0x80 + cp / 0x40 mod 0x40))
          (String (byte (0x80 + cp mod 0x40)) EmptyString))
   else
     String (byte (0xF0 + cp / 0x40000))
       (String (byte (0x80 + cp / 0x1000 mod 0x40))
          (String (byte (0x80 + cp / 0x40 mod 0x40))
             (String (byte (0x80 + cp mod 0x40)) EmptyString))))%N.

(** The code points [trim] strips: WhiteSpace (TAB, VT, FF, SPACE, NBSP,
    ZWNBSP and the other space separators) and LineTerminator (LF, CR, LS,
    PS). *)
Definition WHITE_SPACE : list N :=
  [0x9; 0xA; 0xB; 0xC; 0xD; 0x20; 0xA0; 0x1680; 0x2000; 0x2001; 0x2002; 0x2003;
   0x2004; 0x2005; 0x2006; 0x2007; 0x2008; 0x2009; 0x200A; 0x2028; 0x2029; 0x202F;
   0x205F; 0x3000; 0xFEFF]%N.

Definition is_white (ch : string) : bool :=
  existsb (fun cp => String.eqb ch (encode cp)) WHITE_SPACE.

Fixpoint dropStart (l : list string) : list string :=
  match l with
  | [] => []
  | ch :: rest => if is_white ch then dropStart rest else l
  end.

Fixpoint dropEnd (l : list string) : list string :=
  match l with
  | [] => []
  | ch :: rest =>
      match dropEnd rest with
      | [] => if is_white ch then [] else [ch]
      | kept => ch :: kept
      end
  end.

(** [s.trim()] *)
Definition trim (s : string) : string := glue (dropEnd (dropStart (chars s))).

(** The code points that [toUpperCase] changes, outside the ASCII range,
    each with its upper-case mapping: the unconditional mappings of the
    Unicode Character Database (UnicodeData and SpecialCasing, version
    14.0). *)
Definition UPPER_CASE : list (N * list N) :=
  [(0xB5, [0x39C]); (0xDF, [0x53; 0x53]); (0xE0, [0xC0]); (0xE1, [0xC1]); (0xE2, [0xC2]);
   (0xE3, [0xC3]); (0xE4, [0xC4]); (0xE5, [0xC5]); (0xE6, [0xC6]); (0xE7, [0xC7]);
   (0xE8, [0xC8]); (0xE9, [0xC9]); (0xEA, [0xCA]); (0xEB, [0xCB]); (0xEC, [0xCC]);
   (0xED, [0xCD]); (0xEE, [0xCE]); (0xEF, [0xCF]); (0xF0, [0xD0]); (0xF1, [0xD1]);
   (0xF2, [0xD2]); (0xF3, [0xD3]); (0xF4, [0xD4]); (0xF5, [0xD5]); (0xF6, [0xD6]);
   (0xF8, [0xD8]); (0xF9, [0xD9]); (0xFA, [0xDA]); (0xFB, [0xDB]); (0xFC, [0xDC]);
   (0xFD, [0xDD]); (0xFE, [0xDE]); (0xFF, [0x178]); (0x101, [0x100]); (0x103, [0x102]);
   (0x105, [0x104]); (0x107, [0x106]); (0x109, [0x108]); (0x10B, [0x10A]);
   (0x10D, [0x10C]); (0x10F, [0x10E]); (0x111, [0x110]); (0x113, [0x112]);
   (0x115, [0x114]); (0x117, [0x116]); (0x119, [0x118]); (0x11B, [0x11A]);
   (0x11D, [0x11C]); (0x11F, [0x11E]); (0x121, [0x120]); (0x123, [0x122]);
   (0x125, [0x124]); (0x127, [0x126]); (0x129, [0x128]); (0x12B, [0x12A]);
   (0x12D, [0x12C]); (0x12F, [0x12E]); (0x131, [0x49]); (0x133, [0x132]);
   (0x135, [0x134]); (0x137, [0x136]); (0x13A, [0x139]); (0x13C, [0x13B]);
   (0x13E, [0x13D]); (0x140, [0x13F]); (0x142, [0x141]); (0x144, [0x143]);
   (0x146, [0x145]); (0x148, [0x147]); (0x149, [0x2BC; 0x4E]); (0x14B, [0x14A]);
   (0x14D, [0x14C]); (0x14F, [0x14E]); (0x151, [0x150]); (0x153, [0x152]);
   (0x155, [0x154]); (0x157, [0x156]); (0x159, [0x158]); (0x15B, [0x15A]);
   (0x15D, [0x15C]); (0x15F, [0x15E]); (0x161, [0x160]); (0x163, [0x162]);
   (0x165, [0x164]); (0x167, [0x166]); (0x169, [0x168]); (0x16B, [0x16A]);
   (0x16D, [0x16C]); (0x16F, [0x16E]); (0x171, [0x170]); (0x173, [0x172]);
   (0x175, [0x174]); (0x177, [0x176]); (0x17A, [0x179]); (0x17C, [0x17B]);
   (0x17E, [0x17D]); (0x17F, [0x53]); (0x180, [0x243]); (0x183, [0x182]);
   (0x185, [0x184]); (0x188, [0x187]); (0x18C, [0x18B]); (0x192, [0x191]);
   (0x195, [0x1F6]); (0x199, [0x198]); (0x19A, [0x23D]); (0x19E, [0x220]);
   (0x1A1, [0x1A0]); (0x1A3, [0x1A2]); (0x1A5, [0x1A4]); (0x1A8, [0x1A7]);
   (0x1AD, [0x1AC]); (0x1B0, [0x1AF]); (0x1B4, [0x1B3]); (0x1B6, [0x1B5]);
   (0x1B9, [0x1B8]); (0x1BD, [0x1BC]); (0x1BF, [0x1F7]); (0x1C5, [0x1C4]);
   (0x1C6, [0x1C4]); (0x1C8, [0x1C7]); (0x1C9, [0x1C7]); (0x1CB, [0x1CA]);
   (0x1CC, [0x1CA]); (0x1CE, [0x1CD]); (0x1D0, [0x1CF]); (0x1D2, [0x1D1]);
   (0x1D4, [0x1D3]); (0x1D6, [0x1D5]); (0x1D8, [0x1D7]); (0x1DA, [0x1D9]);
   (0x1DC, [0x1DB]); (0x1DD, [0x18E]); (0x1DF, [0x1DE]); (0x1E1, [0x1E0]);
   (0x1E3, [0x1E2]); (0x1E5, [0x1E4]); (0x1E7, [0x1E6]); (0x1E9, [0x1E8]);
   (0x1EB, [0x1EA]); (0x1ED, [0x1EC]); (0x1EF, [0x1EE]); (0x1F0, [0x4A; 0x30C]);
   (0x1F2, [0x1F1]); (0x1F3, [0x1F1]); (0x1F5, [0x1F4]); (0x1F9, [0x1F8]);
   (0x1FB, [0x1FA]); (0x1FD, [0x1FC]); (0x1FF, [0x1FE]); (0x201, [0x200]);
   (0x203, [0x202]); (0x205, [0x204]); (0x207, [0x206]); (0x209, [0x208]);
   (0x20B, [0x20A]); (0x20D, [0x20C]); (0x20F, [0x20E]); (0x211, [0x210]);
   (0x213, [0x212]); (0x215, [0x214]); (0x217, [0x216]); (0x219, [0x218]);
   (0x21B, [0x21A]); (0x21D, [0x21C]); (0x21F, [0x21E]); (0x223, [0x222]);
   (0x225, [0x224]); (0x227, [0x226]); (0x229, [0x228]); (0x22B, [0x22A]);
   (0x22D, [0x22C]); (0x22F, [0x22E]); (0x231, [0x230]); (0x233, [0x232]);
   (0x23C, [0x23B]); (0x23F, [0x2C7E]); (0x240, [0x2C7F]); (0x242, [0x241]);
   (0x247, [0x246]); (0x249, [0x248]); (0x24B, [0x24A]); (0x24D, [0x24C]);
   (0x24F, [0x24E]); (0x250, [0x2C6F]); (0x251, [0x2C6D]); (0x252, [0x2C70]);
   (0x253, [0x181]); (0x254, [0x186]); (0x256, [0x189]); (0x257, [0x18A]);
   (0x259, [0x18F]); (0x25B, [0x190]); (0x25C, [0xA7AB]); (0x260, [0x193]);
   (0x261, [0xA7AC]); (0x263, [0x194]); (0x265, [0xA78D]); (0x266, [0xA7AA]);
   (0x268, [0x197]); (0x269, [0x196]); (0x26A, [0xA7AE]); (0x26B, [0x2C62]);
   (0x26C, [0xA7AD]); (0x26F, [0x19C]); (0x271, [0x2C6E]); (0x272, [0x19D]);
   (0x275, [0x19F]); (0x27D, [0x2C64]); (0x280, [0x1A6]); (0x282, [0xA7C5]);
   (0x283, [0x1A9]); (0x287, [0xA7B1]); (0x288, [0x1AE]); (0x289, [0x244]);
   (0x28A, [0x1B1]); (0x28B, [0x1B2]); (0x28C, [0x245]); (0x292, [0x1B7]);
   (0x29D, [0xA7B2]); (0x29E, [0xA7B0]); (0x345, [0x399]); (0x371, [0x370]);
   (0x373, [0x372]); (0x377, [0x376]); (0x37B, [0x3FD]); (0x37C, [0x3FE]);
   (0x37D, [0x3FF]); (0x390, [0x399; 0x308; 0x301]); (0x3AC, [0x386]); (0x3AD, [0x388]);
   (0x3AE, [0x389]); (0x3AF, [0x38A]); (0x3B0, [0x3A5; 0x308; 0x301]); (0x3B1, [0x391]);
   (0x3B2, [0x392]); (0x3B3, [0x393]); (0x3B4, [0x394]); (0x3B5, [0x395]);
   (0x3B6, [0x396]); (0x3B7, [0x397]); (0x3B8, [0x398]); (0x3B9, [0x399]);
   (0x3BA, [0x39A]); (0x3BB, [0x39B]); (0x3BC, [0x39C]); (0x3BD, [0x39D]);
   (0x3BE, [0x39E]); (0x3BF, [0x39F]); (0x3C0, [0x3A0]); (0x3C1, [0x3A1]);
   (0x3C2, [0x3A3]); (0x3C3, [0x3A3]); (0x3C4, [0x3A4]); (0x3C5, [0x3A5]);
   (0x3C6, [0x3A6]); (0x3C7, [0x3A7]); (0x3C8, [0x3A8]); (0x3C9, [0x3A9]);
   (0x3CA, [0x3AA]); (0x3CB, [0x3AB]); (0x3CC, [0x38C]); (0x3CD, [0x38E]);
   (0x3CE, [0x38F]); (0x3D0, [0x392]); (0x3D1, [0x398]); (0x3D5, [0x3A6]);
   (0x3D6, [0x3A0]); (0x3D7, [0x3CF]); (0x3D9, [0x3D8]); (0x3DB, [0x3DA]);
   (0x3DD, [0x3DC]); (0x3DF, [0x3DE]); (0x3E1, [0x3E0]); (0x3E3, [0x3E2]);
   (0x3E5, [0x3E4]); (0x3E7, [0x3E6]); (0x3E9, [0x3E8]); (0x3EB, [0x3EA]);
   (0x3ED, [0x3EC]); (0x3EF, [0x3EE]); (0x3F0, [0x39A]); (0x3F1, [0x3A1]);
   (0x3F2, [0x3F9]); (0x3F3, [0x37F]); (0x3F5, [0x395]); (0x3F8, [0x3F7]);
   (0x3FB, [0x3FA]); (0x430, [0x410]); (0x431, [0x411]); (0x432, [0x412]);
   (0x433, [0x413]); (0x434, [0x414]); (0x435, [0x415]); (0x436, [0x416]);
   (0x437, [0x417]); (0x438, [0x418]); (0x439, [0x419]); (0x43A, [0x41A]);
   (0x43B, [0x41B]); (0x43C, [0x41C]); (0x43D, [0x41D]); (0x43E, [0x41E]);
   (0x43F, [0x41F]); (0x440, [0x420]); (0x441, [0x421]); (0x442, [0x422]);
   (0x443, [0x423]); (0x444, [0x424]); (0x445, [0x425]); (0x446, [0x426]);
   (0x447, [0x427]); (0x448, [0x428]); (0x449, [0x429]); (0x44A, [0x42A]);
   (0x44B, [0x42B]); (0x44C, [0x42C]); (0x44D, [0x42D]); (0x44E, [0x42E]);
   (0x44F, [0x42F]); (0x450, [0x400]); (0x451, [0x401]); (0x452, [0x402]);
   (0x453, [0x403]); (0x454, [0x404]); (0x455, [0x405]); (0x456, [0x406]);
   (0x457, [0x407]); (0x458, [0x408]); (0x459, [0x409]); (0x45A, [0x40A]);
   (0x45B, [0x40B]); (0x45C, [0x40C]); (0x45D, [0x40D]); (0x45E, [0x40E]);
   (0x45F, [0x40F]); (0x461, [0x460]); (0x463, [0x462]); (0x465, [0x464]);
   (0x467, [0x466]); (0x469, [0x468]); (0x46B, [0x46A]); (0x46D, [0x46C]);
   (0x46F, [0x46E]); (0x471, [0x470]); (0x473, [0x472]); (0x475, [0x474]);
   (0x477, [0x476]); (0x479, [0x478]); (0x47B, [0x47A]); (0x47D, [0x47C]);
   (0x47F, [0x47E]); (0x481, [0x480]); (0x48B, [0x48A]); (0x48D, [0x48C]);
   (0x48F, [0x48E]); (0x491, [0x490]); (0x493, [0x492]); (0x495, [0x494]);
   (0x497, [0x496]); (0x499, [0x498]); (0x49B, [0x49A]); (0x49D, [0x49C]);
   (0x49F, [0x49E]); (0x4A1, [0x4A0]); (0x4A3, [0x4A2]); (0x4A5, [0x4A4]);
   (0x4A7, [0x4A6]); (0x4A9, [0x4A8]); (0x4AB, [0x4AA]); (0x4AD, [0x4AC]);
   (0x4AF, [0x4AE]); (0x4B1, [0x4B0]); (0x4B3, [0x4B2]); (0x4B5, [0x4B4]);
   (0x4B7, [0x4B6]); (0x4B9, [0x4B8]); (0x4BB, [0x4BA]); (0x4BD, [0x4BC]);
   (0x4BF, [0x4BE]); (0x4C2, [0x4C1]); (0x4C4, [0x4C3]); (0x4C6, [0x4C5]);
   (0x4C8, [0x4C7]); (0x4CA, [0x4C9]); (0x4CC, [0x4CB]); (0x4CE, [0x4CD]);
   (0x4CF, [0x4C0]); (0x4D1, [0x4D0]); (0x4D3, [0x4D2]); (0x4D5, [0x4D4]);
   (0x4D7, [0x4D6]); (0x4D9, [0x4D8]); (0x4DB, [0x4DA]); (0x4DD, [0x4DC]);
   (0x4DF, [0x4DE]); (0x4E1, [0x4E0]); (0x4E3, [0x4E2]); (0x4E5, [0x4E4]);
   (0x4E7, [0x4E6]); (0x4E9, [0x4E8]); (0x4EB, [0x4EA]); (0x4ED, [0x4EC]);
   (0x4EF, [0x4EE]); (0x4F1, [0x4F0]); (0x4F3, [0x4F2]); (0x4F5, [0x4F4]);
   (0x4F7, [0x4F6]); (0x4F9, [0x4F8]); (0x4FB, [0x4FA]); (0x4FD, [0x4FC]);
   (0x4FF, [0x4FE]); (0x501, [0x500]); (0x503, [0x502]); (0x505, [0x504]);
   (0x507, [0x506]); (0x509, [0x508]); (0x50B, [0x50A]); (0x50D, [0x50C]);
   (0x50F, [0x50E]); (0x511, [0x510]); (0x513, [0x512]); (0x515, [0x514]);
   (0x517, [0x516]); (0x519, [0x518]); (0x51B, [0x51A]); (0x51D, [0x51C]);
   (0x51F, [0x51E]); (0x521, [0x520]); (0x523, [0x522]); (0x525, [0x524]);
   (0x527, [0x526]); (0x529, [0x528]); (0x52B, [0x52A]); (0x52D, [0x52C]);
   (0x52F, [0x52E]); (0x561, [0x531]); (0x562, [0x532]); (0x563, [0x533]);
   (0x564, [0x534]); (0x565, [0x535]); (0x566, [0x536]); (0x567, [0x537]);
   (0x568, [0x538]); (0x569, [0x539]); (0x56A, [0x53A]); (0x56B, [0x53B]);
   (0x56C, [0x53C]); (0x56D, [0x53D]); (0x56E, [0x53E]); (0x56F, [0x53F]);
   (0x570, [0x540]); (0x571, [0x541]); (0x572, [0x542]); (0x573, [0x543]);
   (0x574, [0x544]); (0x575, [0x545]); (0x576, [0x546]); (0x577, [0x547]);
   (0x578, [0x548]); (0x579, [0x549]); (0x57A, [0x54A]); (0x57B, [0x54B]);
   (0x57C, [0x54C]); (0x57D, [0x54D]); (0x57E, [0x54E]); (0x57F, [0x54F]);
   (0x580, [0x550]); (0x581, [0x551]); (0x582, [0x552]); (0x583, [0x553]);
   (0x584, [0x554]); (0x585, [0x555]); (0x586, [0x556]); (0x587, [0x535; 0x552]);
   (0x10D0, [0x1C90]); (0x10D1, [0x1C91]); (0x10D2, [0x1C92]); (0x10D3, [0x1C93]);
   (0x10D4, [0x1C94]); (0x10D5, [0x1C95]); (0x10D6, [0x1C96]); (0x10D7, [0x1C97]);
   (0x10D8, [0x1C98]); (0x10D9, [0x1C99]); (0x10DA, [0x1C9A]); (0x10DB, [0x1C9B]);
   (0x10DC, [0x1C9C]); (0x10DD, [0x1C9D]); (0x10DE, [0x1C9E]); (0x10DF, [0x1C9F]);
   (0x10E0, [0x1CA0]); (0x10E1, [0x1CA1]); (0x10E2, [0x1CA2]); (0x10E3, [0x1CA3]);
   (0x10E4, [0x1CA4]); (0x10E5, [0x1CA5]); (0x10E6, [0x1CA6]); (0x10E7, [0x1CA7]);
   (0x10E8, [0x1CA8]); (0x10E9, [0x1CA9]); (0x10EA, [0x1CAA]); (0x10EB, [0x1CAB]);
   (0x10EC, [0x1CAC]); (0x10ED, [0x1CAD]); (0x10EE, [0x1CAE]); (0x10EF, [0x1CAF]);
   (0x10F0, [0x1CB0]); (0x10F1, [0x1CB1]); (0x10F2, [0x1CB2]); (0x10F3, [0x1CB3]);
   (0x10F4, [0x1CB4]); (0x10F5, [0x1CB5]); (0x10F6, [0x1CB6]); (0x10F7, [0x1CB7]);
   (0x10F8, [0x1CB8]); (0x10F9, [0x1CB9]); (0x10FA, [0x1CBA]); (0x10FD, [0x1CBD]);
   (0x10FE, [0x1CBE]); (0x10FF, [0x1CBF]); (0x13F8, [0x13F0]); (0x13F9, [0x13F1]);
   (0x13FA, [0x13F2]); (0x13FB, [0x13F3]); (0x13FC, [0x13F4]); (0x13FD, [0x13F5]);
   (0x1C80, [0x412]); (0x1C81, [0x414]); (0x1C82, [0x41E]); (0x1C83, [0x421]);
   (0x1C84, [0x422]); (0x1C85, [0x422]); (0x1C86, [0x42A]); (0x1C87, [0x462]);
   (0x1C88, [0xA64A]); (0x1D79, [0xA77D]); (0x1D7D, [0x2C63]); (0x1D8E, [0xA7C6]);
   (0x1E01, [0x1E00]); (0x1E03, [0x1E02]); (0x1E05, [0x1E04]); (0x1E07, [0x1E06]);
   (0x1E09, [0x1E08]); (0x1E0B, [0x1E0A]); (0x1E0D, [0x1E0C]); (0x1E0F, [0x1E0E]);
   (0x1E11, [0x1E10]); (0x1E13, [0x1E12]); (0x1E15, [0x1E14]); (0x1E17, [0x1E16]);
   (0x1E19, [0x1E18]); (0x1E1B, [0x1E1A]); (0x1E1D, [0x1E1C]); (0x1E1F, [0x1E1E]);
   (0x1E21, [0x1E20]); (0x1E23, [0x1E22]); (0x1E25, [0x1E24]); (0x1E27, [0x1E26]);
   (0x1E29, [0x1E28]); (0x1E2B, [0x1E2A]); (0x1E2D, [0x1E2C]); (0x1E2F, [0x1E2E]);
   (0x1E31, [0x1E30]); (0x1E33, [0x1E32]); (0x1E35, [0x1E34]); (0x1E37, [0x1E36]);
   (0x1E39, [0x1E38]); (0x1E3B, [0x1E3A]); (0x1E3D, [0x1E3C]); (0x1E3F, [0x1E3E]);
   (0x1E41, [0x1E40]); (0x1E43, [0x1E42]); (0x1E45, [0x1E44]); (0x1E47, [0x1E46]);
   (0x1E49, [0x1E48]); (0x1E4B, [0x1E4A]); (0x1E4D, [0x1E4C]); (0x1E4F, [0x1E4E]);
   (0x1E51, [0x1E50]); (0x1E53, [0x1E52]); (0x1E55, [0x1E54]); (0x1E57, [0x1E56]);
   (0x1E59, [0x1E58]); (0x1E5B, [0x1E5A]); (0x1E5D, [0x1E5C]); (0x1E5F, [0x1E5E]);
   (0x1E61, [0x1E60]); (0x1E63, [0x1E62]); (0x1E65, [0x1E64]); (0x1E67, [0x1E66]);
   (0x1E69, [0x1E68]); (0x1E6B, [0x1E6A]); (0x1E6D, [0x1E6C]); (0x1E6F, [0x1E6E]);
   (0x1E71, [0x1E70]); (0x1E73, [0x1E72]); (0x1E75, [0x1E74]); (0x1E77, [0x1E76]);
   (0x1E79, [0x1E78]); (0x1E7B, [0x1E7A]); (0x1E7D, [0x1E7C]); (0x1E7F, [0x1E7E]);
   (0x1E81, [0x1E80]); (0x1E83, [0x1E82]); (0x1E85, [0x1E84]); (0x1E87, [0x1E86]);
   (0x1E89, [0x1E88]); (0x1E8B, [0x1E8A]); (0x1E8D, [0x1E8C]); (0x1E8F, [0x1E8E]);
   (0x1E91, [0x1E90]); (0x1E93, [0x1E92]); (0x1E95, [0x1E94]); (0x1E96, [0x48; 0x331]);
   (0x1E97, [0x54; 0x308]); (0x1E98, [0x57; 0x30A]); (0x1E99, [0x59; 0x30A]);
   (0x1E9A, [0x41; 0x2BE]); (0x1E9B, [0x1E60]); (0x1EA1, [0x1EA0]); (0x1EA3, [0x1EA2]);
   (0x1EA5, [0x1EA4]); (0x1EA7, [0x1EA6]); (0x1EA9, [0x1EA8]); (0x1EAB, [0x1EAA]);
   (0x1EAD, [0x1EAC]); (0x1EAF, [0x1EAE]); (0x1EB1, [0x1EB0]); (0x1EB3, [0x1EB2]);
   (0x1EB5, [0x1EB4]); (0x1EB7, [0x1EB6]); (0x1EB9, [0x1EB8]); (0x1EBB, [0x1EBA]);
   (0x1EBD, [0x1EBC]); (0x1EBF, [0x1EBE]); (0x1EC1, [0x1EC0]); (0x1EC3, [0x1EC2]);
   (0x1EC5, [0x1EC4]); (0x1EC7, [0x1EC6]); (0x1EC9, [0x1EC8]); (0x1ECB, [0x1ECA]);
   (0x1ECD, [0x1ECC]); (0x1ECF, [0x1ECE]); (0x1ED1, [0x1ED0]); (0x1ED3, [0x1ED2]);
   (0x1ED5, [0x1ED4]); (0x1ED7, [0x1ED6]); (0x1ED9, [0x1ED8]); (0x1EDB, [0x1EDA]);
   (0x1EDD, [0x1EDC]); (0x1EDF, [0x1EDE]); (0x1EE1, [0x1EE0]); (0x1EE3, [0x1EE2]);
   (0x1EE5, [0x1EE4]); (0x1EE7, [0x1EE6]); (0x1EE9, [0x1EE8]); (0x1EEB, [0x1EEA]);
   (0x1EED, [0x1EEC]); (0x1EEF, [0x1EEE]); (0x1EF1, [0x1EF0]); (0x1EF3, [0x1EF2]);
   (0x1EF5, [0x1EF4]); (0x1EF7, [0x1EF6]); (0x1EF9, [0x1EF8]); (0x1EFB, [0x1EFA]);
   (0x1EFD, [0x1EFC]); (0x1EFF, [0x1EFE]); (0x1F00, [0x1F08]); (0x1F01, [0x1F09]);
   (0x1F02, [0x1F0A]); (0x1F03, [0x1F0B]); (0x1F04, [0x1F0C]); (0x1F05, [0x1F0D]);
   (0x1F06, [0x1F0E]); (0x1F07, [0x1F0F]); (0x1F10, [0x1F18]); (0x1F11, [0x1F19]);
   (0x1F12, [0x1F1A]); (0x1F13, [0x1F1B]); (0x1F14, [0x1F1C]); (0x1F15, [0x1F1D]);
   (0x1F20, [0x1F28]); (0x1F21, [0x1F29]); (0x1F22, [0x1F2A]); (0x1F23, [0x1F2B]);
   (0x1F24, [0x1F2C]); (0x1F25, [0x1F2D]); (0x1F26, [0x1F2E]); (0x1F27, [0x1F2F]);
   (0x1F30, [0x1F38]); (0x1F31, [0x1F39]); (0x1F32, [0x1F3A]); (0x1F33, [0x1F3B]);
   (0x1F34, [0x1F3C]); (0x1F35, [0x1F3D]); (0x1F36, [0x1F3E]); (0x1F37, [0x1F3F]);
   (0x1F40, [0x1F48]); (0x1F41, [0x1F49]); (0x1F42, [0x1F4A]); (0x1F43, [0x1F4B]);
   (0x1F44, [0x1F4C]); (0x1F45, [0x1F4D]); (0x1F50, [0x3A5; 0x313]); (0x1F51, [0x1F59]);
   (0x1F52, [0x3A5; 0x313; 0x300]); (0x1F53, [0x1F5B]); (0x1F54, [0x3A5; 0x313; 0x301]);
   (0x1F55, [0x1F5D]); (0x1F56, [0x3A5; 0x313; 0x342]); (0x1F57, [0x1F5F]);
   (0x1F60, [0x1F68]); (0x1F61, [0x1F69]); (0x1F62, [0x1F6A]); (0x1F63, [0x1F6B]);
   (0x1F64, [0x1F6C]); (0x1F65, [0x1F6D]); (0x1F66, [0x1F6E]); (0x1F67, [0x1F6F]);
   (0x1F70, [0x1FBA]); (0x1F71, [0x1FBB]); (0x1F72, [0x1FC8]); (0x1F73, [0x1FC9]);
   (0x1F74, [0x1FCA]); (0x1F75, [0x1FCB]); (0x1F76, [0x1FDA]); (0x1F77, [0x1FDB]);
   (0x1F78, [0x1FF8]); (0x1F79, [0x1FF9]); (0x1F7A, [0x1FEA]); (0x1F7B, [0x1FEB]);
   (0x1F7C, [0x1FFA]); (0x1F7D, [0x1FFB]); (0x1F80, [0x1F08; 0x399]);
   (0x1F81, [0x1F09; 0x399]); (0x1F82, [0x1F0A; 0x399]); (0x1F83, [0x1F0B; 0x399]);
   (0x1F84, [0x1F0C; 0x399]); (0x1F85, [0x1F0D; 0x399]); (0x1F86, [0x1F0E; 0x399]);
   (0x1F87, [0x1F0F; 0x399]); (0x1F88, [0x1F08; 0x399]); (0x1F89, [0x1F09; 0x399]);
   (0x1F8A, [0x1F0A; 0x399]); (0x1F8B, [0x1F0B; 0x399]); (0x1F8C, [0x1F0C; 0x399]);
   (0x1F8D, [0x1F0D; 0x399]); (0x1F8E, [0x1F0E; 0x399]); (0x1F8F, [0x1F0F; 0x399]);
   (0x1F90, [0x1F28; 0x399]); (0x1F91, [0x1F29; 0x399]); (0x1F92, [0x1F2A; 0x399]);
   (0x1F93, [0x1F2B; 0x399]); (0x1F94, [0x1F2C; 0x399]); (0x1F95, [0x1F2D; 0x399]);
   (0x1F96, [0x1F2E; 0x399]); (0x1F97, [0x1F2F; 0x399]); (0x1F98, [0x1F28; 0x399]);
   (0x1F99, [0x1F29; 0x399]); (0x1F9A, [0x1F2A; 0x399]); (0x1F9B, [0x1F2B; 0x399]);
   (0x1F9C, [0x1F2C; 0x399]); (0x1F9D, [0x1F2D; 0x399]); (0x1F9E, [0x1F2E; 0x399]);
   (0x1F9F, [0x1F2F; 0x399]); (0x1FA0, [0x1F68; 0x399]); (0x1FA1, [0x1F69; 0x399]);
   (0x1FA2, [0x1F6A; 0x399]); (0x1FA3, [0x1F6B; 0x399]); (0x1FA4, [0x1F6C; 0x399]);
   (0x1FA5, [0x1F6D; 0x399]); (0x1FA6, [0x1F6E; 0x399]); (0x1FA7, [0x1F6F; 0x399]);
   (0x1FA8, [0x1F68; 0x399]); (0x1FA9, [0x1F69; 0x399]); (0x1FAA, [0x1F6A; 0x399]);
   (0x1FAB, [0x1F6B; 0x399]); (0x1FAC, [0x1F6C; 0x399]); (0x1FAD, [0x1F6D; 0x399]);
   (0x1FAE, [0x1F6E; 0x399]); (0x1FAF, [0x1F6F; 0x399]); (0x1FB0, [0x1FB8]);
   (0x1FB1, [0x1FB9]); (0x1FB2, [0x1FBA; 0x399]); (0x1FB3, [0x391; 0x399]);
   (0x1FB4, [0x386; 0x399]); (0x1FB6, [0x391; 0x342]); (0x1FB7, [0x391; 0x342; 0x399]);
   (0x1FBC, [0x391; 0x399]); (0x1FBE, [0x399]); (0x1FC2, [0x1FCA; 0x399]);
   (0x1FC3, [0x397; 0x399]); (0x1FC4, [0x389; 0x399]); (0x1FC6, [0x397; 0x342]);
   (0x1FC7, [0x397; 0x342; 0x399]); (0x1FCC, [0x397; 0x399]); (0x1FD0, [0x1FD8]);
   (0x1FD1, [0x1FD9]); (0x1FD2, [0x399; 0x308; 0x300]); (0x1FD3, [0x399; 0x308; 0x301]);
   (0x1FD6, [0x399; 0x342]); (0x1FD7, [0x399; 0x308; 0x342]); (0x1FE0, [0x1FE8]);
   (0x1FE1, [0x1FE9]); (0x1FE2, [0x3A5; 0x308; 0x300]); (0x1FE3, [0x3A5; 0x308; 0x301]);
   (0x1FE4, [0x3A1; 0x313]); (0x1FE5, [0x1FEC]); (0x1FE6, [0x3A5; 0x342]);
   (0x1FE7, [0x3A5; 0x308; 0x342]); (0x1FF2, [0x1FFA; 0x399]); (0x1FF3, [0x3A9; 0x399]);
   (0x1FF4, [0x38F; 0x399]); (0x1FF6, [0x3A9; 0x342]); (0x1FF7, [0x3A9; 0x342; 0x399]);
   (0x1FFC, [0x3A9; 0x399]); (0x214E, [0x2132]); (0x2170, [0x2160]); (0x2171, [0x2161]);
   (0x2172, [0x2162]); (0x2173, [0x2163]); (0x2174, [0x2164]); (0x2175, [0x2165]);
   (0x2176, [0x2166]); (0x2177, [0x2167]); (0x2178, [0x2168]); (0x2179, [0x2169]);
   (0x217A, [0x216A]); (0x217B, [0x216B]); (0x217C, [0x216C]); (0x217D, [0x216D]);
   (0x217E, [0x216E]); (0x217F, [0x216F]); (0x2184, [0x2183]); (0x24D0, [0x24B6]);
   (0x24D1, [0x24B7]); (0x24D2, [0x24B8]); (0x24D3, [0x24B9]); (0x24D4, [0x24BA]);
   (0x24D5, [0x24BB]); (0x24D6, [0x24BC]); (0x24D7, [0x24BD]); (0x24D8, [0x24BE]);
   (0x24D9, [0x24BF]); (0x24DA, [0x24C0]); (0x24DB, [0x24C1]); (0x24DC, [0x24C2]);
   (0x24DD, [0x24C3]); (0x24DE, [0x24C4]); (0x24DF, [0x24C5]); (0x24E0, [0x24C6]);
   (0x24E1, [0x24C7]); (0x24E2, [0x24C8]); (0x24E3, [0x24C9]); (0x24E4, [0x24CA]);
   (0x24E5, [0x24CB]); (0x24E6, [0x24CC]); (0x24E7, [0x24CD]); (0x24E8, [0x24CE]);
   (0x24E9, [0x24CF]); (0x2C30, [0x2C00]); (0x2C31, [0x2C01]); (0x2C32, [0x2C02]);
   (0x2C33, [0x2C03]); (0x2C34, [0x2C04]); (0x2C35, [0x2C05]); (0x2C36, [0x2C06]);
   (0x2C37, [0x2C07]); (0x2C38, [0x2C08]); (0x2C39, [0x2C09]); (0x2C3A, [0x2C0A]);
   (0x2C3B, [0x2C0B]); (0x2C3C, [0x2C0C]); (0x2C3D, [0x2C0D]); (0x2C3E, [0x2C0E]);
   (0x2C3F, [0x2C0F]); (0x2C40, [0x2C10]); (0x2C41, [0x2C11]); (0x2C42, [0x2C12]);
   (0x2C43, [0x2C13]); (0x2C44, [0x2C14]); (0x2C45, [0x2C15]); (0x2C46, [0x2C16]);
   (0x2C47, [0x2C17]); (0x2C48, [0x2C18]); (0x2C49, [0x2C19]); (0x2C4A, [0x2C1A]);
   (0x2C4B, [0x2C1B]); (0x2C4C, [0x2C1C]); (0x2C4D, [0x2C1D]); (0x2C4E, [0x2C1E]);
   (0x2C4F, [0x2C1F]); (0x2C50, [0x2C20]); (0x2C51, [0x2C21]); (0x2C52, [0x2C22]);
   (0x2C53, [0x2C23]); (0x2C54, [0x2C24]); (0x2C55, [0x2C25]); (0x2C56, [0x2C26]);
   (0x2C57, [0x2C27]); (0x2C58, [0x2C28]); (0x2C59, [0x2C29]); (0x2C5A, [0x2C2A]);
   (0x2C5B, [0x2C2B]); (0x2C5C, [0x2C2C]); (0x2C5D, [0x2C2D]); (0x2C5E, [0x2C2E]);
   (0x2C5F, [0x2C2F]); (0x2C61, [0x2C60]); (0x2C65, [0x23A]); (0x2C66, [0x23E]);
   (0x2C68, [0x2C67]); (0x2C6A, [0x2C69]); (0x2C6C, [0x2C6B]); (0x2C73, [0x2C72]);
   (0x2C76, [0x2C75]); (0x2C81, [0x2C80]); (0x2C83, [0x2C82]); (0x2C85, [0x2C84]);
   (0x2C87, [0x2C86]); (0x2C89, [0x2C88]); (0x2C8B, [0x2C8A]); (0x2C8D, [0x2C8C]);
   (0x2C8F, [0x2C8E]); (0x2C91, [0x2C90]); (0x2C93, [0x2C92]); (0x2C95, [0x2C94]);
   (0x2C97, [0x2C96]); (0x2C99, [0x2C98]); (0x2C9B, [0x2C9A]); (0x2C9D, [0x2C9C]);
   (0x2C9F, [0x2C9E]); (0x2CA1, [0x2CA0]); (0x2CA3, [0x2CA2]); (0x2CA5, [0x2CA4]);
   (0x2CA7, [0x2CA6]); (0x2CA9, [0x2CA8]); (0x2CAB, [0x2CAA]); (0x2CAD, [0x2CAC]);
   (0x2CAF, [0x2CAE]); (0x2CB1, [0x2CB0]); (0x2CB3, [0x2CB2]); (0x2CB5, [0x2CB4]);
   (0x2CB7, [0x2CB6]); (0x2CB9, [0x2CB8]); (0x2CBB, [0x2CBA]); (0x2CBD, [0x2CBC]);
   (0x2CBF, [0x2CBE]); (0x2CC1, [0x2CC0]); (0x2CC3, [0x2CC2]); (0x2CC5, [0x2CC4]);
   (0x2CC7, [0x2CC6]); (0x2CC9, [0x2CC8]); (0x2CCB, [0x2CCA]); (0x2CCD, [0x2CCC]);
   (0x2CCF, [0x2CCE]); (0x2CD1, [0x2CD0]); (0x2CD3, [0x2CD2]); (0x2CD5, [0x2CD4]);
   (0x2CD7, [0x2CD6]); (0x2CD9, [0x2CD8]); (0x2CDB, [0x2CDA]); (0x2CDD, [0x2CDC]);
   (0x2CDF, [0x2CDE]); (0x2CE1, [0x2CE0]); (0x2CE3, [0x2CE2]); (0x2CEC, [0x2CEB]);
   (0x2CEE, [0x2CED]); (0x2CF3, [0x2CF2]); (0x2D00, [0x10A0]); (0x2D01, [0x10A1]);
   (0x2D02, [0x10A2]); (0x2D03, [0x10A3]); (0x2D04, [0x10A4]); (0x2D05, [0x10A5]);
   (0x2D06, [0x10A6]); (0x2D07, [0x10A7]); (0x2D08, [0x10A8]); (0x2D09, [0x10A9]);
   (0x2D0A, [0x10AA]); (0x2D0B, [0x10AB]); (0x2D0C, [0x10AC]); (0x2D0D, [0x10AD]);
   (0x2D0E, [0x10AE]); (0x2D0F, [0x10AF]); (0x2D10, [0x10B0]); (0x2D11, [0x10B1]);
   (0x2D12, [0x10B2]); (0x2D13, [0x10B3]); (0x2D14, [0x10B4]); (0x2D15, [0x10B5]);
   (0x2D16, [0x10B6]); (0x2D17, [0x10B7]); (0x2D18, [0x10B8]); (0x2D19, [0x10B9]);
   (0x2D1A, [0x10BA]); (0x2D1B, [0x10BB]); (0x2D1C, [0x10BC]); (0x2D1D, [0x10BD]);
   (0x2D1E, [0x10BE]); (0x2D1F, [0x10BF]); (0x2D20, [0x10C0]); (0x2D21, [0x10C1]);
   (0x2D22, [0x10C2]); (0x2D23, [0x10C3]); (0x2D24, [0x10C4]); (0x2D25, [0x10C5]);
   (0x2D27, [0x10C7]); (0x2D2D, [0x10CD]); (0xA641, [0xA640]); (0xA643, [0xA642]);
   (0xA645, [0xA644]); (0xA647, [0xA646]); (0xA649, [0xA648]); (0xA64B, [0xA64A]);
   (0xA64D, [0xA64C]); (0xA64F, [0xA64E]); (0xA651, [0xA650]); (0xA653, [0xA652]);
   (0xA655, [0xA654]); (0xA657, [0xA656]); (0xA659, [0xA658]); (0xA65B, [0xA65A]);
   (0xA65D, [0xA65C]); (0xA65F, [0xA65E]); (0xA661, [0xA660]); (0xA663, [0xA662]);
   (0xA665, [0xA664]); (0xA667, [0xA666]); (0xA669, [0xA668]); (0xA66B, [0xA66A]);
   (0xA66D, [0xA66C]); (0xA681, [0xA680]); (0xA683, [0xA682]); (0xA685, [0xA684]);
   (0xA687, [0xA686]); (0xA689, [0xA688]); (0xA68B, [0xA68A]); (0xA68D, [0xA68C]);
   (0xA68F, [0xA68E]); (0xA691, [0xA690]); (0xA693, [0xA692]); (0xA695, [0xA694]);
   (0xA697, [0xA696]); (0xA699, [0xA698]); (0xA69B, [0xA69A]); (0xA723, [0xA722]);
   (0xA725, [0xA724]); (0xA727, [0xA726]); (0xA729, [0xA728]); (0xA72B, [0xA72A]);
   (0xA72D, [0xA72C]); (0xA72F, [0xA72E]); (0xA733, [0xA732]); (0xA735, [0xA734]);
   (0xA737, [0xA736]); (0xA739, [0xA738]); (0xA73B, [0xA73A]); (0xA73D, [0xA73C]);
   (0xA73F, [0xA73E]); (0xA741, [0xA740]); (0xA743, [0xA742]); (0xA745, [0xA744]);
   (0xA747, [0xA746]); (0xA749, [0xA748]); (0xA74B, [0xA74A]); (0xA74D, [0xA74C]);
   (0xA74F, [0xA74E]); (0xA751, [0xA750]); (0xA753, [0xA752]); (0xA755, [0xA754]);
   (0xA757, [0xA756]); (0xA759, [0xA758]); (0xA75B, [0xA75A]); (0xA75D, [0xA75C]);
   (0xA75F, [0xA75E]); (0xA761, [0xA760]); (0xA763, [0xA762]); (0xA765, [0xA764]);
   (0xA767, [0xA766]); (0xA769, [0xA768]); (0xA76B, [0xA76A]); (0xA76D, [0xA76C]);
   (0xA76F, [0xA76E]); (0xA77A, [0xA779]); (0xA77C, [0xA77B]); (0xA77F, [0xA77E]);
   (0xA781, [0xA780]); (0xA783, [0xA782]); (0xA785, [0xA784]); (0xA787, [0xA786]);
   (0xA78C, [0xA78B]); (0xA791, [0xA790]); (0xA793, [0xA792]); (0xA794, [0xA7C4]);
   (0xA797, [0xA796]); (0xA799, [0xA798]); (0xA79B, [0xA79A]); (0xA79D, [0xA79C]);
   (0xA79F, [0xA79E]); (0xA7A1, [0xA7A0]); (0xA7A3, [0xA7A2]); (0xA7A5, [0xA7A4]);
   (0xA7A7, [0xA7A6]); (0xA7A9, [0xA7A8]); (0xA7B5, [0xA7B4]); (0xA7B7, [0xA7B6]);
   (0xA7B9, [0xA7B8]); (0xA7BB, [0xA7BA]); (0xA7BD, [0xA7BC]); (0xA7BF, [0xA7BE]);
   (0xA7C1, [0xA7C0]); (0xA7C3, [0xA7C2]); (0xA7C8, [0xA7C7]); (0xA7CA, [0xA7C9]);
   (0xA7D1, [0xA7D0]); (0xA7D7, [0xA7D6]); (0xA7D9, [0xA7D8]); (0xA7F6, [0xA7F5]);
   (0xAB53, [0xA7B3]); (0xAB70, [0x13A0]); (0xAB71, [0x13A1]); (0xAB72, [0x13A2]);
   (0xAB73, [0x13A3]); (0xAB74, [0x13A4]); (0xAB75, [0x13A5]); (0xAB76, [0x13A6]);
   (0xAB77, [0x13A7]); (0xAB78, [0x13A8]); (0xAB79, [0x13A9]); (0xAB7A, [0x13AA]);
   (0xAB7B, [0x13AB]); (0xAB7C, [0x13AC]); (0xAB7D, [0x13AD]); (0xAB7E, [0x13AE]);
   (0xAB7F, [0x13AF]); (0xAB80, [0x13B0]); (0xAB81, [0x13B1]); (0xAB82, [0x13B2]);
   (0xAB83, [0x13B3]); (0xAB84, [0x13B4]); (0xAB85, [0x13B5]); (0xAB86, [0x13B6]);
   (0xAB87, [0x13B7]); (0xAB88, [0x13B8]); (0xAB89, [0x13B9]); (0xAB8A, [0x13BA]);
   (0xAB8B, [0x13BB]); (0xAB8C, [0x13BC]); (0xAB8D, [0x13BD]); (0xAB8E, [0x13BE]);
   (0xAB8F, [0x13BF]); (0xAB90, [0x13C0]); (0xAB91, [0x13C1]); (0xAB92, [0x13C2]);
   (0xAB93, [0x13C3]); (0xAB94, [0x13C4]); (0xAB95, [0x13C5]); (0xAB96, [0x13C6]);
   (0xAB97, [0x13C7]); (0xAB98, [0x13C8]); (0xAB99, [0x13C9]); (0xAB9A, [0x13CA]);
   (0xAB9B, [0x13CB]); (0xAB9C, [0x13CC]); (0xAB9D, [0x13CD]); (0xAB9E, [0x13CE]);
   (0xAB9F, [0x13CF]); (0xABA0, [0x13D0]); (0xABA1, [0x13D1]); (0xABA2, [0x13D2]);
   (0xABA3, [0x13D3]); (0xABA4, [0x13D4]); (0xABA5, [0x13D5]); (0xABA6, [0x13D6]);
   (0xABA7, [0x13D7]); (0xABA8, [0x13D8]); (0xABA9, [0x13D9]); (0xABAA, [0x13DA]);
   (0xABAB, [0x13DB]); (0xABAC, [0x13DC]); (0xABAD, [0x13DD]); (0xABAE, [0x13DE]);
   (0xABAF, [0x13DF]); (0xABB0, [0x13E0]); (0xABB1, [0x13E1]); (0xABB2, [0x13E2]);
   (0xABB3, [0x13E3]); (0xABB4, [0x13E4]); (0xABB5, [0x13E5]); (0xABB6, [0x13E6]);
   (0xABB7, [0x13E7]); (0xABB8, [0x13E8]); (0xABB9, [0x13E9]); (0xABBA, [0x13EA]);
   (0xABBB, [0x13EB]); (0xABBC, [0x13EC]); (0xABBD, [0x13ED]); (0xABBE, [0x13EE]);
   (0xABBF, [0x13EF]); (0xFB00, [0x46; 0x46]); (0xFB01, [0x46; 0x49]);
   (0xFB02, [0x46; 0x4C]); (0xFB03, [0x46; 0x46; 0x49]); (0xFB04, [0x46; 0x46; 0x4C]);
   (0xFB05, [0x53; 0x54]); (0xFB06, [0x53; 0x54]); (0xFB13, [0x544; 0x546]);
   (0xFB14, [0x544; 0x535]); (0xFB15, [0x544; 0x53B]); (0xFB16, [0x54E; 0x546]);
   (0xFB17, [0x544; 0x53D]); (0xFF41, [0xFF21]); (0xFF42, [0xFF22]); (0xFF43, [0xFF23]);
   (0xFF44, [0xFF24]); (0xFF45, [0xFF25]); (0xFF46, [0xFF26]); (0xFF47, [0xFF27]);
   (0xFF48, [0xFF28]); (0xFF49, [0xFF29]); (0xFF4A, [0xFF2A]); (0xFF4B, [0xFF2B]);
   (0xFF4C, [0xFF2C]); (0xFF4D, [0xFF2D]); (0xFF4E, [0xFF2E]); (0xFF4F, [0xFF2F]);
   (0xFF50, [0xFF30]); (0xFF51, [0xFF31]); (0xFF52, [0xFF32]); (0xFF53, [0xFF33]);
   (0xFF54, [0xFF34]); (0xFF55, [0xFF35]); (0xFF56, [0xFF36]); (0xFF57, [0xFF37]);
   (0xFF58, [0xFF38]); (0xFF59, [0xFF39]); (0xFF5A, [0xFF3A]); (0x10428, [0x10400]);
   (0x10429, [0x10401]); (0x1042A, [0x10402]); (0x1042B, [0x10403]);
   (0x1042C, [0x10404]); (0x1042D, [0x10405]); (0x1042E, [0x10406]);
   (0x1042F, [0x10407]); (0x10430, [0x10408]); (0x10431, [0x10409]);
   (0x10432, [0x1040A]); (0x10433, [0x1040B]); (0x10434, [0x1040C]);
   (0x10435, [0x1040D]); (0x10436, [0x1040E]); (0x10437, [0x1040F]);
   (0x10438, [0x10410]); (0x10439, [0x10411]); (0x1043A, [0x10412]);
   (0x1043B, [0x10413]); (0x1043C, [0x10414]); (0x1043D, [0x10415]);
   (0x1043E, [0x10416]); (0x1043F, [0x10417]); (0x10440, [0x10418]);
   (0x10441, [0x10419]); (0x10442, [0x1041A]); (0x10443, [0x1041B]);
   (0x10444, [0x1041C]); (0x10445, [0x1041D]); (0x10446, [0x1041E]);
   (0x10447, [0x1041F]); (0x10448, [0x10420]); (0x10449, [0x10421]);
   (0x1044A, [0x10422]); (0x1044B, [0x10423]); (0x1044C, [0x10424]);
   (0x1044D, [0x10425]); (0x1044E, [0x10426]); (0x1044F, [0x10427]);
   (0x104D8, [0x104B0]); (0x104D9, [0x104B1]); (0x104DA, [0x104B2]);
   (0x104DB, [0x104B3]); (0x104DC, [0x104B4]); (0x104DD, [0x104B5]);
   (0x104DE, [0x104B6]); (0x104DF, [0x104B7]); (0x104E0, [0x104B8]);
   (0x104E1, [0x104B9]); (0x104E2, [0x104BA]); (0x104E3, [0x104BB]);
   (0x104E4, [0x104BC]); (0x104E5, [0x104BD]); (0x104E6, [0x104BE]);
   (0x104E7, [0x104BF]); (0x104E8, [0x104C0]); (0x104E9, [0x104C1]);
   (0x104EA, [0x104C2]); (0x104EB, [0x104C3]); (0x104EC, [0x104C4]);
   (0x104ED, [0x104C5]); (0x104EE, [0x104C6]); (0x104EF, [0x104C7]);
   (0x104F0, [0x104C8]); (0x104F1, [0x104C9]); (0x104F2, [0x104CA]);
   (0x104F3, [0x104CB]); (0x104F4, [0x104CC]); (0x104F5, [0x104CD]);
   (0x104F6, [0x104CE]); (0x104F7, [0x104CF]); (0x104F8, [0x104D0]);
   (0x104F9, [0x104D1]); (0x104FA, [0x104D2]); (0x104FB, [0x104D3]);
   (0x10597, [0x10570]); (0x10598, [0x10571]); (0x10599, [0x10572]);
   (0x1059A, [0x10573]); (0x1059B, [0x10574]); (0x1059C, [0x10575]);
   (0x1059D, [0x10576]); (0x1059E, [0x10577]); (0x1059F, [0x10578]);
   (0x105A0, [0x10579]); (0x105A1, [0x1057A]); (0x105A3, [0x1057C]);
   (0x105A4, [0x1057D]); (0x105A5, [0x1057E]); (0x105A6, [0x1057F]);
   (0x105A7, [0x10580]); (0x105A8, [0x10581]); (0x105A9, [0x10582]);
   (0x105AA, [0x10583]); (0x105AB, [0x10584]); (0x105AC, [0x10585]);
   (0x105AD, [0x10586]); (0x105AE, [0x10587]); (0x105AF, [0x10588]);
   (0x105B0, [0x10589]); (0x105B1, [0x1058A]); (0x105B3, [0x1058C]);
   (0x105B4, [0x1058D]); (0x105B5, [0x1058E]); (0x105B6, [0x1058F]);
   (0x105B7, [0x10590]); (0x105B8, [0x10591]); (0x105B9, [0x10592]);
   (0x105BB, [0x10594]); (0x105BC, [0x10595]); (0x10CC0, [0x10C80]);
   (0x10CC1, [0x10C81]); (0x10CC2, [0x10C82]); (0x10CC3, [0x10C83]);
   (0x10CC4, [0x10C84]); (0x10CC5, [0x10C85]); (0x10CC6, [0x10C86]);
   (0x10CC7, [0x10C87]); (0x10CC8, [0x10C88]); (0x10CC9, [0x10C89]);
   (0x10CCA, [0x10C8A]); (0x10CCB, [0x10C8B]); (0x10CCC, [0x10C8C]);
   (0x10CCD, [0x10C8D]); (0x10CCE, [0x10C8E]); (0x10CCF, [0x10C8F]);
   (0x10CD0, [0x10C90]); (0x10CD1, [0x10C91]); (0x10CD2, [0x10C92]);
   (0x10CD3, [0x10C93]); (0x10CD4, [0x10C94]); (0x10CD5, [0x10C95]);
   (0x10CD6, [0x10C96]); (0x10CD7, [0x10C97]); (0x10CD8, [0x10C98]);
   (0x10CD9, [0x10C99]); (0x10CDA, [0x10C9A]); (0x10CDB, [0x10C9B]);
   (0x10CDC, [0x10C9C]); (0x10CDD, [0x10C9D]); (0x10CDE, [0x10C9E]);
   (0x10CDF, [0x10C9F]); (0x10CE0, [0x10CA0]); (0x10CE1, [0x10CA1]);
   (0x10CE2, [0x10CA2]); (0x10CE3, [0x10CA3]); (0x10CE4, [0x10CA4]);
   (0x10CE5, [0x10CA5]); (0x10CE6, [0x10CA6]); (0x10CE7, [0x10CA7]);
   (0x10CE8, [0x10CA8]); (0x10CE9, [0x10CA9]); (0x10CEA, [0x10CAA]);
   (0x10CEB, [0x10CAB]); (0x10CEC, [0x10CAC]); (0x10CED, [0x10CAD]);
   (0x10CEE, [0x10CAE]); (0x10CEF, [0x10CAF]); (0x10CF0, [0x10CB0]);
   (0x10CF1, [0x10CB1]); (0x10CF2, [0x10CB2]); (0x118C0, [0x118A0]);
   (0x118C1, [0x118A1]); (0x118C2, [0x118A2]); (0x118C3, [0x118A3]);
   (0x118C4, [0x118A4]); (0x118C5, [0x118A5]); (0x118C6, [0x118A6]);
   (0x118C7, [0x118A7]); (0x118C8, [0x118A8]); (0x118C9, [0x118A9]);
   (0x118CA, [0x118AA]); (0x118CB, [0x118AB]); (0x118CC, [0x118AC]);
   (0x118CD, [0x118AD]); (0x118CE, [0x118AE]); (0x118CF, [0x118AF]);
   (0x118D0, [0x118B0]); (0x118D1, [0x118B1]); (0x118D2, [0x118B2]);
   (0x118D3, [0x118B3]); (0x118D4, [0x118B4]); (0x118D5, [0x118B5]);
   (0x118D6, [0x118B6]); (0x118D7, [0x118B7]); (0x118D8, [0x118B8]);
   (0x118D9, [0x118B9]); (0x118DA, [0x118BA]); (0x118DB, [0x118BB]);
   (0x118DC, [0x118BC]); (0x118DD, [0x118BD]); (0x118DE, [0x118BE]);
   (0x118DF, [0x118BF]); (0x16E60, [0x16E40]); (0x16E61, [0x16E41]);
   (0x16E62, [0x16E42]); (0x16E63, [0x16E43]); (0x16E64, [0x16E44]);
   (0x16E65, [0x16E45]); (0x16E66, [0x16E46]); (0x16E67, [0x16E47]);
   (0x16E68, [0x16E48]); (0x16E69, [0x16E49]); (0x16E6A, [0x16E4A]);
   (0x16E6B, [0x16E4B]); (0x16E6C, [0x16E4C]); (0x16E6D, [0x16E4D]);
   (0x16E6E, [0x16E4E]); (0x16E6F, [0x16E4F]); (0x16E70, [0x16E50]);
   (0x16E71, [0x16E51]); (0x16E72, [0x16E52]); (0x16E73, [0x16E53]);
   (0x16E74, [0x16E54]); (0x16E75, [0x16E55]); (0x16E76, [0x16E56]);
   (0x16E77, [0x16E57]); (0x16E78, [0x16E58]); (0x16E79, [0x16E59]);
   (0x16E7A, [0x16E5A]); (0x16E7B, [0x16E5B]); (0x16E7C, [0x16E5C]);
   (0x16E7D, [0x16E5D]); (0x16E7E, [0x16E5E]); (0x16E7F, [0x16E5F]);
   (0x1E922, [0x1E900]); (0x1E923, [0x1E901]); (0x1E924, [0x1E902]);
   (0x1E925, [0x1E903]); (0x1E926, [0x1E904]); (0x1E927, [0x1E905]);
   (0x1E928, [0x1E906]); (0x1E929, [0x1E907]); (0x1E92A, [0x1E908]);
   (0x1E92B, [0x1E909]); (0x1E92C, [0x1E90A]); (0x1E92D, [0x1E90B]);
   (0x1E92E, [0x1E90C]); (0x1E92F, [0x1E90D]); (0x1E930, [0x1E90E]);
   (0x1E931, [0x1E90F]); (0x1E932, [0x1E910]); (0x1E933, [0x1E911]);
   (0x1E934, [0x1E912]); (0x1E935, [0x1E913]); (0x1E936, [0x1E914]);
   (0x1E937, [0x1E915]); (0x1E938, [0x1E916]); (0x1E939, [0x1E917]);
   (0x1E93A, [0x1E918]); (0x1E93B, [0x1E919]); (0x1E93C, [0x1E91A]);
   (0x1E93D, [0x1E91B]); (0x1E93E, [0x1E91C]); (0x1E93F, [0x1E91D]);
   (0x1E940, [0x1E91E]); (0x1E941, [0x1E91F]); (0x1E942, [0x1E920]);
   (0x1E943, [0x1E921])]%N.

(** The upper-case mapping of a character *)
Definition upper (ch : string) : string :=
  match ch with
  | String c EmptyString => String (upper_char c) EmptyString
  | _ =>
      match List.find (fun entry => String.eqb ch (encode (fst entry))) UPPER_CASE with
      | Some (_, mapped) => glue (map encode mapped)
      | None => ch
      end
  end.

(** [s.toUpperCase()] *)
Definition toUpperCase (s : string) : string := glue (map upper (chars s)).

(** [s.includes(pat)] *)
Fixpoint includes (s pat : string) : bool :=
  String.prefix pat s ||
  match s with
  | EmptyString => false
  | String _ rest => includes rest pat
  end.

(** [parts.join(sep)] on strings *)
Fixpoint join (sep : string) (parts : list string) : string :=
  match parts with
  | [] => EmptyString
  | [p] => p
  | p :: rest => p ++ sep ++ join sep rest
  end.

Definition is_empty (s : string) : bool :=
  match s with EmptyString => true | _ => false end.

(** Decimal rendering of an integer, as template literals and [join] render
    integral numbers below 1e21. *)
Definition of_Z (z : Z) : string := NilZero.string_of_int (Z.to_int z).

End Str.

(** ** Numbers *)

(** The number operations the route relies on are built-ins of the host
    language; the route never does arithmetic on them.  They are an
    interface here: Number::toString, StringToNumber, Number.isFinite,
    ToBoolean on numbers, the constant NaN and the integer literals. *)
Class JsNumber (num : Type) : Type := {
  num_nan : num;
  num_of_Z : Z -> num;
  num_to_string : num -> string;
  string_to_num : string -> num;
  num_is_finite : num -> bool;
  num_is_truthy : num -> bool
}.

(** ** JSON values and the coercions applied to them *)

Section Json.

Context {num : Type} `{JsNumber num}.

#[warnings="-register-all"] Inductive json : Type :=
| JNull
| JBool (b : bool)
| JNum (n : num)
| JStr (s : string)
| JArr (items : list json)
| JObj (props : list (string * json)).

(** Own property of a parsed object (first binding of the key). *)
Fixpoint own (k : string) (props : list (string * json)) : option json :=
  match props with
  | [] => None
  | (k', v) :: rest => if String.eqb k k' then Some v else own k rest
  end.

(** [v?.k]: none of the property names the code reads exists on the
    prototypes of strings, numbers, booleans or arrays, so only an own
    property of an object is ever found; [None] is [undefined]. *)
Definition get (v : option json) (k : string) : option json :=
  match v with
  | Some (JObj props) => own k props
  | _ => None
  end.

(** [a ?? b], where [b] may itself be [undefined] *)
Definition nullish_opt (a b : option json) : option json :=
  match a with
  | None | Some JNull => b
  | Some v => Some v
  end.

(** [a ?? b] with a defined right operand *)
Definition nullish (a : option json) (b : json) : json :=
  match a with
  | None | Some JNull => b
  | Some v => v
  end.

(** [Array.isArray] *)
Definition isArray (v : option json) : bool :=
  match v with Some (JArr _) => true | _ => false end.

(** ToBoolean *)
Definition truthy (v : option json) : bool :=
  match v with
  | None | Some JNull => false
  | Some (JBool b) => b
  | Some (JNum n) => num_is_truthy n
  | Some (JStr s) => negb (Str.is_empty s)
  | Some (JArr _) | Some (JObj _) => true
  end.

(** ToString on a parsed value.  An array goes through
    [Array.prototype.join]: [null] elements render empty, the others
    recursively.  A plain object reaches [Object.prototype.toString] unless
    an own property named [toString] shadows it; a parsed property is never
    callable and [Object.prototype.valueOf] returns the object itself, so
    OrdinaryToPrimitive then finds no primitive and raises a TypeError. *)
Fixpoint ToString (v : json) : outcome string :=
  match v with
  | JNull => Returned "null"
  | JBool true => Returned "true"
  | JBool false => Returned "false"
  | JNum n => Returned (num_to_string n)
  | JStr s => Returned s
  | JArr items =>
      (fix join_items (l : list json) : outcome string :=
         match l with
         | [] => Returned ""
         | x :: rest =>
             sx ← match x with JNull => Returned "" | _ => ToString x end;
             match rest with
             | [] => Returned sx
             | _ => sr ← join_items rest; Returned (sx ++ "," ++ sr)
             end
         end) items
  | JObj props =>
      match own "toString" props with
      | Some _ => Thrown TypeError
      | None => Returned "[object Object]"
      end
  end.

(** [String(v)] and template interpolation, where [v] may be [undefined]. *)
Definition String_ (v : option json) : outcome string :=
  match v with
  | None => Returned "undefined"
  | Some x => ToString x
  end.

(** [Number(v)]: ToNumber.  Objects and arrays are first converted to a
    primitive with hint number; [valueOf] never yields one, so the result
    is StringToNumber of the string conversion (or the same TypeError). *)
Definition Number_ (v : option json) : outcome num :=
  match v with
  | None => Returned num_nan
  | Some JNull => Returned (num_of_Z 0)
  | Some (JBool true) => Returned (num_of_Z 1)
  | Some (JBool false) => Returned (num_of_Z 0)
  | Some (JNum n) => Returned n
  | Some (JStr s) => Returned (string_to_num s)
  | Some (JArr items) => string_to_num <$> ToString (JArr items)
  | Some (JObj props) => string_to_num <$> ToString (JObj props)
  end.

End Json.

Arguments json num : clear implicits.

(** ** The rates route *)

Module Route.

Section Pipeline.

Context {num : Type} `{JsNumber num}.

(** [JSON.stringify] on a parsed value: a built-in, total on such values. *)
Variable JSON_stringify : json num -> string.

Record RateSummary : Type := {
  carrier : string;
  service : string;
  price : num;
  currency : string;
  estimated_delivery_dates : json num;
  carrier_id : json num
}.

Record RatesResult : Type := {
  rates : list RateSummary;
  errors : list string
}.

Record CacheEntry : Type := {
  expiresAt : Z;
  value : RatesResult
}.

Definition CACHE_TTL_MS : Z := 60000.

Definition JAPAN_POST_SERVICES : list string :=
  ["japanpost_ems"; "japanpost_epacket_light"; "japanpost_smallpacket_air"].

Definition buildCacheKey (destination : string) (weight width height depth : num)
    (postal : string) : string :=
  Str.join ":"
    [destination;
     num_to_string weight;
     num_to_string width;
     num_to_string height;
     num_to_string depth;
     Str.toUpperCase (Str.trim postal)].

(** The loop deletes every entry with [expiresAt <= now]; deleting the
    current entry while iterating a Map is well defined, so what remains is
    the map filtered on the negated test. *)
Definition pruneCache (now : Z) (rateCache : gmap string CacheEntry)
    : gmap string CacheEntry :=
  filter (fun kv => ¬ (expiresAt kv.2 <= now)) rateCache.

(** *** The outbound call *)

(** What the rates API does on one call: the promise of [fetch] rejects, or
    a response arrives with a status and a body; [None] is a body on which
    [response.json()] rejects. *)
Inductive upstream : Type :=
| Rejects
| Responds (status : Z) (body : option (json num)).

Definition response_ok (status : Z) : bool := (200 <=? status) && (status <=? 299).

Inductive event : Type :=
| FetchRatesCalled (requestBody : json num)
| HttpPost (url : string) (token : string) (requestBody : json num).

Inductive ApiResult : Type :=
| ApiFailure (status : Z) (message : json num)
| ApiSuccess (data : json num).

Definition RATES_URL : string := "https://api.shipandco.com/v1/rates".

(** [await response.json().catch(() => null)] *)
Definition parsedBody (body : option (json num)) : json num :=
  match body with Some d => d | None => JNull end.

(** [data?.message ?? data?.error ?? "..."] *)
Definition upstreamMessage (data : json num) : json num :=
  nullish
    (nullish_opt (get (Some data) "message") (get (Some data) "error"))
    (JStr "Ship&Co API の呼び出しに失敗しました。").

(** [!apiKey] is false: the variable is set and not empty. *)
Definition tokenSet (apiKey : option string) : bool :=
  match apiKey with
  | None | Some EmptyString => false
  | Some _ => true
  end.

Definition fetchRates (apiKey : option string) (requestBody : json num)
    (api : upstream) (trace : list event) : outcome ApiResult * list event :=
  let trace := (trace ++ [FetchRatesCalled requestBody])%list in
  match apiKey with
  | None | Some EmptyString =>
      (Returned (ApiFailure 500 (JStr "SHIPANDCO_API_KEY が設定されていません。")), trace)
  | Some token =>
      let trace := (trace ++ [HttpPost RATES_URL token requestBody])%list in
      match api with
      | Rejects => (Thrown FetchRejected, trace)
      | Responds status body =>
          let data := parsedBody body in
          if negb (response_ok status) then
            (Returned (ApiFailure status (upstreamMessage data)), trace)
          else (Returned (ApiSuccess data), trace)
      end
  end.

(** *** Filtering, normalisation and gap-fill *)

Definition rawRates (data : json num) : list (json num) :=
  match data with
  | JArr items => items
  | _ => match get (Some data) "rates" with
         | Some (JArr items) => items
         | _ => []
         end
  end.

Definition in_list (s : string) (l : list string) : bool :=
  existsb (String.eqb s) l.

(** The predicate of [rawRates.filter] *)
Definition accepts (rate : json num) : outcome bool :=
  c ← String_ (Some (nullish (get (Some rate) "carrier") (JStr "")));
  let carrier := Str.toLowerCase c in
  if Str.includes carrier "dhl" then Returned true
  else if Str.includes carrier "fedex" then Returned true
  else if Str.includes carrier "japan post" || Str.includes carrier "japanpost" then
    s ← String_ (get (Some rate) "service");
    Returned (in_list s JAPAN_POST_SERVICES)
  else Returned false.

(** The callback of [filteredRates.map] *)
Definition normalize (rate : json num) : outcome RateSummary :=
  c ← String_ (Some (nullish (get (Some rate) "carrier") (JStr "")));
  s ← String_ (Some (nullish (get (Some rate) "service") (JStr "")));
  p ← Number_ (Some (nullish (get (Some rate) "price") (JNum (num_of_Z 0))));
  cur ← String_ (Some (nullish (get (Some rate) "currency") (JStr "")));
  Returned {|
    carrier := c;
    service := s;
    price := p;
    currency := cur;
    estimated_delivery_dates := nullish (get (Some rate) "estimated_delivery_dates") JNull;
    carrier_id := nullish (get (Some rate) "carrier_id") JNull
  |}.

Definition errorEntryMessage (entry : json num) : outcome string :=
  if truthy (get (Some entry) "message")
  then String_ (get (Some entry) "message")
  else Returned (JSON_stringify entry).

(** The callback of [flatMap], applied to the quotes whose [errors] is an
    array. *)
Definition rateErrors (rate : json num) : outcome (list string) :=
  match get (Some rate) "errors" with
  | Some (JArr entries) => mapM_outcome errorEntryMessage entries
  | _ => Returned []
  end.

Definition apiErrors (raw : list (json num)) : outcome (list string) :=
  parts ← mapM_outcome rateErrors
             (List.filter (fun rate => isArray (get (Some rate) "errors")) raw);
  Returned (concat parts).

Definition japanPostServices (rs : list RateSummary) : list string :=
  map service
    (List.filter (fun r => Str.includes (Str.toLowerCase (carrier r)) "japan") rs).

Definition serviceLabel (service : string) : string :=
  if String.eqb service "japanpost_ems" then "EMS"
  else if String.eqb service "japanpost_epacket_light" then "eパケットライト"
  else "小型包装物（航空）".

Definition missingMessage (service : string) : string :=
  serviceLabel service ++ "：非対応/取得失敗".

(** The messages pushed by the loop over JAPAN_POST_SERVICES *)
Definition gapFill (present : list string) : list string :=
  map missingMessage
    (List.filter (fun service => negb (in_list service present)) JAPAN_POST_SERVICES).

(** Lines 166 to 216: from the parsed payload to the result. *)
Definition buildResult (data : json num) : outcome RatesResult :=
  let raw := rawRates data in
  filteredRates ← filterM_outcome accepts raw;
  rs ← mapM_outcome normalize filteredRates;
  reported ← apiErrors raw;
  Returned {| rates := rs; errors := (reported ++ gapFill (japanPostServices rs))%list |}.

(** *** One destination *)

Inductive Country : Type := US | GB.

Definition countryCode (c : Country) : string :=
  match c with US => "US" | GB => "GB" end.

Record Params : Type := {
  country : Country;
  postal : string;
  weight : num;
  width : num;
  height : num;
  depth : num
}.

Definition keyOf (p : Params) : string :=
  buildCacheKey (countryCode (country p)) (weight p) (width p) (height p) (depth p)
    (postal p).

Definition requestBody (p : Params) : json num :=
  JObj
    [("setup", JObj [("currency", JStr "JPY")]);
     ("from_address",
      JObj [("country", JStr "JP"); ("zip", JStr "0600000");
            ("province", JStr "Hokkaido"); ("city", JStr "Sapporo");
            ("address1", JStr "Test"); ("phone", JStr "0000000000");
            ("full_name", JStr "Sender")]);
     ("to_address",
      JObj [("country", JStr (countryCode (country p))); ("zip", JStr (postal p));
            ("city", JStr "Test City"); ("address1", JStr "Test Address");
            ("phone", JStr "0000000000"); ("full_name", JStr "Receiver")]);
     ("products",
      JArr [JObj [("name", JStr "Sample Item"); ("quantity", JNum (num_of_Z 1));
                  ("price", JNum (num_of_Z 3000)); ("origin_country", JStr "JP")]]);
     ("parcels",
      JArr [JObj [("weight", JNum (weight p)); ("amount", JNum (num_of_Z 1));
                  ("width", JNum (width p)); ("height", JNum (height p));
                  ("depth", JNum (depth p))]]);
     ("customs", JObj [("content_type", JStr "MERCHANDISE")])].

(** The process-wide state the route touches: the cache and, to observe
    which calls were made, the sequence of calls of [fetchRates] and of
    outbound requests.  Console logging is left out. *)
Record World : Type := {
  rateCache : gmap string CacheEntry;
  trace : list event
}.

(** [getRatesForDestination] runs synchronously up to its only [await]:
    either the cache answers, or [fetchRates] has been called and the
    function is suspended on its promise. *)
Inductive pending : Type :=
| Cached (v : RatesResult)
| Awaiting (r : outcome ApiResult).

Definition start (apiKey : option string) (p : Params) (now : Z) (api : upstream)
    (w : World) : pending * World :=
  let key := keyOf p in
  let cache := pruneCache now (rateCache w) in
  let hit :=
    match cache !! key with
    | Some cached => if now <? expiresAt cached then Some (value cached) else None
    | None => None
    end in
  match hit with
  | Some v => (Cached v, {| rateCache := cache; trace := trace w |})
  | None =>
      let '(r, tr) := fetchRates apiKey (requestBody p) api (trace w) in
      (Awaiting r, {| rateCache := cache; trace := tr |})
  end.

Definition failureMessage (c : Country) (status : Z) (message : string) : string :=
  "Ship&Co API 失敗 (" ++ countryCode c ++ "): " ++ Str.of_Z status ++ " " ++ message.

(** The rest of [getRatesForDestination], run when the promise settles. *)
Definition finish (p : Params) (now : Z) (pd : pending) (w : World)
    : outcome RatesResult * World :=
  match pd with
  | Cached v => (Returned v, w)
  | Awaiting (Thrown e) => (Thrown e, w)
  | Awaiting (Returned (ApiFailure status message)) =>
      (m ← String_ (Some message);
       Returned {| rates := []; errors := [failureMessage (country p) status m] |},
       w)
  | Awaiting (Returned (ApiSuccess data)) =>
      match buildResult data with
      | Thrown e => (Thrown e, w)
      | Returned result =>
          (Returned result,
           {| rateCache :=
                <[keyOf p := {| expiresAt := now + CACHE_TTL_MS; value := result |}]>
                  (rateCache w);
              trace := trace w |})
      end
  end.

Definition getRatesForDestination (apiKey : option string) (p : Params) (now : Z)
    (api : upstream) (w : World) : outcome RatesResult * World :=
  let '(pd, w1) := start apiKey p now api w in
  finish p now pd w1.

(** *** The handler *)

Inductive ResponseBody : Type :=
| ErrorBody (error : string)
| RatesBody (us uk : RatesResult).

Inductive Response : Type :=
| NextResponse_json (body : ResponseBody) (status : Z).

(** [String(v ?? dflt).trim() || dflt] *)
Definition postalOrDefault (v : option (json num)) (dflt : string) : outcome string :=
  s ← String_ (Some (nullish v (JStr dflt)));
  let t := Str.trim s in
  Returned (if Str.is_empty t then dflt else t).

Record Inputs : Type := {
  in_weight : num;
  in_width : num;
  in_height : num;
  in_depth : num;
  in_usZip : string;
  in_ukPostcode : string
}.

(** Lines 222 to 248 of the handler: [request] is the parsed inbound body,
    [None] when [request.json()] rejects.  The outcome is an early 400
    response, the validated inputs, or an exception of a coercion. *)
Definition validate (request : option (json num)) : outcome (Response + Inputs) :=
  let body := match request with Some b => b | None => JNull end in
  if negb (truthy (Some body)) then
    Returned (inl (NextResponse_json (ErrorBody "リクエストが不正です。") 400))
  else
    weight ← Number_ (get (Some body) "weight");
    width ← Number_ (get (Some body) "width");
    height ← Number_ (get (Some body) "height");
    depth ← Number_ (get (Some body) "depth");
    if negb (num_is_finite weight) || negb (num_is_finite width)
       || negb (num_is_finite height) || negb (num_is_finite depth)
    then
      Returned (inl (NextResponse_json (ErrorBody "重量・サイズの入力が不正です。") 400))
    else
      usZip ← postalOrDefault (get (Some body) "usZip") "10001";
      ukPostcode ← postalOrDefault (get (Some body) "ukPostcode") "SW1A 1AA";
      Returned (inr {| in_weight := weight; in_width := width; in_height := height;
                       in_depth := depth; in_usZip := usZip;
                       in_ukPostcode := ukPostcode |}).

Definition paramsFor (c : Country) (i : Inputs) : Params :=
  {| country := c;
     postal := match c with US => in_usZip i | GB => in_ukPostcode i end;
     weight := in_weight i; width := in_width i; height := in_height i;
     depth := in_depth i |}.

(** Lines 250 to 272: the two lookups are started in turn, each reading the
    clock, and their continuations run in the order in which the promises
    settle ([usFirst]); [Promise.all] rejects with the first rejection. *)
Definition fanOut (apiKey : option string) (i : Inputs) (nowUS nowGB : Z)
    (apiUS apiGB : upstream) (usFirst : bool) (w : World) : outcome Response * World :=
  let pUS := paramsFor US i in
  let pGB := paramsFor GB i in
  let '(pdUS, w1) := start apiKey pUS nowUS apiUS w in
  let '(pdGB, w2) := start apiKey pGB nowGB apiGB w1 in
  if usFirst then
    let '(usResult, w3) := finish pUS nowUS pdUS w2 in
    let '(ukResult, w4) := finish pGB nowGB pdGB w3 in
    (us ← usResult; uk ← ukResult;
     Returned (NextResponse_json (RatesBody us uk) 200), w4)
  else
    let '(ukResult, w3) := finish pGB nowGB pdGB w2 in
    let '(usResult, w4) := finish pUS nowUS pdUS w3 in
    (uk ← ukResult; us ← usResult;
     Returned (NextResponse_json (RatesBody us uk) 200), w4).

Definition POST (apiKey : option string) (request : option (json num))
    (nowUS nowGB : Z) (apiUS apiGB : upstream) (usFirst : bool) (w : World)
    : outcome Response * World :=
  match validate request with
  | Thrown e => (Thrown e, w)
  | Returned (inl early) => (Returned early, w)
  | Returned (inr i) => fanOut apiKey i nowUS nowGB apiUS apiGB usFirst w
  end.

End Pipeline.

End Route.

(** ** The calculator page *)

Module Page.

(** On the page numbers are IEEE binary64 values and the code computes
    with them: they are the primitive floats, whose operations round to
    nearest even as the host's do. *)

Definition float_of_Z (z : Z) : float :=
  match z with
  | Z0 => PrimFloat.zero
  | Zpos _ => PrimFloat.of_uint63 (Uint63.of_Z z)
  | Zneg _ => PrimFloat.opp (PrimFloat.of_uint63 (Uint63.of_Z (Z.opp z)))
  end.

(** ToBoolean on a number: false on 0, -0 and NaN. *)
Definition float_truthy (x : float) : bool :=
  negb (PrimFloat.is_nan x || PrimFloat.is_zero x).

Section Exchange.

(** Number::toString and StringToNumber, built-ins. *)
Variable float_to_string : float -> string.
Variable string_to_float : string -> float.

#[local] Instance float_number : JsNumber float := {|
  num_nan := PrimFloat.nan;
  num_of_Z := float_of_Z;
  num_to_string := float_to_string;
  string_to_num := string_to_float;
  num_is_finite := PrimFloat.is_finite;
  num_is_truthy := float_truthy
|}.

(** What the exchange-rate endpoint (behind the relay) does on one call:
    [fetch] rejects, or a response arrives whose body parses ([Some]) or on
    which [res.json()] rejects ([None]).  The status is not inspected. *)
Inductive exchangeApi : Type :=
| ExchangeRejects
| ExchangeResponds (body : option (json float)).

Definition FALLBACK_RATE : float := 145%float.

(** The body of the [try] block *)
Definition fetchExchangeRate_try (api : exchangeApi) : outcome float :=
  match api with
  | ExchangeRejects => Thrown FetchRejected
  | ExchangeResponds None => Thrown SyntaxError
  | ExchangeResponds (Some data) =>
      Number_ (Some (nullish (get (get (Some data) "rates") "JPY") (JNum FALLBACK_RATE)))
  end.

Definition fetchExchangeRate (api : exchangeApi) : float :=
  match fetchExchangeRate_try api with
  | Returned rate => rate
  | Thrown _ => FALLBACK_RATE
  end.

End Exchange.

Record Values : Type := {
  costPrice : float;
  shippingFee : float;
  feePercent : float;
  targetProfitRate : float;
  exchangeRate : float;
  discountRate : float;
  weight : float;
  width : float;
  height : float;
  depth : float;
  usZip : string;
  ukPostcode : string
}.

Definition defaultValues : Values := {|
  costPrice := 0;
  shippingFee := 3000;
  feePercent := 21;
  targetProfitRate := 30;
  exchangeRate := 0;
  discountRate := 22;
  weight := 500;
  width := 20;
  height := 10;
  depth := 10;
  usZip := "10001";
  ukPostcode := "SW1A 1AA"
|}.

(** What the memoised computation of [Home] returns; [None] is [null]. *)
Record Calculation : Type := {
  profit : option float;
  sellPriceJPY : option float;
  discountedPriceUSD : option float;
  originalPriceUSD : option float;
  error : option string
}.

Definition RATES_EXCEED : string := "利益率と手数料率の合計が100%を超えています。".

Definition calculate (values : Values) : Calculation :=
  let feeRate := (feePercent values / 100)%float in
  let profitRate := (targetProfitRate values / 100)%float in
  let discount := (discountRate values / 100)%float in
  let totalCost := (costPrice values + shippingFee values)%float in
  let divisor := (1 - feeRate - profitRate)%float in
  if (divisor <=? 0)%float then
    {| profit := None; sellPriceJPY := None; discountedPriceUSD := None;
       originalPriceUSD := None; error := Some RATES_EXCEED |}
  else
    let sell := (totalCost / divisor)%float in
    let gain := (sell * profitRate)%float in
    let sellPriceUSD :=
      if float_truthy (exchangeRate values) then (sell / exchangeRate values)%float
      else 0%float in
    let original :=
      if (discount <? 1)%float then (sellPriceUSD / (1 - discount))%float else 0%float in
    {| profit := Some gain; sellPriceJPY := Some sell;
       discountedPriceUSD := Some sellPriceUSD; originalPriceUSD := Some original;
       error := None |}.

(** The form with a cost of 1000, a shipping fee of 3000 and the given fee
    and profit percentages; the other fields as the page loads them, with
    the fallback exchange rate. *)
Definition quoteOf (fee profitPercent : float) : Values := {|
  costPrice := 1000;
  shippingFee := 3000;
  feePercent := fee;
  targetProfitRate := profitPercent;
  exchangeRate := 145;
  discountRate := 22;
  weight := 500;
  width := 20;
  height := 10;
  depth := 10;
  usZip := "10001";
  ukPostcode := "SW1A 1AA"
|}.

(** *** The service tables and the rates list *)

Record ServiceInfo : Type := {
  label : string;
  description : string
}.

Definition DHL_SERVICE_ENUM : list (string * ServiceInfo) :=
  [("dhl_express_0900",
    {| label := "DHL Express 09:00（午前9時まで配達）";
       description := "最速。対応エリア限定で、翌営業日9:00までの時間指定配達" |});
   ("dhl_express_1200",
    {| label := "DHL Express 12:00（正午まで配達）";
       description := "速達。対応エリア限定で、翌営業日12:00までの時間指定配達" |});
   ("dhl_express_worldwide",
    {| label := "DHL Express Worldwide（通常速達）";
       description := "DHLの標準国際速達。営業日中（EOD）までに配達" |})].

Definition FEDEX_SERVICE_ENUM : list (string * ServiceInfo) :=
  [("fedex_international_priority_express",
    {| label := "FedEx International Priority Express";
       description := "最速クラス。地域により午前中（10:30/12:00）までの配達" |});
   ("fedex_international_priority_eod",
    {| label := "FedEx International Priority（EOD）";
       description := "速達。営業日中（End of Day）までに配達" |});
   ("fedex_international_economy",
    {| label := "FedEx International Economy";
       description := "優先便より遅いが料金を抑えた国際配送" |});
   ("fedex_international_connect_plus",
    {| label := "FedEx International Connect Plus（EC向け）";
       description := "eコマース向け。配達日確定型で比較的安価" |})].

Definition JAPANPOST_SERVICE_ENUM : list (string * ServiceInfo) :=
  [("japanpost_ems",
    {| label := "EMS（国際スピード郵便）";
       description := "日本郵便の最速国際便。追跡・補償あり" |});
   ("japanpost_epacket_light",
    {| label := "国際eパケットライト";
       description := "小型・軽量向け。安価だが国・地域により取扱停止あり" |});
   ("japanpost_smallpacket_air",
    {| label := "小型包装物（航空便）";
       description := "安価な航空便。国・地域・時期により利用不可の場合あり" |})].

Record RateItem : Type := {
  carrier : string;
  service : string;
  price : float;
  currency : string;
  estimated_delivery_dates : option string;
  carrier_id : option string
}.

(** [Object.keys]: the own keys in insertion order. *)
Definition keysOf (table : list (string * ServiceInfo)) : list string := map fst table.

Definition DHL_SERVICES : list string := keysOf DHL_SERVICE_ENUM.
Definition FEDEX_SERVICES : list string := keysOf FEDEX_SERVICE_ENUM.
Definition JAPANPOST_SERVICES : list string := keysOf JAPANPOST_SERVICE_ENUM.

(** [table[service]?.label ?? service].  A name found on the prototype of
    the table (as [constructor]) yields a value without a [label], so only
    an own key gives a label. *)
Fixpoint entryOf (service : string) (table : list (string * ServiceInfo))
    : option ServiceInfo :=
  match table with
  | [] => None
  | (k, info) :: rest => if String.eqb service k then Some info else entryOf service rest
  end.

Definition labelOr (table : list (string * ServiceInfo)) (service : string) : string :=
  match entryOf service table with
  | Some info => label info
  | None => service
  end.

Definition formatCarrier (carrier : string) : string :=
  let normalized := Str.toLowerCase carrier in
  if String.eqb normalized "fedex" then "FedEx"
  else if String.eqb normalized "dhl" then "DHL"
  else if Str.includes normalized "japan" then "Japan Post"
  else carrier.

Definition formatServiceLabel (rate : RateItem) : string :=
  if String.eqb (Str.toLowerCase (carrier rate)) "dhl" then
    labelOr DHL_SERVICE_ENUM (service rate)
  else if String.eqb (Str.toLowerCase (carrier rate)) "fedex" then
    labelOr FEDEX_SERVICE_ENUM (service rate)
  else if Str.includes (Str.toLowerCase (carrier rate)) "japan" then
    labelOr JAPANPOST_SERVICE_ENUM (service rate)
  else service rate.

(** The three filters of [RatesList] *)
Definition isDhlRate (rate : RateItem) : bool :=
  String.eqb (Str.toLowerCase (carrier rate)) "dhl"
  && Route.in_list (service rate) DHL_SERVICES.

Definition isFedexRate (rate : RateItem) : bool :=
  String.eqb (Str.toLowerCase (carrier rate)) "fedex"
  && Route.in_list (service rate) FEDEX_SERVICES.

Definition isJapanPostRate (rate : RateItem) : bool :=
  Str.includes (Str.toLowerCase (carrier rate)) "japan"
  && Route.in_list (service rate) JAPANPOST_SERVICES.

(** [rates.sort((a, b) => a.price - b.price)].  The comparator puts [a]
    after [b] when the difference is positive.  The sort is stable, and for
    a comparator that orders the elements consistently every stable sort
    returns the same list, the one built here by stable insertion; when
    the comparator is not consistent (a NaN difference) the host leaves the
    order to the implementation. *)
Definition sortsAfter (a b : RateItem) : bool := (0 <? price a - price b)%float.

Fixpoint insertByPrice (x : RateItem) (sorted : list RateItem) : list RateItem :=
  match sorted with
  | [] => [x]
  | y :: rest => if sortsAfter x y then y :: insertByPrice x rest else x :: sorted
  end.

Definition sortByPrice (rates : list RateItem) : list RateItem :=
  fold_right insertByPrice [] rates.

(** [sorted[0]], [undefined] on an empty array *)
Definition cheapest (rates : list RateItem) : option RateItem :=
  match sortByPrice rates with
  | [] => None
  | first :: _ => Some first
  end.

(** [...(x ? [x] : [])] *)
Definition spread (x : option RateItem) : list RateItem :=
  match x with Some r => [r] | None => [] end.

Definition displayRates (rates : list RateItem) : list RateItem :=
  let dhlRates := List.filter isDhlRate rates in
  let fedexRates := List.filter isFedexRate rates in
  let japanPostRates := List.filter isJapanPostRate rates in
  let cheapestDhl := cheapest dhlRates in
  let cheapestFedex := cheapest fedexRates in
  (spread cheapestDhl ++ spread cheapestFedex ++ japanPostRates)%list.

Record RatesData : Type := {
  rates : list RateItem;
  errors : list string
}.

(** One rendered item: carrier, service label, price and currency. *)
Record RateRow : Type := {
  rowCarrier : string;
  rowService : string;
  rowPrice : float;
  rowCurrency : string
}.

Definition NO_DATA : string := "取得データがありません。".

(** What [RatesList] renders: the items, the placeholder shown in their
    stead, and the error messages. *)
Record RatesView : Type := {
  rows : list RateRow;
  placeholder : option string;
  shownErrors : list string
}.

Definition rowOf (rate : RateItem) : RateRow :=
  {| rowCarrier := formatCarrier (carrier rate);
     rowService := formatServiceLabel rate;
     rowPrice := price rate;
     rowCurrency := currency rate |}.

Definition RatesList (data : option RatesData) (showErrors : bool) : RatesView :=
  match data with
  | None => {| rows := []; placeholder := Some NO_DATA; shownErrors := [] |}
  | Some d =>
      let shown := displayRates (rates d) in
      {| rows := map rowOf shown;
         placeholder := match shown with [] => Some NO_DATA | _ => None end;
         shownErrors := if showErrors then errors d else [] |}
  end.

(** *** The form and the request for rates *)

Inductive NumberField : Type :=
| CostPrice | ShippingFee | FeePercent | TargetProfitRate | ExchangeRate
| DiscountRate | Weight | Width | Height | Depth.

Inductive TextField : Type := UsZip | UkPostcode.

Definition sameField (a b : NumberField) : bool :=
  match a, b with
  | CostPrice, CostPrice | ShippingFee, ShippingFee | FeePercent, FeePercent
  | TargetProfitRate, TargetProfitRate | ExchangeRate, ExchangeRate
  | DiscountRate, DiscountRate | Weight, Weight | Width, Width
  | Height, Height | Depth, Depth => true
  | _, _ => false
  end.

(** [{ ...prev, [key]: x }] for a numeric key *)
Definition withNumber (key : NumberField) (x : float) (prev : Values) : Values :=
  let pick k old := if sameField key k then x else old in
  {| costPrice := pick CostPrice (costPrice prev);
     shippingFee := pick ShippingFee (shippingFee prev);
     feePercent := pick FeePercent (feePercent prev);
     targetProfitRate := pick TargetProfitRate (targetProfitRate prev);
     exchangeRate := pick ExchangeRate (exchangeRate prev);
     discountRate := pick DiscountRate (discountRate prev);
     weight := pick Weight (weight prev);
     width := pick Width (width prev);
     height := pick Height (height prev);
     depth := pick Depth (depth prev);
     usZip := usZip prev;
     ukPostcode := ukPostcode prev |}.

(** [{ ...prev, [key]: text }] for a text key *)
Definition withText (key : TextField) (text : string) (prev : Values) : Values :=
  {| costPrice := costPrice prev;
     shippingFee := shippingFee prev;
     feePercent := feePercent prev;
     targetProfitRate := targetProfitRate prev;
     exchangeRate := exchangeRate prev;
     discountRate := discountRate prev;
     weight := weight prev;
     width := width prev;
     height := height prev;
     depth := depth prev;
     usZip := match key with UsZip => text | UkPostcode => usZip prev end;
     ukPostcode := match key with UkPostcode => text | UsZip => ukPostcode prev end |}.

(** What a number is after [JSON.stringify] and the parse on the other
    side: a finite number is itself (the sign of zero is lost), NaN and the
    infinities are written as [null]. *)
Definition wireNumber (x : float) : json float :=
  if PrimFloat.is_finite x then
    JNum (if PrimFloat.is_zero x then PrimFloat.zero else x)
  else JNull.

(** The body [fetchShippingRates] posts, as the handler parses it. *)
Definition ratesRequest (values : Values) : json float :=
  JObj [("weight", wireNumber (weight values));
        ("width", wireNumber (width values));
        ("height", wireNumber (height values));
        ("depth", wireNumber (depth values));
        ("usZip", JStr (usZip values));
        ("ukPostcode", JStr (ukPostcode values))].

Section Form.

Variable float_to_string : float -> string.
Variable string_to_float : string -> float.

(** The [message] of an exception the host raises: its text is the
    host's. *)
Variable engineMessage : exn -> string.

#[local] Instance form_number : JsNumber float :=
  float_number float_to_string string_to_float.

(** The updater set by [onNumberChange(key)] for an input holding [text] *)
Definition onNumberChange (key : NumberField) (text : string) (prev : Values) : Values :=
  let nextValue := string_to_float text in
  withNumber key (if PrimFloat.is_finite nextValue then nextValue else 0%float) prev.

Definition onTextChange (key : TextField) (text : string) (prev : Values) : Values :=
  withText key text prev.

(** What the user and the exchange-rate effect do to the form; the effect
    stores [Number(rate.toFixed(2))], taken here as it comes out. *)
Inductive action : Type :=
| NumberInput (key : NumberField) (text : string)
| TextInput (key : TextField) (text : string)
| RateLoaded (rounded : float).

Definition step (a : action) (prev : Values) : Values :=
  match a with
  | NumberInput key text => onNumberChange key text prev
  | TextInput key text => onTextChange key text prev
  | RateLoaded rounded => withNumber ExchangeRate rounded prev
  end.

(** The form after a sequence of actions, the first of the list first. *)
Definition formAfter (actions : list action) : Values :=
  fold_left (fun values a => step a values) actions defaultValues.

(** *** Fetching the rates *)

(** What [/api/rates] does on one call: [fetch] rejects, or a response
    arrives with its [ok] flag and a body, [None] when [response.json()]
    rejects. *)
Inductive ratesApi : Type :=
| RatesRejects
| RatesResponds (ok : bool) (body : option (json float)).

(** What the [try] block throws: an exception of the host, or the [Error]
    built from the reported message. *)
Inductive raised : Type :=
| Engine (e : exn)
| ErrorObject (message : string).

Definition SHIPPING_FAILED : string := "送料取得に失敗しました。".

Definition fetchShippingRates_try (api : ratesApi) : raised + json float :=
  match api with
  | RatesRejects => inl (Engine FetchRejected)
  | RatesResponds _ None => inl (Engine SyntaxError)
  | RatesResponds ok (Some data) =>
      if negb ok then
        match String_ (Some (nullish (get (Some data) "error") (JStr SHIPPING_FAILED))) with
        | Returned message => inl (ErrorObject message)
        | Thrown e => inl (Engine e)
        end
      else inr data
  end.

(** [error instanceof Error ? error.message : ...]: everything the block
    throws is an [Error]. *)
Definition messageOf (r : raised) : string :=
  match r with
  | Engine e => engineMessage e
  | ErrorObject message => message
  end.

Record ShippingState : Type := {
  shipping : json float;
  shippingError : option string;
  shippingLoading : bool
}.

(** The state once [fetchShippingRates] has run to its [finally]. *)
Definition fetchShippingRates (api : ratesApi) (st : ShippingState) : ShippingState :=
  match fetchShippingRates_try api with
  | inr data =>
      {| shipping := data; shippingError := None; shippingLoading := false |}
  | inl r =>
      {| shipping := shipping st; shippingError := Some (messageOf r);
         shippingLoading := false |}
  end.

End Form.

(** Three DHL rates of the list, the cheapest in the middle. *)
Definition dhlRate (service : string) (amount : float) : RateItem :=
  {| carrier := "DHL"; service := service; price := amount; currency := "JPY";
     estimated_delivery_dates := None; carrier_id := None |}.

Definition sampleRates : list RateItem :=
  [dhlRate "dhl_express_0900" 9800;
   dhlRate "dhl_express_worldwide" 5200;
   dhlRate "dhl_express_1200" 7400].

End Page.

(** ** A concrete number model for evaluating the route *)

(** The integers and NaN: the fragment of the host's numbers on which
    Number::toString is the decimal rendering.  StringToNumber is covered
    for trimmed decimal integers and the empty string. *)
Module Sample.

Inductive intnum : Type := NaN | Int (z : Z).

Definition to_string (n : intnum) : string :=
  match n with
  | NaN => "NaN"
  | Int z => Str.of_Z z
  end.

Definition of_string (s : string) : intnum :=
  match Str.trim s with
  | EmptyString => Int 0
  | t => match NilZero.int_of_string t with
         | Some d => Int (Z.of_int d)
         | None => NaN
         end
  end.

#[global] Instance intnum_number : JsNumber intnum := {|
  num_nan := NaN;
  num_of_Z := Int;
  num_to_string := to_string;
  string_to_num := of_string;
  num_is_finite := fun n => match n with NaN => false | Int _ => true end;
  num_is_truthy := fun n => match n with NaN => false | Int z => negb (z =? 0) end
|}.

Definition dquote : string := String "034"%char EmptyString.

(** [JSON.stringify] without escape sequences and without indentation. *)
Fixpoint stringify (v : json intnum) : string :=
  match v with
  | JNull => "null"
  | JBool true => "true"
  | JBool false => "false"
  | JNum NaN => "null"
  | JNum (Int z) => Str.of_Z z
  | JStr s => dquote ++ s ++ dquote
  | JArr items =>
      "[" ++
      (fix items_text (l : list (json intnum)) : string :=
         match l with
         | [] => ""
         | x :: rest =>
             stringify x ++
             match rest with [] => "" | _ => "," ++ items_text rest end
         end) items
      ++ "]"
  | JObj props =>
      "{" ++
      (fix props_text (l : list (string * json intnum)) : string :=
         match l with
         | [] => ""
         | (k, x) :: rest =>
             dquote ++ k ++ dquote ++ ":" ++ stringify x ++
             match rest with [] => "" | _ => "," ++ props_text rest end
         end) props
      ++ "}"
  end.

Definition emptyWorld : Route.World (num := intnum) :=
  {| Route.rateCache := ∅; Route.trace := [] |}.

(** A parsed quote with the given carrier and service. *)
Definition quote (carrier service : string) : json intnum :=
  JObj [("carrier", JStr carrier); ("service", JStr service);
        ("price", JNum (Int 2500)); ("currency", JStr "JPY")].

(** A payload with an EMS quote of Japan Post and a DHL quote, and the
    result the route builds from it. *)
Definition payload : json intnum :=
  JArr [quote "Japan Post" "japanpost_ems"; quote "DHL" "dhl_express_worldwide"].

Definition summary (carrier service : string) : Route.RateSummary :=
  {| Route.carrier := carrier; Route.service := service; Route.price := Int 2500;
     Route.currency := "JPY"; Route.estimated_delivery_dates := JNull;
     Route.carrier_id := JNull |}.

Definition payloadResult : Route.RatesResult :=
  {| Route.rates := [summary "Japan Post" "japanpost_ems";
                     summary "DHL" "dhl_express_worldwide"];
     Route.errors := ["eパケットライト：非対応/取得失敗";
                      "小型包装物（航空）：非対応/取得失敗"] |}.

(** A payload whose only quote is a DHL quote under the EMS code. *)
Definition dhlUnderEmsCode : json intnum :=
  JArr [quote "DHL" "japanpost_ems"].

Definition usParcel : Route.Params :=
  {| Route.country := Route.US; Route.postal := "10001"; Route.weight := Int 500;
     Route.width := Int 20; Route.height := Int 10; Route.depth := Int 10 |}.


(** The body of a 503 answer that reports a message. *)
Definition unavailable : json intnum :=
  JObj [("message", JStr "Service Unavailable")].

(** The body of a failure answer whose message is an object with an own
    property named [toString], as [{"message": {"toString": null}}] parses. *)
Definition shadowedMessage : json intnum :=
  JObj [("message", JObj [("toString", JNull)])].

Definition inbound : json intnum :=
  JObj [("weight", JNum (Int 500)); ("width", JNum (Int 20));
        ("height", JNum (Int 10)); ("depth", JNum (Int 10))].

(** What validation makes of [inbound]: the postal codes take their
    defaults. *)
Definition inputs : Route.Inputs :=
  {| Route.in_weight := Int 500; Route.in_width := Int 20; Route.in_height := Int 10;
     Route.in_depth := Int 10; Route.in_usZip := "10001";
     Route.in_ukPostcode := "SW1A 1AA" |}.

(** The parcel of [usParcel] sent to the United Kingdom, with the postal
    code as it was typed. *)
Definition ukParcel (postal : string) : Route.Params :=
  {| Route.country := Route.GB; Route.postal := postal; Route.weight := Int 500;
     Route.width := Int 20; Route.height := Int 10; Route.depth := Int 10 |}.

End Sample.

(** ** Notions the properties are stated with *)

Module Spec.

(** Two characters that differ at most by letter case. *)
Definition case_variant (a b : ascii) : Prop :=
  a = b
  \/ (Str.is_upper a = true /\ Str.code b = (Str.code a + 32)%N)
  \/ (Str.is_upper b = true /\ Str.code a = (Str.code b + 32)%N).

(** Two strings that differ at most by the case of their letters. *)
Inductive same_text : string -> string -> Prop :=
| same_text_nil : same_text EmptyString EmptyString
| same_text_cons a b s t :
    case_variant a b -> same_text s t -> same_text (String a s) (String b t).

(** A string of white space of the ASCII range. *)
Definition blank (s : string) : Prop := Str.all_chars Str.is_space s = true.

(** Two postal codes that differ only by letter case or by surrounding
    white space. *)
Definition postal_variant (p q : string) : Prop :=
  exists l1 c1 r1 l2 c2 r2,
    p = l1 ++ c1 ++ r1 /\ q = l2 ++ c2 ++ r2 /\
    blank l1 /\ blank r1 /\ blank l2 /\ blank r2 /\ same_text c1 c2.

Definition colon_free (s : string) : Prop :=
  Str.all_chars (fun c => negb (Ascii.eqb c ":")) s = true.

(** A list of characters that cutting its text gives back. *)
Definition parsed (l : list string) : Prop := Str.chars (Str.glue l) = l.

(** Two characters that differ at most by the case of an ASCII letter. *)
Definition char_variant (x y : string) : Prop :=
  x = y \/ exists a b, x = String a "" /\ y = String b "" /\ case_variant a b.

Section Quotes.

Context {num : Type} `{JsNumber num}.

(** A parsed quote whose carrier and service are the strings [c] and [s]. *)
Definition quote_of (q : json num) (c s : string) : Prop :=
  get (Some q) "carrier" = Some (JStr c) /\ get (Some q) "service" = Some (JStr s).

(** The carrier name contains [pat], letter case aside. *)
Definition carrier_is (pat c : string) : Prop :=
  Str.includes (Str.toLowerCase c) pat = true.

Definition japan_post (c : string) : Prop :=
  carrier_is "japan post" c \/ carrier_is "japanpost" c.

(** The six kinds of quote of the allow-list property.  A Japan Post quote
    with a code outside the list, and an unrelated carrier, are quotes of
    that carrier only: their names contain neither of the other names. *)
Inductive kind : Type :=
| DHL | FedEx | JapanPostAllowed | JapanPostOther | Unrelated.

Definition has_kind (k : kind) (q : json num) : Prop :=
  exists c s, quote_of q c s /\
    match k with
    | DHL => carrier_is "dhl" c
    | FedEx => carrier_is "fedex" c
    | JapanPostAllowed => japan_post c /\ In s Route.JAPAN_POST_SERVICES
    | JapanPostOther =>
        japan_post c /\ ~ carrier_is "dhl" c /\ ~ carrier_is "fedex" c
        /\ ~ In s Route.JAPAN_POST_SERVICES
    | Unrelated =>
        ~ carrier_is "dhl" c /\ ~ carrier_is "fedex" c /\ ~ japan_post c
    end.

(** What the allow-list does with each kind. *)
Definition kept_kind (k : kind) : bool :=
  match k with
  | DHL | FedEx | JapanPostAllowed => true
  | JapanPostOther | Unrelated => false
  end.

(** The predicate of the filter answers [true] on the quote. *)
Definition accepted (q : json num) : bool :=
  match Route.accepts q with
  | Returned true => true
  | _ => false
  end.

(** A DHL quote whose service is an object with an own property named
    [toString], as the payload
    [{"carrier": "DHL", "service": {"toString": null}}] parses. *)
Definition shadowing_quote : json num :=
  JObj [("carrier", JStr "DHL"); ("service", JObj [("toString", JNull)])].

(** No entry of the cache is live for the key at the time of the lookup. *)
Definition misses (now : Z) (cache : gmap string (@Route.CacheEntry num)) (key : string)
    : Prop :=
  forall e, cache !! key = Some e -> Route.expiresAt e <= now.

(** An accepted quote carries the service code. *)
Definition carried (code : string) (rs : list (@Route.RateSummary num)) : Prop :=
  exists r, In r rs /\ Route.service r = code.

(** An accepted quote of a carrier whose name contains "japan", letter case
    aside, carries the service code. *)
Definition carried_by_japan (code : string) (rs : list (@Route.RateSummary num)) : Prop :=
  exists r, In r rs /\ carrier_is "japan" (Route.carrier r) /\ Route.service r = code.

(** The outbound requests recorded in a trace. *)
Definition isHttpPost (ev : @Route.event num) : bool :=
  match ev with
  | Route.HttpPost _ _ _ => true
  | Route.FetchRatesCalled _ => false
  end.

Definition requests (tr : list (@Route.event num)) : nat :=
  length (List.filter isHttpPost tr).

(** Two lookups for the same destination and parcel whose postal codes
    differ only by letter case or by surrounding white space. *)
Definition same_parcel (p p' : @Route.Params num) : Prop :=
  Route.country p = Route.country p' /\ Route.weight p = Route.weight p' /\
  Route.width p = Route.width p' /\ Route.height p = Route.height p' /\
  Route.depth p = Route.depth p' /\ postal_variant (Route.postal p) (Route.postal p').

(** The rule of the allow-list that admits a carrier and service. *)
Definition allow_listed (carrier service : string) : Prop :=
  carrier_is "dhl" carrier \/ carrier_is "fedex" carrier
  \/ (japan_post carrier /\ In service Route.JAPAN_POST_SERVICES).

End Quotes.

(** The price differences order the rates consistently, as a sort requires
    of its comparator: of two rates at most one sorts after the other, and
    not sorting after is transitive.  It holds when no difference of two
    prices is NaN. *)
Definition consistently_priced (l : list Page.RateItem) : Prop :=
  (forall a b, In a l -> In b l ->
     Page.sortsAfter a b = true -> Page.sortsAfter b a = false) /\
  (forall a b c, In a l -> In b l -> In c l ->
     Page.sortsAfter a b = false -> Page.sortsAfter b c = false ->
     Page.sortsAfter a c = false).

(** The four dimensions of the parcel are finite numbers. *)
Definition finite_dimensions (v : Page.Values) : Prop :=
  PrimFloat.is_finite (Page.weight v) = true /\
  PrimFloat.is_finite (Page.width v) = true /\
  PrimFloat.is_finite (Page.height v) = true /\
  PrimFloat.is_finite (Page.depth v) = true.

End Spec.

(** * Properties *)

(** ** Strings *)

Module StrFacts.

Import Str Spec.

Lemma append_nil_l (b : string) : "" ++ b = b.
Proof. reflexivity. Qed.

Lemma append_cons (x : ascii) (a b : string) : String x a ++ b = String x (a ++ b).
Proof. reflexivity. Qed.

Ltac push_append :=
  repeat first [rewrite append_nil_l in * | rewrite append_cons in *].

Lemma append_assoc (a b c : string) : (a ++ b) ++ c = a ++ (b ++ c).
Proof. induction a as [|x a IH]; push_append; [reflexivity | now rewrite IH]. Qed.

Lemma append_empty_r (a : string) : a ++ "" = a.
Proof. induction a as [|x a IH]; push_append; [reflexivity | now rewrite IH]. Qed.

Lemma length_append (a b : string) :
  String.length (a ++ b) = (String.length a + String.length b)%nat.
Proof. induction a as [|x a IH]; push_append; simpl; [reflexivity | now rewrite IH]. Qed.

Lemma append_inv_tail (a b t : string) : a ++ t = b ++ t -> a = b.
Proof.
  revert b. induction a as [|x a IH]; intros [|y b] E; push_append.
  - reflexivity.
  - apply (f_equal String.length) in E. simpl in E.
    rewrite length_append in E. lia.
  - apply (f_equal String.length) in E. simpl in E.
    rewrite length_append in E. lia.
  - injection E as -> E. f_equal. now apply IH.
Qed.

Lemma is_upper_range c :
  is_upper c = true <-> (65 <= code c <= 90)%N.
Proof.
  unfold is_upper. rewrite andb_true_iff, !N.leb_le. tauto.
Qed.

Lemma is_lower_range c :
  is_lower c = true <-> (97 <= code c <= 122)%N.
Proof.
  unfold is_lower. rewrite andb_true_iff, !N.leb_le. tauto.
Qed.

Lemma is_space_range c :
  is_space c = true <-> ((9 <= code c <= 13) \/ code c = 32)%N.
Proof.
  unfold is_space. rewrite orb_true_iff, andb_true_iff, !N.leb_le, N.eqb_eq. tauto.
Qed.

Lemma upper_not_space c : is_upper c = true -> is_space c = false.
Proof.
  intros U. apply is_upper_range in U.
  destruct (is_space c) eqn:S; [|reflexivity].
  apply is_space_range in S. lia.
Qed.

Lemma lower_code_not_space c d :
  is_upper d = true -> code c = (code d + 32)%N -> is_space c = false.
Proof.
  intros U E. apply is_upper_range in U.
  destruct (is_space c) eqn:S; [|reflexivity].
  apply is_space_range in S. lia.
Qed.

Lemma case_variant_space a b : case_variant a b -> is_space a = is_space b.
Proof.
  intros [-> | [[U E] | [U E]]]; [reflexivity | |].
  - now rewrite (upper_not_space _ U), (lower_code_not_space _ _ U E).
  - now rewrite (upper_not_space _ U), (lower_code_not_space _ _ U E).
Qed.

Lemma upper_char_of_upper a : is_upper a = true -> upper_char a = a.
Proof.
  intros U. apply is_upper_range in U. unfold upper_char.
  destruct (is_lower a) eqn:L; [|reflexivity].
  apply is_lower_range in L. lia.
Qed.

Lemma upper_char_of_shifted a b :
  is_upper a = true -> code b = (code a + 32)%N -> upper_char b = a.
Proof.
  intros U E. apply is_upper_range in U. unfold upper_char.
  destruct (is_lower b) eqn:L.
  - rewrite E. replace (code a + 32 - 32)%N with (code a) by lia.
    apply ascii_N_embedding.
  - assert (is_lower b = true) by (apply is_lower_range; lia). congruence.
Qed.

Lemma case_variant_upper a b : case_variant a b -> upper_char a = upper_char b.
Proof.
  intros [-> | [[U E] | [U E]]]; [reflexivity | |].
  - now rewrite (upper_char_of_upper _ U), (upper_char_of_shifted _ _ U E).
  - now rewrite (upper_char_of_upper _ U), (upper_char_of_shifted _ _ U E).
Qed.

(** *** Characters *)

Lemma glue_app (l m : list string) : glue (l ++ m)%list = glue l ++ glue m.
Proof.
  induction l as [|x l IH]; [reflexivity|].
  change (x ++ glue (l ++ m)%list = (x ++ glue l) ++ glue m).
  now rewrite IH, append_assoc.
Qed.

Lemma append_inv_head (a x y : string) : a ++ x = a ++ y -> x = y.
Proof.
  induction a as [|c a IH]; push_append; [easy|]. intros [= E]. now apply IH.
Qed.

Lemma continued_app (a b : string) :
  continued (a ++ b) = match a with EmptyString => continued b | _ => continued a end.
Proof. now destruct a. Qed.

Lemma chars_cons (c : ascii) (r : string) :
  chars (String c r) =
  if negb (is_ascii c) && continued r then
    match chars r with
    | next :: others => String c next :: others
    | [] => [String c ""]
    end
  else String c "" :: chars r.
Proof. reflexivity. Qed.

Lemma chars_ascii (c : ascii) (r : string) :
  is_ascii c = true -> chars (String c r) = String c "" :: chars r.
Proof. intros A. rewrite chars_cons. now rewrite A. Qed.

Lemma glue_chars (s : string) : glue (chars s) = s.
Proof.
  induction s as [|c r IH]; [reflexivity|]. rewrite chars_cons.
  destruct (negb (is_ascii c) && continued r).
  - destruct (chars r) as [|next others].
    + now rewrite <- IH.
    + change (String c next ++ glue others = String c r).
      push_append. now rewrite <- IH.
  - change (String c "" ++ glue (chars r) = String c r). push_append. now rewrite IH.
Qed.

Lemma chars_continued (s x : string) (l : list string) :
  chars s = x :: l -> continued x = continued s.
Proof.
  destruct s as [|c r]; [discriminate|]. rewrite chars_cons.
  destruct (negb (is_ascii c) && continued r); [destruct (chars r)|];
    now intros [= <- _].
Qed.

Lemma chars_nil (s : string) : chars s = [] -> s = "".
Proof. intros E. now rewrite <- (glue_chars s), E. Qed.

(** Two texts are cut independently when the second does not begin inside
    a character. *)
Lemma chars_app (a b : string) :
  continued b = false -> chars (a ++ b) = (chars a ++ chars b)%list.
Proof.
  intros B. induction a as [|c a IH]; [reflexivity|]. push_append.
  rewrite !chars_cons, continued_app, IH.
  destruct a as [|d a].
  - cbn [continued]. rewrite B, !andb_false_r. reflexivity.
  - destruct (negb (is_ascii c) && continued (String d a)); [|reflexivity].
    destruct (chars (String d a)) as [|next others] eqn:E; [|reflexivity].
    now apply chars_nil in E.
Qed.

(** The first character, and the characters of what follows it. *)
Lemma chars_split (s x : string) (l : list string) :
  chars s = x :: l -> exists y, s = x ++ y /\ chars y = l.
Proof.
  revert x l. induction s as [|c r IH]; intros x l; [discriminate|].
  rewrite chars_cons. destruct (negb (is_ascii c) && continued r).
  - destruct (chars r) as [|next others] eqn:E.
    + intros [= <- <-]. exists r. split; [reflexivity | exact E].
    + intros [= <- <-]. destruct (IH next others eq_refl) as (y & -> & Y).
      exists y. split; [reflexivity | exact Y].
  - intros [= <- <-]. now exists r.
Qed.

Lemma parsed_chars (s : string) : parsed (chars s).
Proof. unfold parsed. now rewrite glue_chars. Qed.

Lemma parsed_tail (x : string) (l : list string) : parsed (x :: l) -> parsed l.
Proof.
  unfold parsed. intros P. destruct (chars_split _ _ _ P) as (y & E & Y).
  change (x ++ glue l = x ++ y) in E. apply append_inv_head in E. now rewrite E.
Qed.

Lemma parsed_suffix (l m : list string) : parsed (l ++ m) -> parsed m.
Proof. induction l as [|x l IH]; [easy|]. intros P. now apply IH, (parsed_tail x). Qed.

Lemma is_white_encoded (ch : string) :
  is_white ch = true -> In ch (map encode WHITE_SPACE).
Proof.
  unfold is_white. rewrite existsb_exists. intros (cp & I & E).
  apply String.eqb_eq in E as ->. now apply in_map.
Qed.

Lemma white_not_continued (ch : string) (s : string) :
  is_white ch = true -> continued (ch ++ s) = false.
Proof.
  intros W. apply is_white_encoded in W. vm_compute in W.
  repeat (destruct W as [<-|W]; [reflexivity|]). destruct W.
Qed.

Lemma white_glue_not_continued (l : list string) :
  Forall (fun ch => is_white ch = true) l -> continued (glue l) = false.
Proof.
  intros F. destruct F as [|x m W _]; [reflexivity|].
  exact (white_not_continued x (glue m) W).
Qed.

Lemma dropStart_suffix (l : list string) : exists w, l = (w ++ dropStart l)%list.
Proof.
  induction l as [|x l (w & IH)]; [now exists []|]. simpl.
  destruct (is_white x); [|now exists []].
  exists (x :: w). simpl. now rewrite <- IH.
Qed.

Lemma dropEnd_prefix (l : list string) :
  exists w, l = (dropEnd l ++ w)%list /\ Forall (fun ch => is_white ch = true) w.
Proof.
  induction l as [|x l (w & IH & W)]; [now exists []|]. simpl.
  destruct (dropEnd l) as [|k kept]; simpl in IH; subst l.
  - destruct (is_white x) eqn:X.
    + exists (x :: w). split; [reflexivity | now constructor].
    + exists w. now split.
  - exists w. now split.
Qed.

Lemma parsed_dropStart (l : list string) : parsed l -> parsed (dropStart l).
Proof.
  intros P. destruct (dropStart_suffix l) as (w & E). rewrite E in P.
  exact (parsed_suffix _ _ P).
Qed.

Lemma parsed_dropEnd (l : list string) : parsed l -> parsed (dropEnd l).
Proof.
  intros P. destruct (dropEnd_prefix l) as (w & E & W).
  remember (dropEnd l) as kept eqn:K. clear K. subst l.
  pose proof (parsed_suffix _ _ P) as Pw. unfold parsed in *.
  rewrite glue_app, chars_app, Pw in P by exact (white_glue_not_continued w W).
  now apply app_inv_tail in P.
Qed.

Lemma parsed_trim (s : string) : parsed (dropEnd (dropStart (chars s))).
Proof. apply parsed_dropEnd, parsed_dropStart, parsed_chars. Qed.

Lemma dropEnd_idem (l : list string) : dropEnd (dropEnd l) = dropEnd l.
Proof.
  induction l as [|x l IH]; [reflexivity|]. simpl.
  destruct (dropEnd l) as [|k kept] eqn:E.
  - destruct (is_white x) eqn:X; simpl; [reflexivity | now rewrite X].
  - change (dropEnd (x :: k :: kept)) with
      (match dropEnd (k :: kept) with
       | [] => if is_white x then [] else [x]
       | y :: ys => x :: y :: ys
       end).
    now rewrite IH.
Qed.

Lemma dropStart_head (l : list string) :
  dropStart l = [] \/ exists x r, dropStart l = x :: r /\ is_white x = false.
Proof.
  induction l as [|x l IH]; simpl; [now left|].
  destruct (is_white x) eqn:X; [exact IH|]. right. now exists x, l.
Qed.

Lemma dropEnd_keeps_head (x : string) (r : list string) :
  is_white x = false -> exists r', dropEnd (x :: r) = x :: r'.
Proof.
  intros X. simpl. destruct (dropEnd r) as [|k kept].
  - rewrite X. now exists [].
  - now exists (k :: kept).
Qed.

Lemma dropStart_dropEnd (l : list string) :
  dropStart (dropEnd (dropStart l)) = dropEnd (dropStart l).
Proof.
  destruct (dropStart_head l) as [E | (x & r & E & X)]; rewrite E; [reflexivity|].
  destruct (dropEnd_keeps_head x r X) as (r' & K). rewrite K. simpl. now rewrite X.
Qed.

(** [trim] leaves a trimmed string as it is. *)
Lemma trim_idem (s : string) : trim (trim s) = trim s.
Proof.
  unfold trim. rewrite (parsed_trim s), dropStart_dropEnd, dropEnd_idem. reflexivity.
Qed.

(** *** Variants of a postal code *)

Lemma ascii_space_white (c : ascii) : is_ascii c = true -> is_white (String c "") = is_space c.
Proof.
  destruct c as [b0 b1 b2 b3 b4 b5 b6 b7]. intros A.
  destruct b7;
    [destruct b0, b1, b2, b3, b4, b5, b6; vm_compute in A; discriminate A|].
  clear A. destruct b0, b1, b2, b3, b4, b5, b6; vm_compute; reflexivity.
Qed.

Lemma is_space_ascii (c : ascii) : is_space c = true -> is_ascii c = true.
Proof.
  intros S. apply is_space_range in S. unfold is_ascii. apply N.ltb_lt. lia.
Qed.

Lemma is_upper_ascii (c : ascii) : is_upper c = true -> is_ascii c = true.
Proof.
  intros S. apply is_upper_range in S. unfold is_ascii. apply N.ltb_lt. lia.
Qed.

Lemma shifted_ascii (c d : ascii) :
  is_upper d = true -> code c = (code d + 32)%N -> is_ascii c = true.
Proof.
  intros S E. apply is_upper_range in S. unfold is_ascii. apply N.ltb_lt. lia.
Qed.

Lemma ascii_not_continuation (c : ascii) : is_ascii c = true -> is_continuation c = false.
Proof.
  unfold is_ascii, is_continuation. intros A. apply N.ltb_lt in A.
  apply andb_false_iff. left. apply N.leb_gt. exact A.
Qed.

Lemma blank_chars (l s : string) :
  blank l -> chars (l ++ s) = (map (fun c => String c "") (list_ascii_of_string l)
                               ++ chars s)%list.
Proof.
  unfold blank. induction l as [|c l IH]; [reflexivity|].
  intros B. cbn [all_chars] in B. apply andb_true_iff in B as [Hc Hl]. push_append.
  rewrite (chars_ascii _ _ (is_space_ascii _ Hc)), (IH Hl). reflexivity.
Qed.

Lemma blank_white (l : string) :
  blank l -> Forall (fun ch => is_white ch = true)
               (map (fun c => String c "") (list_ascii_of_string l)).
Proof.
  unfold blank. induction l as [|c l IH]; simpl; [constructor|].
  intros B. apply andb_true_iff in B as [Hc Hl]. constructor; [|now apply IH].
  now rewrite (ascii_space_white _ (is_space_ascii _ Hc)).
Qed.

Lemma blank_not_continued (r : string) : blank r -> continued r = false.
Proof.
  unfold blank. destruct r as [|c r]; [reflexivity|]. simpl.
  intros B. apply andb_true_iff in B as [Hc _].
  exact (ascii_not_continuation _ (is_space_ascii _ Hc)).
Qed.

Lemma dropStart_white (w l : list string) :
  Forall (fun ch => is_white ch = true) w -> dropStart (w ++ l) = dropStart l.
Proof. induction 1 as [|x w X _ IH]; simpl; [reflexivity | now rewrite X]. Qed.

Lemma dropEnd_white (w : list string) :
  Forall (fun ch => is_white ch = true) w -> dropEnd w = [].
Proof. induction 1 as [|x w X _ IH]; simpl; [reflexivity | now rewrite IH, X]. Qed.

Lemma dropEnd_app_white (l w : list string) :
  Forall (fun ch => is_white ch = true) w -> dropEnd (l ++ w) = dropEnd l.
Proof.
  intros W. induction l as [|x l IH]; simpl.
  - now apply dropEnd_white.
  - now rewrite IH.
Qed.

Lemma dropStart_app_white (l w : list string) :
  Forall (fun ch => is_white ch = true) w ->
  dropEnd (dropStart (l ++ w)) = dropEnd (dropStart l).
Proof.
  intros W. induction l as [|x l IH]; simpl.
  - assert (D : dropStart w = []).
    { induction W as [|y w Y _ IH]; simpl; [reflexivity | now rewrite Y]. }
    now rewrite D.
  - destruct (is_white x); [exact IH|].
    change (x :: (l ++ w)%list) with ((x :: l) ++ w)%list.
    now apply dropEnd_app_white.
Qed.

Lemma trim_surrounded (l c r : string) :
  blank l -> blank r -> trim (l ++ c ++ r) = trim c.
Proof.
  intros Bl Br. unfold trim.
  rewrite (blank_chars _ _ Bl), (dropStart_white _ _ (blank_white _ Bl)).
  rewrite (chars_app _ _ (blank_not_continued _ Br)).
  replace (chars r) with (map (fun c => String c "") (list_ascii_of_string r)).
  - now rewrite (dropStart_app_white _ _ (blank_white _ Br)).
  - rewrite <- (append_empty_r r) at 2. rewrite (blank_chars _ _ Br).
    symmetry. apply app_nil_r.
Qed.

Lemma case_variant_ascii (a b : ascii) : case_variant a b -> is_ascii a = is_ascii b.
Proof.
  intros [-> | [[U E] | [U E]]]; [reflexivity | |].
  - now rewrite (is_upper_ascii _ U), (shifted_ascii _ _ U E).
  - now rewrite (is_upper_ascii _ U), (shifted_ascii _ _ U E).
Qed.

Lemma case_variant_continuation (a b : ascii) :
  case_variant a b -> is_continuation a = is_continuation b.
Proof.
  intros [-> | [[U E] | [U E]]]; [reflexivity | |].
  - now rewrite (ascii_not_continuation _ (is_upper_ascii _ U)),
      (ascii_not_continuation _ (shifted_ascii _ _ U E)).
  - now rewrite (ascii_not_continuation _ (is_upper_ascii _ U)),
      (ascii_not_continuation _ (shifted_ascii _ _ U E)).
Qed.

Lemma case_variant_proper (a b : ascii) :
  case_variant a b -> a = b \/ (is_ascii a = true /\ is_ascii b = true).
Proof.
  intros [-> | [[U E] | [U E]]]; [now left | right | right].
  - now rewrite (is_upper_ascii _ U), (shifted_ascii _ _ U E).
  - now rewrite (is_upper_ascii _ U), (shifted_ascii _ _ U E).
Qed.

Lemma same_text_continued (s t : string) : same_text s t -> continued s = continued t.
Proof. intros [|a b s' t' V _]; [reflexivity | exact (case_variant_continuation a b V)]. Qed.

Lemma char_variant_continued (x y : string) :
  char_variant x y -> continued x = true -> x = y.
Proof.
  intros [-> | (a & b & -> & -> & V)] C; [reflexivity|]. simpl in C.
  destruct (case_variant_proper a b V) as [-> | [A _]]; [reflexivity|].
  rewrite (ascii_not_continuation _ A) in C. discriminate C.
Qed.

Lemma same_text_chars (s t : string) :
  same_text s t -> Forall2 char_variant (chars s) (chars t).
Proof.
  induction 1 as [|a b s t V T IH]; [constructor|]. rewrite !chars_cons.
  rewrite <- (case_variant_ascii a b V), <- (same_text_continued s t T).
  destruct (negb (is_ascii a) && continued s) eqn:J.
  - apply andb_true_iff in J as [A C]. apply negb_true_iff in A.
    assert (a = b) as <-.
    { destruct (case_variant_proper a b V) as [E | [A' _]]; [exact E | congruence]. }
    destruct (chars s) as [|next others] eqn:Es;
      destruct (chars t) as [|next' others'] eqn:Et; inversion IH; subst.
    + constructor; [now left | constructor].
    + constructor; [left; f_equal | assumption].
      apply char_variant_continued; [assumption|].
      now rewrite (chars_continued s next others Es).
  - constructor; [|exact IH]. right. now exists a, b.
Qed.

Lemma char_variant_white (x y : string) : char_variant x y -> is_white x = is_white y.
Proof.
  intros [-> | (a & b & -> & -> & V)]; [reflexivity|].
  destruct (case_variant_proper a b V) as [-> | [A B]]; [reflexivity|].
  now rewrite (ascii_space_white _ A), (ascii_space_white _ B), (case_variant_space a b V).
Qed.

Lemma char_variant_upper (x y : string) : char_variant x y -> upper x = upper y.
Proof.
  intros [-> | (a & b & -> & -> & V)]; [reflexivity|].
  simpl. now rewrite (case_variant_upper a b V).
Qed.

Lemma variants_dropStart (l m : list string) :
  Forall2 char_variant l m -> Forall2 char_variant (dropStart l) (dropStart m).
Proof.
  induction 1 as [|x y l m V T IH]; simpl; [constructor|].
  rewrite <- (char_variant_white x y V).
  destruct (is_white x); [exact IH | now constructor].
Qed.

Lemma variants_dropEnd (l m : list string) :
  Forall2 char_variant l m -> Forall2 char_variant (dropEnd l) (dropEnd m).
Proof.
  induction 1 as [|x y l m V T IH]; simpl; [constructor|].
  rewrite <- (char_variant_white x y V).
  destruct (dropEnd l) as [|k kept]; destruct (dropEnd m) as [|k' kept'];
    inversion IH; subst.
  - destruct (is_white x); [constructor | constructor; [exact V | constructor]].
  - constructor; [exact V | exact IH].
Qed.

Lemma variants_upper (l m : list string) :
  Forall2 char_variant l m -> map upper l = map upper m.
Proof.
  induction 1 as [|x y l m V T IH]; simpl; [reflexivity|].
  now rewrite IH, (char_variant_upper x y V).
Qed.

Lemma postal_variant_normalised p q :
  postal_variant p q -> toUpperCase (trim p) = toUpperCase (trim q).
Proof.
  intros (l1 & c1 & r1 & l2 & c2 & r2 & -> & -> & B1 & B2 & B3 & B4 & T).
  rewrite !trim_surrounded by assumption.
  unfold toUpperCase, trim. rewrite !parsed_trim. f_equal.
  now apply variants_upper, variants_dropEnd, variants_dropStart, same_text_chars.
Qed.

End StrFacts.

(** ** The concrete number model *)

Module SampleFacts.

Import Str Spec StrFacts Sample.

Lemma to_int_proper (z : Z) : Z.to_int z <> Decimal.Pos Decimal.Nil /\ Z.to_int z <> Decimal.Neg Decimal.Nil.
Proof.
  destruct z as [|p|p]; simpl; split; try discriminate;
    intros [= E]; now apply Unsigned.to_uint_nonnil in E.
Qed.

Lemma of_Z_parses (z : Z) : NilZero.int_of_string (of_Z z) = Some (Z.to_int z).
Proof. unfold of_Z. apply NilZero.isi; apply to_int_proper. Qed.

Lemma of_Z_inj (a b : Z) : of_Z a = of_Z b -> a = b.
Proof.
  intros E. apply (f_equal NilZero.int_of_string) in E.
  rewrite !of_Z_parses in E. injection E as E. now apply to_int_inj.
Qed.

Lemma digits_colon_free (d : Decimal.uint) : colon_free (NilEmpty.string_of_uint d).
Proof. unfold colon_free. induction d; simpl; auto. Qed.

Lemma of_Z_colon_free (z : Z) : colon_free (of_Z z).
Proof.
  unfold of_Z, NilZero.string_of_int, NilZero.string_of_uint.
  destruct (Z.to_int z) as [d|d]; destruct d;
    first [reflexivity | apply digits_colon_free].
Qed.

Lemma to_string_inj (a b : intnum) : to_string a = to_string b -> a = b.
Proof.
  destruct a as [|x], b as [|y]; simpl; intros E.
  - reflexivity.
  - apply (f_equal NilZero.int_of_string) in E.
    rewrite of_Z_parses in E. discriminate.
  - apply (f_equal NilZero.int_of_string) in E.
    rewrite of_Z_parses in E. discriminate.
  - f_equal. now apply of_Z_inj.
Qed.

Lemma to_string_colon_free (a : intnum) : colon_free (to_string a).
Proof. destruct a; [reflexivity | apply of_Z_colon_free]. Qed.

End SampleFacts.

(** ** The cache key *)

Module KeyFacts.

Import Str Spec StrFacts Route.

Lemma colon_free_cons c s :
  colon_free (String c s) <-> c <> ":"%char /\ colon_free s.
Proof.
  unfold colon_free. simpl. rewrite andb_true_iff, negb_true_iff.
  now rewrite Ascii.eqb_neq.
Qed.

Lemma colon_free_field (a b : string) : ~ colon_free (a ++ ":" ++ b).
Proof.
  induction a as [|c a IH]; push_append; rewrite colon_free_cons; tauto.
Qed.

(** A string is cut in one way only at its last colon. *)
Lemma split_last_field (x1 f1 x2 f2 : string) :
  colon_free f1 -> colon_free f2 ->
  x1 ++ ":" ++ f1 = x2 ++ ":" ++ f2 -> x1 = x2 /\ f1 = f2.
Proof.
  intros F1 F2. revert x2.
  induction x1 as [|c x1 IH]; intros [|d x2] E; push_append.
  - injection E as E. now split.
  - injection E as <- E. subst f1. now apply colon_free_field in F1.
  - injection E as -> E. subst f2. now apply colon_free_field in F2.
  - injection E as -> E. apply IH in E as [-> ->]. now split.
Qed.

Section Key.

Context {num : Type} `{JsNumber num}.

(** Number::toString writes digits, a sign, a point, an exponent, [NaN] or
    [Infinity]: never a colon. *)
Hypothesis num_to_string_colon_free :
  forall a : num, colon_free (num_to_string a).

Lemma buildCacheKey_shape (destination : string) (weight width height depth : num)
    (postal : string) :
  buildCacheKey destination weight width height depth postal =
  ((((destination ++ ":" ++ num_to_string weight) ++ ":" ++ num_to_string width)
      ++ ":" ++ num_to_string height) ++ ":" ++ num_to_string depth)
    ++ ":" ++ toUpperCase (trim postal).
Proof.
  unfold buildCacheKey. cbn [join]. now rewrite !append_assoc.
Qed.

Lemma buildCacheKey_inj (postal d1 d2 : string) (w1 x1 h1 p1 w2 x2 h2 p2 : num) :
  buildCacheKey d1 w1 x1 h1 p1 postal = buildCacheKey d2 w2 x2 h2 p2 postal ->
  d1 = d2 /\ num_to_string w1 = num_to_string w2 /\
  num_to_string x1 = num_to_string x2 /\ num_to_string h1 = num_to_string h2 /\
  num_to_string p1 = num_to_string p2.
Proof.
  rewrite !buildCacheKey_shape. intros E.
  apply append_inv_tail in E.
  apply split_last_field in E as [E Ep]; [|apply num_to_string_colon_free ..].
  apply split_last_field in E as [E Eh]; [|apply num_to_string_colon_free ..].
  apply split_last_field in E as [E Ex]; [|apply num_to_string_colon_free ..].
  apply split_last_field in E as [E Ew]; [|apply num_to_string_colon_free ..].
  repeat split; assumption.
Qed.

(** C4, as the code has it.  [buildCacheKey] gives the same key to two
    postal codes that differ only by the case of letters of the ASCII range
    or by surrounding white space of the ASCII range, whatever the other
    parameters are; and, for one postal code, it gives different keys as
    soon as the destinations differ or one of the four dimensions is
    written differently by Number::toString (two numbers are written alike
    only when they are equal, 0 and -0 being equal).  In general two postal
    codes get the same key exactly when their trimmed upper-case forms are
    the same string. *)
Theorem buildCacheKey_equivalence :
  (forall (destination : string) (weight width height depth : num) (p q : string),
      postal_variant p q ->
      buildCacheKey destination weight width height depth p =
      buildCacheKey destination weight width height depth q)
  /\
  (forall (postal d1 d2 : string) (w1 x1 h1 p1 w2 x2 h2 p2 : num),
      d1 <> d2 \/ num_to_string w1 <> num_to_string w2
      \/ num_to_string x1 <> num_to_string x2
      \/ num_to_string h1 <> num_to_string h2
      \/ num_to_string p1 <> num_to_string p2 ->
      buildCacheKey d1 w1 x1 h1 p1 postal <> buildCacheKey d2 w2 x2 h2 p2 postal)
  /\
  (forall (destination : string) (weight width height depth : num) (p q : string),
      buildCacheKey destination weight width height depth p =
      buildCacheKey destination weight width height depth q
      <-> toUpperCase (trim p) = toUpperCase (trim q)).
Proof.
  split; [|split].
  - intros destination weight width height depth p q V.
    unfold buildCacheKey. now rewrite (postal_variant_normalised p q V).
  - intros postal d1 d2 w1 x1 h1 p1 w2 x2 h2 p2 D E.
    apply buildCacheKey_inj in E. tauto.
  - intros destination weight width height depth p q.
    rewrite !buildCacheKey_shape. split.
    + intros E. apply append_inv_head in E. now injection E.
    + now intros ->.
Qed.

End Key.

Ltac case_variant_by_computation :=
  first [ left; reflexivity
        | right; left; split; reflexivity
        | right; right; split; reflexivity ].

Lemma sample_postal_variant : postal_variant " sw1a 1aa  " "SW1A 1AA".
Proof.
  exists " ", "sw1a 1aa", "  ", "", "SW1A 1AA", "".
  repeat split; try reflexivity.
  repeat (apply same_text_cons; [case_variant_by_computation|]).
  apply same_text_nil.
Defined.

Lemma buildCacheKey_equivalence_witness :
  buildCacheKey "US" (Sample.Int 500) (Sample.Int 20) (Sample.Int 10) (Sample.Int 10)
    " sw1a 1aa  " =
  buildCacheKey "US" (Sample.Int 500) (Sample.Int 20) (Sample.Int 10) (Sample.Int 10)
    "SW1A 1AA"
  /\
  buildCacheKey "US" (Sample.Int 500) (Sample.Int 20) (Sample.Int 10) (Sample.Int 10)
    "SW1A 1AA" <>
  buildCacheKey "US" (Sample.Int 500) (Sample.Int 20) (Sample.Int 11) (Sample.Int 10)
    "SW1A 1AA".
Proof.
  destruct (@buildCacheKey_equivalence Sample.intnum Sample.intnum_number
              SampleFacts.to_string_colon_free)
    as (same & differ & _).
  split.
  - apply same. exact sample_postal_variant.
  - apply differ. right. right. right. left. discriminate.
Defined.

(** C4 as stated fails outside the ASCII range: the small sharp s (U+00DF)
    and the capital sharp s (U+1E9E) differ only by letter case, and
    [toUpperCase] writes the first as SS and leaves the second, so the two
    postal codes get two keys. *)
Lemma sharp_s_variants_get_two_keys :
  buildCacheKey "GB" (Sample.Int 500) (Sample.Int 20) (Sample.Int 10) (Sample.Int 10)
    "ß" = "GB:500:20:10:10:SS"
  /\
  buildCacheKey "GB" (Sample.Int 500) (Sample.Int 20) (Sample.Int 10) (Sample.Int 10)
    "ẞ" = "GB:500:20:10:10:ẞ".
Proof. split; vm_compute; reflexivity. Qed.

(** Outside the ASCII range the key follows the host as well: full-width
    letters are capitalised, and the ideographic space (U+3000) and the
    no-break space (U+00A0) are stripped. *)
Lemma wide_variants_share_a_key :
  buildCacheKey "GB" (Sample.Int 500) (Sample.Int 20) (Sample.Int 10) (Sample.Int 10)
    (encode 0x3000 ++ "ｓｗ１ａ １ａａ" ++ encode 0xA0) =
  buildCacheKey "GB" (Sample.Int 500) (Sample.Int 20) (Sample.Int 10) (Sample.Int 10)
    "ＳＷ１Ａ １ＡＡ".
Proof. vm_compute. reflexivity. Qed.

End KeyFacts.

(** ** The allow-list, normalisation and gap-fill *)

Module FilterFacts.

Import Str Spec Route.

Lemma in_list_In (s : string) (l : list string) : in_list s l = true <-> In s l.
Proof.
  unfold in_list. rewrite existsb_exists. split.
  - intros (x & I & E). apply String.eqb_eq in E. now subst.
  - intros I. exists s. split; [assumption | apply String.eqb_refl].
Qed.

Lemma in_list_not_In (s : string) (l : list string) : in_list s l = false <-> ~ In s l.
Proof. rewrite <- in_list_In. now destruct (in_list s l). Qed.

Lemma filter_Permutation_bool {A} (f : A -> bool) (l l' : list A) :
  Permutation l l' -> Permutation (List.filter f l) (List.filter f l').
Proof.
  induction 1 as [|x l l' P IH|x y l|l l' l'' P1 IH1 P2 IH2]; simpl.
  - constructor.
  - destruct (f x); [now constructor | assumption].
  - destruct (f x), (f y); try reflexivity. apply perm_swap.
  - now transitivity (List.filter f l').
Qed.

Section Filter.

Context {num : Type} `{JsNumber num}.

Lemma accepts_by_kind (k : kind) (q : json num) :
  has_kind k q -> accepts q = Returned (kept_kind k).
Proof.
  intros (c & s & [Hc Hs] & Hk). unfold accepts. rewrite Hc, Hs. simpl.
  unfold japan_post, carrier_is in Hk.
  destruct k; simpl.
  - now rewrite Hk.
  - destruct (includes (toLowerCase c) "dhl"); [reflexivity | now rewrite Hk].
  - destruct Hk as [J A].
    destruct (includes (toLowerCase c) "dhl"); [reflexivity|].
    destruct (includes (toLowerCase c) "fedex"); [reflexivity|].
    replace (includes (toLowerCase c) "japan post" || includes (toLowerCase c) "japanpost")
      with true by (symmetry; apply orb_true_iff; exact J).
    simpl. f_equal. exact (proj2 (in_list_In s JAPAN_POST_SERVICES) A).
  - destruct Hk as (J & D & F & A).
    apply not_true_is_false in D, F. rewrite D, F.
    replace (includes (toLowerCase c) "japan post" || includes (toLowerCase c) "japanpost")
      with true by (symmetry; apply orb_true_iff; exact J).
    simpl. f_equal. exact (proj2 (in_list_not_In s JAPAN_POST_SERVICES) A).
  - destruct Hk as (D & F & J).
    apply not_true_is_false in D, F. rewrite D, F.
    replace (includes (toLowerCase c) "japan post" || includes (toLowerCase c) "japanpost")
      with false; [reflexivity|].
    symmetry. apply not_true_is_false. rewrite orb_true_iff. exact J.
Qed.

Lemma accepted_by_kind (k : kind) (q : json num) :
  has_kind k q -> returns (accepts q) = true /\ accepted q = kept_kind k.
Proof.
  intros K. unfold accepted. rewrite (accepts_by_kind k q K). simpl.
  split; [reflexivity | now destruct (kept_kind k)].
Qed.

(** When the predicate throws on no element, the filter is the plain one. *)
Lemma filterM_accepted (raw : list (json num)) :
  Forall (fun q => returns (accepts q) = true) raw ->
  filterM_outcome accepts raw = Returned (List.filter accepted raw).
Proof.
  induction 1 as [|q raw R _ IH]; simpl; [reflexivity|].
  rewrite IH. unfold accepted.
  destruct (accepts q) as [[|]|e]; simpl; [reflexivity | reflexivity | discriminate R].
Qed.

(** C6. Of a DHL quote and a FedEx quote with any service strings, two
    Japan Post quotes with allowed codes, a Japan Post quote with another
    code and a quote of an unrelated carrier, in any order, the allow-list
    filter keeps the first four and nothing else, and raises nothing. *)
Theorem allow_list_keeps_exactly (raw : list (json num)) (d f j1 j2 j3 o : json num) :
  has_kind DHL d -> has_kind FedEx f ->
  has_kind JapanPostAllowed j1 -> has_kind JapanPostAllowed j2 ->
  has_kind JapanPostOther j3 -> has_kind Unrelated o ->
  Permutation raw [d; f; j1; j2; j3; o] ->
  exists kept,
    filterM_outcome accepts raw = Returned kept /\ Permutation kept [d; f; j1; j2].
Proof.
  intros Kd Kf K1 K2 K3 Ko P.
  destruct (accepted_by_kind _ _ Kd) as [Rd Ad], (accepted_by_kind _ _ Kf) as [Rf Af],
    (accepted_by_kind _ _ K1) as [R1 A1], (accepted_by_kind _ _ K2) as [R2 A2],
    (accepted_by_kind _ _ K3) as [R3 A3], (accepted_by_kind _ _ Ko) as [Ro Ao].
  exists (List.filter accepted raw). split.
  - apply filterM_accepted.
    apply (Permutation_Forall (Permutation_sym P)).
    repeat constructor; assumption.
  - rewrite (filter_Permutation_bool accepted _ _ P). simpl.
    rewrite Ad, Af, A1, A2, A3, Ao. reflexivity.
Qed.

Variable JSON_stringify : json num -> string.

Lemma japanPostServices_carried (code : string) (rs : list (@RateSummary num)) :
  in_list code (japanPostServices rs) = true <-> carried_by_japan code rs.
Proof.
  rewrite in_list_In. unfold japanPostServices, carried_by_japan, carrier_is.
  rewrite in_map_iff. split.
  - intros (r & E & I). apply filter_In in I as [I J]. now exists r.
  - intros (r & I & J & E). exists r. split; [assumption|].
    apply filter_In. now split.
Qed.

Lemma gapFill_count (present : list string) (code : string) :
  In code JAPAN_POST_SERVICES ->
  count_occ String.string_dec (gapFill present) (missingMessage code) =
  if in_list code present then 0%nat else 1%nat.
Proof.
  intros I. unfold gapFill. simpl in I |- *.
  destruct I as [<- | [<- | [<- | []]]];
    destruct (in_list "japanpost_ems" present),
             (in_list "japanpost_epacket_light" present),
             (in_list "japanpost_smallpacket_air" present);
    reflexivity.
Qed.

Lemma gapFill_only_labels (present : list string) (m : string) :
  In m (gapFill present) ->
  exists code, In code JAPAN_POST_SERVICES /\ m = missingMessage code
               /\ in_list code present = false.
Proof.
  unfold gapFill. rewrite in_map_iff. intros (code & <- & I).
  apply filter_In in I as [I N]. exists code. repeat split; [assumption|].
  now apply negb_true_iff.
Qed.

Lemma buildResult_errors (data : json num) (r : @RatesResult num) :
  buildResult JSON_stringify data = Returned r ->
  exists reported,
    apiErrors JSON_stringify (rawRates data) = Returned reported /\
    errors r = (reported ++ gapFill (japanPostServices (rates r)))%list.
Proof.
  unfold buildResult.
  destruct (filterM_outcome accepts (rawRates data)) as [kept|]; [|discriminate].
  simpl. destruct (mapM_outcome normalize kept) as [rs|]; [|discriminate].
  simpl. destruct (apiErrors JSON_stringify (rawRates data)) as [reported|];
    [|discriminate].
  simpl. intros [= <-]. now exists reported.
Qed.

(** C7, as the code has it.  The errors of a result are the messages the
    API reported, in the order met, followed by the synthesized ones; for
    each of the three Japan Post codes the synthesized part holds the
    message of that code's label exactly once when no accepted quote of a
    carrier whose name contains "japan" carries the code, and not at all
    when one does; it holds nothing else. *)
Theorem gap_fill_by_japan_carriers (data : json num) (r : @RatesResult num) :
  buildResult JSON_stringify data = Returned r ->
  exists reported,
    apiErrors JSON_stringify (rawRates data) = Returned reported /\
    errors r = (reported ++ gapFill (japanPostServices (rates r)))%list /\
    (forall code, In code JAPAN_POST_SERVICES ->
       (carried_by_japan code (rates r) ->
        count_occ String.string_dec (gapFill (japanPostServices (rates r)))
          (missingMessage code) = 0%nat) /\
       (~ carried_by_japan code (rates r) ->
        count_occ String.string_dec (gapFill (japanPostServices (rates r)))
          (missingMessage code) = 1%nat)) /\
    (forall m, In m (gapFill (japanPostServices (rates r))) ->
       exists code, In code JAPAN_POST_SERVICES /\ m = missingMessage code).
Proof.
  intros B. destruct (buildResult_errors data r B) as (reported & A & E).
  exists reported. split; [assumption|]. split; [assumption|]. split.
  - intros code I. rewrite (gapFill_count _ _ I). split; intros C.
    + apply japanPostServices_carried in C. now rewrite C.
    + destruct (in_list code (japanPostServices (rates r))) eqn:J; [|reflexivity].
      apply japanPostServices_carried in J. contradiction.
  - intros m I. apply gapFill_only_labels in I as (code & I & E' & _).
    now exists code.
Qed.

(** A success answer whose body does not parse is handled as a payload
    without quotes: no rates and the three gap-fill messages. *)
Lemma unparseable_success_body :
  buildResult JSON_stringify (parsedBody None) =
  Returned {| rates := []; errors := map missingMessage JAPAN_POST_SERVICES |}.
Proof. reflexivity. Qed.

(** C10. An accepted quote on which normalisation throws: the filter
    accepts the DHL quote whose service is an object with an own property
    [toString], and converting that service to a string raises a TypeError,
    which aborts the whole result. *)
Theorem normalize_throws_on_shadowed_toString :
  accepts (num := num) shadowing_quote = Returned true /\
  normalize (num := num) shadowing_quote = Thrown TypeError /\
  buildResult JSON_stringify (JArr [shadowing_quote]) = Thrown TypeError.
Proof. repeat split. Qed.

End Filter.

Lemma allow_list_keeps_exactly_witness :
  exists kept,
    filterM_outcome accepts
      [Sample.quote "UPS" "ups_saver";
       Sample.quote "DHL Express" "dhl_express_worldwide";
       Sample.quote "FedEx" "fedex_international_economy";
       Sample.quote "Japan Post" "japanpost_epacket_light";
       Sample.quote "Japan Post" "japanpost_ems";
       Sample.quote "japanpost" "japanpost_other"] = Returned kept /\
    Permutation kept
      [Sample.quote "DHL Express" "dhl_express_worldwide";
       Sample.quote "FedEx" "fedex_international_economy";
       Sample.quote "Japan Post" "japanpost_epacket_light";
       Sample.quote "Japan Post" "japanpost_ems"].
Proof.
  apply (allow_list_keeps_exactly _ _ _ _ _
           (Sample.quote "japanpost" "japanpost_other")
           (Sample.quote "UPS" "ups_saver")).
  - exists "DHL Express", "dhl_express_worldwide". repeat split.
  - exists "FedEx", "fedex_international_economy". repeat split.
  - exists "Japan Post", "japanpost_epacket_light". repeat split.
    + left. reflexivity.
    + simpl. tauto.
  - exists "Japan Post", "japanpost_ems". repeat split.
    + left. reflexivity.
    + simpl. tauto.
  - exists "japanpost", "japanpost_other". repeat split.
    + right. reflexivity.
    + intros E. discriminate E.
    + intros E. discriminate E.
    + simpl. intros [E | [E | [E | []]]]; discriminate E.
  - exists "UPS", "ups_saver". repeat split.
    + intros E. discriminate E.
    + intros E. discriminate E.
    + intros [E | E]; discriminate E.
  - exact (Permutation_cons_append
             [Sample.quote "DHL Express" "dhl_express_worldwide";
              Sample.quote "FedEx" "fedex_international_economy";
              Sample.quote "Japan Post" "japanpost_epacket_light";
              Sample.quote "Japan Post" "japanpost_ems";
              Sample.quote "japanpost" "japanpost_other"]
             (Sample.quote "UPS" "ups_saver")).
Defined.

(** C7 as stated fails: the only accepted quote is a DHL quote carrying the
    EMS code, and the EMS message is synthesized all the same. *)
Lemma gap_fill_ignores_other_carriers :
  buildResult Sample.stringify Sample.dhlUnderEmsCode =
    Returned
      {| rates := [Sample.summary "DHL" "japanpost_ems"];
         errors := [missingMessage "japanpost_ems";
                    missingMessage "japanpost_epacket_light";
                    missingMessage "japanpost_smallpacket_air"] |}
  /\ carried "japanpost_ems" [Sample.summary "DHL" "japanpost_ems"].
Proof.
  split; [reflexivity|].
  exists (Sample.summary "DHL" "japanpost_ems"). split; [now left | reflexivity].
Qed.

Lemma gap_fill_by_japan_carriers_witness :
  exists reported,
    apiErrors Sample.stringify (rawRates Sample.payload) = Returned reported /\
    errors Sample.payloadResult =
      (reported ++ gapFill (japanPostServices (rates Sample.payloadResult)))%list /\
    (forall code, In code JAPAN_POST_SERVICES ->
       (carried_by_japan code (rates Sample.payloadResult) ->
        count_occ String.string_dec
          (gapFill (japanPostServices (rates Sample.payloadResult)))
          (missingMessage code) = 0%nat) /\
       (~ carried_by_japan code (rates Sample.payloadResult) ->
        count_occ String.string_dec
          (gapFill (japanPostServices (rates Sample.payloadResult)))
          (missingMessage code) = 1%nat)) /\
    (forall m, In m (gapFill (japanPostServices (rates Sample.payloadResult))) ->
       exists code, In code JAPAN_POST_SERVICES /\ m = missingMessage code).
Proof.
  apply (gap_fill_by_japan_carriers Sample.stringify Sample.payload Sample.payloadResult).
  reflexivity.
Defined.

End FilterFacts.

(** ** The cache and one destination *)

Module CacheFacts.

Import Str Spec Route.

Section Cache.

Context {num : Type} `{JsNumber num}.

Variable JSON_stringify : json num -> string.

Lemma prune_lookup_Some (now : Z) (cache : gmap string (@CacheEntry num)) k e :
  pruneCache now cache !! k = Some e <-> cache !! k = Some e /\ now < expiresAt e.
Proof.
  unfold pruneCache. rewrite map_lookup_filter_Some. simpl.
  split; intros [L P]; split; auto; lia.
Qed.

Lemma prune_lookup_None (now : Z) (cache : gmap string (@CacheEntry num)) k :
  misses now cache k -> pruneCache now cache !! k = None.
Proof.
  intros M. apply map_lookup_filter_None. right.
  intros e L P. apply P. simpl. exact (M e L).
Qed.

(** X4. Pruning keeps an entry exactly when it has not expired: what is
    found afterwards are the entries with [now < expiresAt], and a key is
    absent afterwards when it was absent or its entry had
    [expiresAt <= now]. *)
Theorem pruneCache_keeps_live_entries (now : Z) (cache : gmap string (@CacheEntry num)) k :
  (forall e, pruneCache now cache !! k = Some e <->
             cache !! k = Some e /\ now < expiresAt e)
  /\
  (pruneCache now cache !! k = None <->
   cache !! k = None \/ exists e, cache !! k = Some e /\ expiresAt e <= now).
Proof.
  split; [intros e; apply prune_lookup_Some|].
  destruct (cache !! k) as [e|] eqn:L.
  - destruct (Z.lt_ge_cases now (expiresAt e)) as [T|T].
    + rewrite (proj2 (prune_lookup_Some now cache k e) (conj L T)).
      split; [discriminate|]. intros [N | (e' & [= <-] & T')]; [discriminate N | lia].
    + split; [intros _; right; now exists e|]. intros _.
      apply prune_lookup_None. intros e' L'. rewrite L in L'. now injection L' as <-.
  - split; [now left|]. intros _.
    apply prune_lookup_None. intros e' L'. rewrite L in L'. discriminate L'.
Qed.

Lemma misses_pruned (now now' : Z) (cache : gmap string (@CacheEntry num)) k :
  misses now cache k -> misses now (pruneCache now' cache) k.
Proof.
  intros M e L. apply prune_lookup_Some in L as [L _]. exact (M e L).
Qed.

Lemma start_hit apiKey (p : Params) now api (w : World) e :
  rateCache w !! keyOf p = Some e -> now < expiresAt e ->
  start apiKey p now api w =
  (Cached (value e), {| rateCache := pruneCache now (rateCache w); trace := trace w |}).
Proof.
  intros L T. unfold start. cbv zeta.
  rewrite (proj2 (prune_lookup_Some now (rateCache w) (keyOf p) e) (conj L T)).
  now rewrite (proj2 (Z.ltb_lt now (expiresAt e)) T).
Qed.

Lemma start_miss apiKey (p : Params) now api (w : World) :
  misses now (rateCache w) (keyOf p) ->
  start apiKey p now api w =
  (Awaiting (fst (fetchRates apiKey (requestBody p) api (trace w))),
   {| rateCache := pruneCache now (rateCache w);
      trace := snd (fetchRates apiKey (requestBody p) api (trace w)) |}).
Proof.
  intros M. unfold start. cbv zeta.
  rewrite (prune_lookup_None now (rateCache w) (keyOf p) M).
  now destruct (fetchRates apiKey (requestBody p) api (trace w)).
Qed.

Lemma finish_trace (p : Params) now pd (w : World) :
  trace (snd (finish JSON_stringify p now pd w)) = trace w.
Proof.
  destruct pd as [v | [[status message | data] | e]]; simpl; try reflexivity.
  now destruct (buildResult JSON_stringify data).
Qed.


Lemma fetchRates_no_token apiKey (body : json num) api tr :
  tokenSet apiKey = false ->
  fst (fetchRates apiKey body api tr) =
  Returned (ApiFailure 500 (JStr "SHIPANDCO_API_KEY が設定されていません。")).
Proof. now destruct apiKey as [[|c token]|]. Qed.

Lemma fetchRates_rejected apiKey (body : json num) tr :
  tokenSet apiKey = true ->
  fst (fetchRates apiKey body Rejects tr) = Thrown FetchRejected.
Proof. now destruct apiKey as [[|c token]|]. Qed.

Lemma fetchRates_failure apiKey (body : json num) status payload tr :
  tokenSet apiKey = true -> response_ok status = false ->
  fst (fetchRates apiKey body (Responds status payload) tr) =
  Returned (ApiFailure status (upstreamMessage (parsedBody payload))).
Proof.
  intros T R. destruct apiKey as [[|c token]|]; try discriminate T.
  unfold fetchRates. now rewrite R.
Qed.

Lemma fetchRates_success apiKey (body : json num) status payload tr :
  tokenSet apiKey = true -> response_ok status = true ->
  fst (fetchRates apiKey body (Responds status payload) tr) =
  Returned (ApiSuccess (parsedBody payload)).
Proof.
  intros T R. destruct apiKey as [[|c token]|]; try discriminate T.
  unfold fetchRates. now rewrite R.
Qed.

Lemma getRatesForDestination_miss apiKey (p : Params) now api (w : World) :
  misses now (rateCache w) (keyOf p) ->
  getRatesForDestination JSON_stringify apiKey p now api w =
  finish JSON_stringify p now
    (Awaiting (fst (fetchRates apiKey (requestBody p) api (trace w))))
    {| rateCache := pruneCache now (rateCache w);
       trace := snd (fetchRates apiKey (requestBody p) api (trace w)) |}.
Proof.
  intros M. unfold getRatesForDestination. now rewrite (start_miss _ _ _ _ _ M).
Qed.


Lemma finish_failure (p : Params) now status (message : json num) (w : World) :
  finish JSON_stringify p now (Awaiting (Returned (ApiFailure status message))) w =
  (m ← String_ (Some message);
   Returned {| rates := []; errors := [failureMessage (country p) status m] |}, w).
Proof. reflexivity. Qed.

Lemma finish_success (p : Params) now (data : json num) (w : World) result :
  buildResult JSON_stringify data = Returned result ->
  finish JSON_stringify p now (Awaiting (Returned (ApiSuccess data))) w =
  (Returned result,
   {| rateCache :=
        <[keyOf p := {| expiresAt := now + CACHE_TTL_MS; value := result |}]>
          (rateCache w);
      trace := trace w |}).
Proof. intros B. simpl. now rewrite B. Qed.

(** C3, as the code has it.  On a miss, a result built from a response
    with a success status is stored under the key with the expiry
    [now + 60000] before it is returned; when the token is missing or the
    status is not a success status, the one-message result is returned and
    nothing is stored: the cache is the pruned one. *)
Theorem stores_only_successful_results apiKey (p : Params) (now : Z) (w : World) :
  misses now (rateCache w) (keyOf p) ->
  (forall status payload v,
      tokenSet apiKey = true -> response_ok status = true ->
      let out := getRatesForDestination JSON_stringify apiKey p now
                   (Responds status payload) w in
      fst out = Returned v ->
      buildResult JSON_stringify (parsedBody payload) = Returned v /\
      rateCache (snd out) =
        <[keyOf p := {| expiresAt := now + 60000; value := v |}]>
          (pruneCache now (rateCache w)))
  /\
  (forall api v,
      tokenSet apiKey = false
      \/ (exists status payload, api = Responds status payload /\ response_ok status = false) ->
      let out := getRatesForDestination JSON_stringify apiKey p now api w in
      rateCache (snd out) = pruneCache now (rateCache w) /\
      (fst out = Returned v -> rates v = [] /\ exists m, errors v = [m])).
Proof.
  intros M. split.
  - intros status payload v T R out. unfold out.
    rewrite (getRatesForDestination_miss _ _ _ _ _ M).
    rewrite (fetchRates_success _ _ _ _ _ T R). simpl.
    destruct (buildResult JSON_stringify (parsedBody payload)) as [result|e]; simpl;
      [|discriminate].
    intros [= <-]. split; reflexivity.
  - intros api v F out.
    assert (E : exists status message,
               fst (fetchRates apiKey (requestBody p) api (trace w)) =
               Returned (ApiFailure status message)).
    { destruct F as [T | (status & payload & -> & R)].
      - eexists _, _. now apply fetchRates_no_token.
      - destruct (tokenSet apiKey) eqn:T.
        + eexists _, _. now apply fetchRates_failure.
        + eexists _, _. now apply fetchRates_no_token. }
    destruct E as (status & message & E). unfold out.
    rewrite (getRatesForDestination_miss _ _ _ _ _ M), E, finish_failure. simpl.
    split; [reflexivity|].
    destruct (ToString message) as [m|e]; simpl; [|discriminate].
    intros [= <-]. simpl. split; [reflexivity | now eexists].
Qed.

(** X1. Without a token the lookup makes no outbound request: on a miss it
    returns the empty quote list with the one configuration message, and
    the only call recorded is that of [fetchRates]. *)
Theorem missing_token_is_reported_as_data apiKey (p : Params) (now : Z) api (w : World) :
  tokenSet apiKey = false ->
  misses now (rateCache w) (keyOf p) ->
  getRatesForDestination JSON_stringify apiKey p now api w =
  (Returned
     {| rates := [];
        errors := [failureMessage (country p) 500
                     "SHIPANDCO_API_KEY が設定されていません。"] |},
   {| rateCache := pruneCache now (rateCache w);
      trace := (trace w ++ [FetchRatesCalled (requestBody p)])%list |}).
Proof.
  intros T M. rewrite (getRatesForDestination_miss _ _ _ _ _ M).
  rewrite (fetchRates_no_token _ _ _ _ T), finish_failure. simpl.
  now destruct apiKey as [[|c token]|].
Qed.

End Cache.

Lemma empty_cache_misses (now : Z) (key : string) :
  misses now (rateCache Sample.emptyWorld) key.
Proof. intros e L. simpl in L. rewrite lookup_empty in L. discriminate L. Defined.

Lemma missing_token_is_reported_as_data_witness :
  getRatesForDestination Sample.stringify None Sample.usParcel 1000 Rejects
    Sample.emptyWorld =
  (Returned
     {| rates := [];
        errors := [failureMessage US 500 "SHIPANDCO_API_KEY が設定されていません。"] |},
   {| rateCache := pruneCache 1000 (rateCache Sample.emptyWorld);
      trace := (trace Sample.emptyWorld
                ++ [FetchRatesCalled (requestBody Sample.usParcel)])%list |}).
Proof.
  exact (missing_token_is_reported_as_data Sample.stringify None Sample.usParcel 1000
           Rejects Sample.emptyWorld eq_refl (empty_cache_misses 1000 _)).
Defined.


(** C3 as stated fails: on a miss answered with status 500 and a body that
    does not parse, the one-message result is returned and the cache holds
    nothing for the key. *)
Lemma failure_result_is_not_stored :
  let out := getRatesForDestination Sample.stringify (Some "token") Sample.usParcel
               1000 (Responds 500 None) Sample.emptyWorld in
  fst out =
    Returned
      {| rates := [];
         errors := ["Ship&Co API 失敗 (US): 500 Ship&Co API の呼び出しに失敗しました。"] |}
  /\ rateCache (snd out) !! keyOf Sample.usParcel = None.
Proof. split; reflexivity. Qed.

Lemma stores_only_successful_results_witness :
  let out := getRatesForDestination Sample.stringify (Some "token") Sample.usParcel
               1000 (Responds 200 (Some Sample.payload)) Sample.emptyWorld in
  misses 1000 (rateCache Sample.emptyWorld) (keyOf Sample.usParcel) /\
  tokenSet (Some "token") = true /\
  response_ok 200 = true /\
  fst out = Returned Sample.payloadResult /\
  buildResult Sample.stringify (parsedBody (Some Sample.payload)) =
    Returned Sample.payloadResult /\
  rateCache (snd out) =
    <[keyOf Sample.usParcel :=
        {| expiresAt := 1000 + 60000; value := Sample.payloadResult |}]>
      (pruneCache 1000 (rateCache Sample.emptyWorld)).
Proof.
  assert (R : fst (getRatesForDestination Sample.stringify (Some "token") Sample.usParcel
                     1000 (Responds 200 (Some Sample.payload)) Sample.emptyWorld) =
              Returned Sample.payloadResult) by reflexivity.
  split; [exact (empty_cache_misses 1000 _)|].
  split; [reflexivity|]. split; [reflexivity|]. split; [exact R|].
  exact (proj1 (stores_only_successful_results Sample.stringify (Some "token")
                  Sample.usParcel 1000 Sample.emptyWorld
                  (empty_cache_misses 1000 (keyOf Sample.usParcel)))
           200 (Some Sample.payload) Sample.payloadResult eq_refl eq_refl R).
Defined.

End CacheFacts.

(** ** The handler *)

Module HandlerFacts.

Import Str Spec Route CacheFacts.

Section Handler.

Context {num : Type} `{JsNumber num}.

Variable JSON_stringify : json num -> string.

Lemma filterM_keeps {A} (f : A -> outcome bool) (l kept : list A) (x : A) :
  filterM_outcome f l = Returned kept -> In x l -> f x = Returned true -> In x kept.
Proof.
  revert kept. induction l as [|y l IH]; intros kept F I T; [contradiction|].
  simpl in F. destruct (f y) as [b|e] eqn:Fy; [|discriminate]. simpl in F.
  destruct (filterM_outcome f l) as [ys|e]; [|discriminate]. simpl in F.
  injection F as <-. destruct I as [-> | I].
  - rewrite T in Fy. injection Fy as <-. now left.
  - specialize (IH ys eq_refl I T). destruct b; [now right | assumption].
Qed.

Lemma mapM_length {A B} (f : A -> outcome B) (l : list A) (ys : list B) :
  mapM_outcome f l = Returned ys -> length ys = length l.
Proof.
  revert ys. induction l as [|x l IH]; intros ys M; simpl in M.
  - now injection M as <-.
  - destruct (f x) as [y|e]; [|discriminate]. simpl in M.
    destruct (mapM_outcome f l) as [rest|e]; [|discriminate]. simpl in M.
    injection M as <-. simpl. f_equal. now apply IH.
Qed.

Lemma buildResult_nonempty (data : json num) (r : RatesResult) (q : json num) :
  buildResult JSON_stringify data = Returned r ->
  In q (rawRates data) -> accepts q = Returned true -> rates r <> [].
Proof.
  unfold buildResult. intros B I T.
  destruct (filterM_outcome accepts (rawRates data)) as [kept|] eqn:F; [|discriminate].
  simpl in B. destruct (mapM_outcome normalize kept) as [rs|] eqn:N; [|discriminate].
  simpl in B. destruct (apiErrors JSON_stringify (rawRates data)); [|discriminate].
  simpl in B. injection B as <-. simpl.
  pose proof (filterM_keeps _ _ _ _ F I T) as K.
  apply mapM_length in N. destruct rs; [|discriminate].
  destruct kept; [contradiction | discriminate N].
Qed.

(** X17. When the US call is answered with a status outside 200..299
    whose reported message converts to a string, and the UK call with a
    success status from which a result is built, the handler answers 200
    whatever the order in which the two calls settle; US maps to the empty
    quote list with the one message
    [Ship&Co API 失敗 (US): <status> <message>], and UK to the result built
    from the UK payload alone, which has a quote as soon as the filter
    accepts one and whose errors are only those the API reported followed
    by the gap-fill messages. *)
Theorem upstream_failure_is_isolated apiKey request (i : Inputs) nowUS nowGB
    statusUS payloadUS m statusGB payloadGB (ukResult : RatesResult) usFirst (w : World) :
  validate request = Returned (inr i) ->
  tokenSet apiKey = true ->
  misses nowUS (rateCache w) (keyOf (paramsFor US i)) ->
  misses nowGB (rateCache w) (keyOf (paramsFor GB i)) ->
  response_ok statusUS = false ->
  String_ (Some (upstreamMessage (parsedBody payloadUS))) = Returned m ->
  response_ok statusGB = true ->
  buildResult JSON_stringify (parsedBody payloadGB) = Returned ukResult ->
  fst (POST JSON_stringify apiKey request nowUS nowGB
         (Responds statusUS payloadUS) (Responds statusGB payloadGB) usFirst w) =
    Returned
      (NextResponse_json
         (RatesBody
            {| rates := [];
               errors := ["Ship&Co API 失敗 (US): " ++ Str.of_Z statusUS ++ " " ++ m] |}
            ukResult)
         200)
  /\ (forall q, In q (rawRates (parsedBody payloadGB)) -> accepts q = Returned true ->
                rates ukResult <> [])
  /\ (exists reported,
        apiErrors JSON_stringify (rawRates (parsedBody payloadGB)) = Returned reported /\
        errors ukResult =
          (reported ++ gapFill (japanPostServices (rates ukResult)))%list).
Proof.
  intros V T MUS MGB RUS SM RGB B. split; [|split].
  - unfold POST. rewrite V. unfold fanOut. cbv zeta.
    rewrite (start_miss _ _ _ _ _ MUS). cbv beta iota.
    rewrite start_miss by exact (misses_pruned nowGB nowUS _ _ MGB).
    cbv beta iota. cbn [trace rateCache].
    rewrite (fetchRates_failure _ _ _ _ _ T RUS), (fetchRates_success _ _ _ _ _ T RGB).
    destruct usFirst; cbv beta iota.
    + rewrite finish_failure. cbv beta iota.
      rewrite (finish_success JSON_stringify _ _ _ _ _ B). cbv beta iota.
      now rewrite SM.
    + rewrite (finish_success JSON_stringify _ _ _ _ _ B). cbv beta iota.
      rewrite finish_failure. cbv beta iota.
      now rewrite SM.
  - intros q I A. exact (buildResult_nonempty _ _ q B I A).
  - exact (FilterFacts.buildResult_errors JSON_stringify _ _ B).
Qed.

(** C2. A failure of the US call is not always kept apart.  When the US
    call is answered with a status outside 200..299 and the message of the
    answer does not convert to a string (an object with an own property
    named [toString]), the template literal that builds the error string
    throws: the handler ends with that exception in whatever order the two
    calls settle, and the result built from a successful UK answer is
    lost with it. *)
Theorem failure_message_coercion_escapes apiKey request (i : Inputs) nowUS nowGB
    statusUS payloadUS statusGB payloadGB (ukResult : RatesResult) usFirst (w : World)
    (e : exn) :
  validate request = Returned (inr i) ->
  tokenSet apiKey = true ->
  misses nowUS (rateCache w) (keyOf (paramsFor US i)) ->
  misses nowGB (rateCache w) (keyOf (paramsFor GB i)) ->
  response_ok statusUS = false ->
  String_ (Some (upstreamMessage (parsedBody payloadUS))) = Thrown e ->
  response_ok statusGB = true ->
  buildResult JSON_stringify (parsedBody payloadGB) = Returned ukResult ->
  fst (POST JSON_stringify apiKey request nowUS nowGB
         (Responds statusUS payloadUS) (Responds statusGB payloadGB) usFirst w) =
    Thrown e.
Proof.
  intros V T MUS MGB RUS SM RGB B.
  unfold POST. rewrite V. unfold fanOut. cbv zeta.
  rewrite (start_miss _ _ _ _ _ MUS). cbv beta iota.
  rewrite start_miss by exact (misses_pruned nowGB nowUS _ _ MGB).
  cbv beta iota. cbn [trace rateCache].
  rewrite (fetchRates_failure _ _ _ _ _ T RUS), (fetchRates_success _ _ _ _ _ T RGB).
  destruct usFirst; cbv beta iota.
  - rewrite finish_failure. cbv beta iota.
    rewrite (finish_success JSON_stringify _ _ _ _ _ B). cbv beta iota.
    now rewrite SM.
  - rewrite (finish_success JSON_stringify _ _ _ _ _ B). cbv beta iota.
    rewrite finish_failure. cbv beta iota.
    now rewrite SM.
Qed.

(** C1. A rejected outbound call is not turned into data: with the token
    set and no live entry for the US key, the rejection of [fetch] leaves
    the handler as an exception, whatever the UK call does and in whatever
    order the calls settle, so no response is built. *)
Theorem rejected_fetch_escapes_the_handler apiKey request (i : Inputs) nowUS nowGB apiGB
    usFirst (w : World) :
  validate request = Returned (inr i) ->
  tokenSet apiKey = true ->
  misses nowUS (rateCache w) (keyOf (paramsFor US i)) ->
  exists e,
    fst (POST JSON_stringify apiKey request nowUS nowGB Rejects apiGB usFirst w) = Thrown e.
Proof.
  intros V T MUS. unfold POST. rewrite V. unfold fanOut. cbv zeta.
  rewrite (start_miss _ _ _ _ _ MUS). cbv beta iota.
  rewrite (fetchRates_rejected _ _ _ T).
  destruct (start apiKey (paramsFor GB i) nowGB apiGB _) as [pdGB w2].
  destruct usFirst; cbv beta iota.
  - simpl. destruct (finish JSON_stringify (paramsFor GB i) nowGB pdGB w2) as [uk w4].
    now exists FetchRejected.
  - destruct (finish JSON_stringify (paramsFor GB i) nowGB pdGB w2) as [[uk|e] w3];
      simpl; eauto.
Qed.

Lemma destination_keys_differ (i : Inputs) :
  keyOf (paramsFor US i) <> keyOf (paramsFor GB i).
Proof. unfold keyOf, buildCacheKey. simpl. discriminate. Qed.

Lemma finish_result (p : Params) now pd (w w' : World) :
  fst (finish JSON_stringify p now pd w) = fst (finish JSON_stringify p now pd w').
Proof.
  destruct pd as [v | [[status message | data] | e]]; simpl; try reflexivity.
  now destruct (buildResult JSON_stringify data).
Qed.

(** The world after a continuation: the entry it stores, if any, depends
    on the pending call only. *)
Lemma finish_world_cases (p : Params) now pd :
  (forall w : World, snd (finish JSON_stringify p now pd w) = w) \/
  exists entry,
    forall w : World,
      snd (finish JSON_stringify p now pd w) =
      {| rateCache := <[keyOf p := entry]> (rateCache w); trace := trace w |}.
Proof.
  destruct pd as [v | [[status message | data] | e]]; simpl; try (now left).
  destruct (buildResult JSON_stringify data) as [result|e] eqn:B.
  - right. eexists. intros w. reflexivity.
  - now left.
Qed.

(** X3. The order in which the two calls settle changes neither the final
    world nor the response: the two continuations write under different
    keys and read nothing of the cache. *)
Theorem settle_order_is_irrelevant apiKey (i : Inputs) nowUS nowGB apiUS apiGB (w : World) :
  snd (fanOut JSON_stringify apiKey i nowUS nowGB apiUS apiGB true w) =
  snd (fanOut JSON_stringify apiKey i nowUS nowGB apiUS apiGB false w)
  /\
  (forall r,
      fst (fanOut JSON_stringify apiKey i nowUS nowGB apiUS apiGB true w) = Returned r <->
      fst (fanOut JSON_stringify apiKey i nowUS nowGB apiUS apiGB false w) = Returned r).
Proof.
  unfold fanOut. cbv zeta.
  destruct (start apiKey (paramsFor US i) nowUS apiUS w) as [pdUS w1].
  destruct (start apiKey (paramsFor GB i) nowGB apiGB w1) as [pdGB w2].
  pose proof (finish_result (paramsFor US i) nowUS pdUS) as RU.
  pose proof (finish_result (paramsFor GB i) nowGB pdGB) as RG.
  pose proof (finish_world_cases (paramsFor US i) nowUS pdUS) as WU.
  pose proof (finish_world_cases (paramsFor GB i) nowGB pdGB) as WG.
  destruct (finish JSON_stringify (paramsFor US i) nowUS pdUS w2) as [us w3] eqn:FU.
  destruct (finish JSON_stringify (paramsFor GB i) nowGB pdGB w3) as [uk w4] eqn:FG.
  destruct (finish JSON_stringify (paramsFor GB i) nowGB pdGB w2) as [uk' w3'] eqn:FG'.
  destruct (finish JSON_stringify (paramsFor US i) nowUS pdUS w3') as [us' w4'] eqn:FU'.
  assert (us' = us) as -> by (generalize (RU w3' w2); now rewrite FU, FU').
  assert (uk' = uk) as -> by (generalize (RG w2 w3); now rewrite FG, FG').
  assert (W : w4 = w4').
  { apply (f_equal snd) in FU, FG, FG', FU'. simpl in FU, FG, FG', FU'.
    subst w3 w4 w3' w4'.
    destruct WU as [WU | (eu & WU)], WG as [WG | (eg & WG)];
      rewrite ?WU, ?WG; try reflexivity.
    simpl. f_equal.
    apply insert_insert_ne. apply not_eq_sym, destination_keys_differ. }
  split; [exact W|].
  intros r. simpl.
  destruct us as [u|e], uk as [k|e']; simpl; split; intros E;
    first [exact E | discriminate E].
Qed.


End Handler.

Lemma upstream_failure_is_isolated_witness :
  validate (Some Sample.inbound) = Returned (inr Sample.inputs) /\
  response_ok 503 = false /\
  response_ok 200 = true /\
  buildResult Sample.stringify (parsedBody (Some Sample.payload)) =
    Returned Sample.payloadResult /\
  fst (POST Sample.stringify (Some "token") (Some Sample.inbound) 1000 1001
         (Responds 503 (Some Sample.unavailable)) (Responds 200 (Some Sample.payload))
         false Sample.emptyWorld) =
    Returned
      (NextResponse_json
         (RatesBody
            {| rates := [];
               errors := ["Ship&Co API 失敗 (US): 503 Service Unavailable"] |}
            Sample.payloadResult)
         200).
Proof.
  do 4 (split; [reflexivity|]).
  exact (proj1 (upstream_failure_is_isolated Sample.stringify (Some "token")
                  (Some Sample.inbound) Sample.inputs 1000 1001
                  503 (Some Sample.unavailable) "Service Unavailable"
                  200 (Some Sample.payload) Sample.payloadResult false Sample.emptyWorld
                  eq_refl eq_refl
                  (empty_cache_misses 1000 _) (empty_cache_misses 1001 _)
                  eq_refl eq_refl eq_refl eq_refl)).
Defined.

Lemma failure_message_coercion_escapes_witness :
  validate (Some Sample.inbound) = Returned (inr Sample.inputs) /\
  response_ok 503 = false /\
  String_ (Some (upstreamMessage (parsedBody (Some Sample.shadowedMessage))))
    = Thrown TypeError /\
  response_ok 200 = true /\
  buildResult Sample.stringify (parsedBody (Some Sample.payload)) =
    Returned Sample.payloadResult /\
  fst (POST Sample.stringify (Some "token") (Some Sample.inbound) 1000 1001
         (Responds 503 (Some Sample.shadowedMessage))
         (Responds 200 (Some Sample.payload)) false Sample.emptyWorld) =
    Thrown TypeError.
Proof.
  do 5 (split; [reflexivity|]).
  exact (failure_message_coercion_escapes Sample.stringify (Some "token")
           (Some Sample.inbound) Sample.inputs 1000 1001
           503 (Some Sample.shadowedMessage) 200 (Some Sample.payload)
           Sample.payloadResult false Sample.emptyWorld TypeError
           eq_refl eq_refl
           (empty_cache_misses 1000 _) (empty_cache_misses 1001 _)
           eq_refl eq_refl eq_refl eq_refl).
Defined.

Lemma rejected_fetch_escapes_the_handler_witness :
  validate (Some Sample.inbound) = Returned (inr Sample.inputs) /\
  exists e,
    fst (POST Sample.stringify (Some "token") (Some Sample.inbound) 1000 1001
           Rejects (Responds 200 (Some Sample.payload)) true Sample.emptyWorld) =
    Thrown e.
Proof.
  split; [reflexivity|].
  exact (rejected_fetch_escapes_the_handler Sample.stringify (Some "token")
           (Some Sample.inbound) Sample.inputs 1000 1001
           (Responds 200 (Some Sample.payload)) true Sample.emptyWorld
           eq_refl eq_refl (empty_cache_misses 1000 _)).
Defined.

End HandlerFacts.

(** ** The calculator page *)

Module PageFacts.

Import Page.

Section Exchange.

Variable float_to_string : float -> string.
Variable string_to_float : string -> float.

(** C9. [fetchExchangeRate] gives the fallback 145 when the call rejects,
    when the body does not parse and when the body has no JPY rate (the
    property is absent or null at any level); otherwise it gives the JPY
    value converted to a number, a number going through unchanged (and 145
    again if that conversion throws). *)
Theorem fetchExchangeRate_fallback :
  fetchExchangeRate float_to_string string_to_float ExchangeRejects = 145%float /\
  fetchExchangeRate float_to_string string_to_float (ExchangeResponds None) = 145%float /\
  (forall data,
      get (get (Some data) "rates") "JPY" = None
      \/ get (get (Some data) "rates") "JPY" = Some JNull ->
      fetchExchangeRate float_to_string string_to_float (ExchangeResponds (Some data)) =
      145%float) /\
  (forall data rate,
      get (get (Some data) "rates") "JPY" = Some (JNum rate) ->
      fetchExchangeRate float_to_string string_to_float (ExchangeResponds (Some data)) =
      rate) /\
  (forall data v,
      get (get (Some data) "rates") "JPY" = Some v -> v <> JNull ->
      fetchExchangeRate float_to_string string_to_float (ExchangeResponds (Some data)) =
      match @Number_ float (float_number float_to_string string_to_float) (Some v) with
      | Returned rate => rate
      | Thrown _ => 145%float
      end).
Proof.
  split; [reflexivity|]. split; [reflexivity|]. split; [|split].
  - intros data [E | E]; unfold fetchExchangeRate, fetchExchangeRate_try;
      now rewrite E.
  - intros data rate E. unfold fetchExchangeRate, fetchExchangeRate_try.
    now rewrite E.
  - intros data v E N. unfold fetchExchangeRate, fetchExchangeRate_try.
    rewrite E. now destruct v.
Qed.

End Exchange.

(** X2. The price of the example: 4000 / 0.49, which is 8163.27 to the cent. *)
#[warnings="-inexact-float"] Lemma sell_price_of_the_example :
  sellPriceJPY (calculate (quoteOf 21 30)) = Some 8163.2653061224482%float
  /\ error (calculate (quoteOf 21 30)) = None
  /\ (8163.265 <=? 8163.2653061224482)%float = true
  /\ (8163.2653061224482 <? 8163.275)%float = true.
Proof. repeat split. Qed.

(** Whenever the computed divisor is not positive the error is reported
    and every price is null. *)
Lemma guard_reports_the_error (values : Values) :
  (1 - feePercent values / 100 - targetProfitRate values / 100 <=? 0)%float = true ->
  calculate values =
    {| profit := None; sellPriceJPY := None; discountedPriceUSD := None;
       originalPriceUSD := None; error := Some RATES_EXCEED |}.
Proof. intros G. unfold calculate. now rewrite G. Qed.

(** C8. The guard misses a total of exactly 100: with a fee of 70 and a
    profit rate of 30 the divisor [1 - 0.7 - 0.3] is computed as
    5.55e-17, which is positive, so no error is reported and a price of
    about 7.2e19 comes out. *)
#[warnings="-inexact-float"] Theorem rates_of_70_and_30_pass_the_guard :
  (100 <=? 70 + 30)%float = true /\
  (1 - 70 / 100 - 30 / 100)%float = 5.5511151231257827e-17%float /\
  error (calculate (quoteOf 70 30)) = None /\
  sellPriceJPY (calculate (quoteOf 70 30)) = Some 7.2057594037927936e+19%float.
Proof. repeat split. Qed.

End PageFacts.

(** ** More on the lookup: what the result holds and what the cache keeps *)

Module LookupFacts.

Import Str Spec StrFacts Route CacheFacts.

Lemma filterM_sound {A} (f : A -> outcome bool) (l kept : list A) :
  filterM_outcome f l = Returned kept ->
  forall x, In x kept -> In x l /\ f x = Returned true.
Proof.
  revert kept. induction l as [|y l IH]; intros kept F x I; simpl in F.
  - injection F as <-. contradiction.
  - destruct (f y) as [b|e] eqn:Fy; [|discriminate]. simpl in F.
    destruct (filterM_outcome f l) as [ys|e]; [|discriminate]. simpl in F.
    injection F as <-. destruct b.
    + destruct I as [<- | I]; [now split; [left|]|].
      destruct (IH ys eq_refl x I) as [I' T]. split; [now right | assumption].
    + destruct (IH ys eq_refl x I) as [I' T]. split; [now right | assumption].
Qed.

Lemma filterM_length {A} (f : A -> outcome bool) (l kept : list A) :
  filterM_outcome f l = Returned kept -> (length kept <= length l)%nat.
Proof.
  revert kept. induction l as [|y l IH]; intros kept F; simpl in F.
  - injection F as <-. reflexivity.
  - destruct (f y) as [b|e]; [|discriminate]. simpl in F.
    destruct (filterM_outcome f l) as [ys|e]; [|discriminate]. simpl in F.
    injection F as <-. specialize (IH ys eq_refl). destruct b; simpl; lia.
Qed.

Lemma mapM_sound {A B} (f : A -> outcome B) (l : list A) (ys : list B) :
  mapM_outcome f l = Returned ys ->
  forall y, In y ys -> exists x, In x l /\ f x = Returned y.
Proof.
  revert ys. induction l as [|x l IH]; intros ys M y I; simpl in M.
  - injection M as <-. contradiction.
  - destruct (f x) as [z|e] eqn:Fx; [|discriminate]. simpl in M.
    destruct (mapM_outcome f l) as [rest|e]; [|discriminate]. simpl in M.
    injection M as <-. destruct I as [<- | I].
    + exists x. split; [now left | assumption].
    + destruct (IH rest eq_refl y I) as (x' & I' & F'). exists x'.
      split; [now right | assumption].
Qed.

Lemma bind_returned {A B} (m : outcome A) (k : A -> outcome B) (b : B) :
  m ≫= k = Returned b -> exists a, m = Returned a /\ k a = Returned b.
Proof. destruct m as [a|e]; [|discriminate]. intros K. now exists a. Qed.

Section Lookup.

Context {num : Type} `{JsNumber num}.

Variable JSON_stringify : json num -> string.

(** What the predicate of the filter has established when it answers
    [true]. *)
Lemma accepts_true (q : json num) :
  accepts q = Returned true ->
  exists c,
    String_ (Some (nullish (get (Some q) "carrier") (JStr ""))) = Returned c /\
    (carrier_is "dhl" c \/ carrier_is "fedex" c
     \/ (japan_post c /\
         exists s, String_ (get (Some q) "service") = Returned s /\
                   In s JAPAN_POST_SERVICES)).
Proof.
  unfold accepts, japan_post, carrier_is. intros A.
  apply bind_returned in A as (c & Sc & A). cbv zeta in A.
  exists c. split; [assumption|].
  destruct (includes (toLowerCase c) "dhl"); [now left|].
  destruct (includes (toLowerCase c) "fedex"); [now right; left|].
  destruct (includes (toLowerCase c) "japan post" || includes (toLowerCase c) "japanpost")
    eqn:J; [|discriminate].
  right. right. split; [now apply orb_true_iff|].
  apply bind_returned in A as (s & Ss & A). injection A as A.
  exists s. split; [assumption|].
  exact (proj1 (FilterFacts.in_list_In s JAPAN_POST_SERVICES) A).
Qed.

Lemma normalize_names (q : json num) (r : RateSummary) :
  normalize q = Returned r ->
  String_ (Some (nullish (get (Some q) "carrier") (JStr ""))) = Returned (carrier r) /\
  String_ (Some (nullish (get (Some q) "service") (JStr ""))) = Returned (service r).
Proof.
  unfold normalize. intros N.
  apply bind_returned in N as (c & Sc & N).
  apply bind_returned in N as (s & Ss & N).
  apply bind_returned in N as (p & Sp & N).
  apply bind_returned in N as (cur & Scur & N).
  injection N as <-. now split.
Qed.

(** A service that the filter found in the list is the service that
    normalisation records: the two conversions differ only on an absent or
    null service, which converts to no listed code. *)
Lemma listed_service_is_recorded (v : option (json num)) (s s' : string) :
  String_ v = Returned s -> In s JAPAN_POST_SERVICES ->
  String_ (Some (nullish v (JStr ""))) = Returned s' -> s' = s.
Proof.
  intros S I S'. destruct v as [x|].
  - destruct x; simpl in S, S'; try congruence.
    injection S as <-. simpl in I. intuition discriminate.
  - injection S as <-. simpl in I. intuition discriminate.
Qed.

(** X6. Whatever the payload, every rate of a result is the normalisation
    of one of the raw quotes and passes the allow-list on its recorded
    carrier and service: the carrier contains "dhl" or "fedex", or it
    contains "japan post" or "japanpost" and the service is one of the
    three listed codes.  A result never has more rates than the payload
    has quotes. *)
Theorem result_rates_are_allow_listed (data : json num) (r : @RatesResult num) :
  buildResult JSON_stringify data = Returned r ->
  (forall x, In x (rates r) ->
     (exists q, In q (rawRates data) /\ normalize q = Returned x) /\
     allow_listed (carrier x) (service x))
  /\ (length (rates r) <= length (rawRates data))%nat.
Proof.
  unfold buildResult. intros B.
  destruct (filterM_outcome accepts (rawRates data)) as [kept|] eqn:F; [|discriminate].
  simpl in B. destruct (mapM_outcome normalize kept) as [rs|] eqn:N; [|discriminate].
  simpl in B. destruct (apiErrors JSON_stringify (rawRates data)); [|discriminate].
  simpl in B. injection B as <-. simpl. split.
  - intros x I. destruct (mapM_sound _ _ _ N x I) as (q & Iq & Nq).
    destruct (filterM_sound _ _ _ F q Iq) as [Ir A].
    split; [now exists q|].
    destruct (normalize_names q x Nq) as [Nc Ns].
    destruct (accepts_true q A) as (c & Sc & K). rewrite Nc in Sc. injection Sc as <-.
    destruct K as [D | [D | [J (s & Ss & Is)]]].
    + now left.
    + now right; left.
    + right. right. split; [assumption|].
      now rewrite (listed_service_is_recorded _ _ _ Ss Is Ns).
  - rewrite (HandlerFacts.mapM_length _ _ _ N). exact (filterM_length _ _ _ F).
Qed.

Lemma same_parcel_same_key (p p' : Params) : same_parcel p p' -> keyOf p' = keyOf p.
Proof.
  intros (C & W & X & Hh & D & V). unfold keyOf, buildCacheKey.
  now rewrite C, W, X, Hh, D, (postal_variant_normalised _ _ V).
Qed.

(** The cache after a lookup is the pruned cache, with the result stored
    under the key of the lookup when one was built. *)
Lemma lookup_cache_cases apiKey (p : Params) now api (w : World) :
  rateCache (snd (getRatesForDestination JSON_stringify apiKey p now api w)) =
    pruneCache now (rateCache w)
  \/ exists v,
       rateCache (snd (getRatesForDestination JSON_stringify apiKey p now api w)) =
       <[keyOf p := {| expiresAt := now + 60000; value := v |}]>
         (pruneCache now (rateCache w)).
Proof.
  unfold getRatesForDestination, start. cbv zeta.
  destruct (pruneCache now (rateCache w) !! keyOf p) as [cached|].
  - destruct (now <? expiresAt cached); [now left|].
    destruct (fetchRates apiKey (requestBody p) api (trace w)) as [r tr].
    destruct r as [[status message | data] | e]; simpl; try (now left).
    destruct (buildResult JSON_stringify data) as [result|e]; simpl; [|now left].
    right. now exists result.
  - destruct (fetchRates apiKey (requestBody p) api (trace w)) as [r tr].
    destruct r as [[status message | data] | e]; simpl; try (now left).
    destruct (buildResult JSON_stringify data) as [result|e]; simpl; [|now left].
    right. now exists result.
Qed.

(** X7. After a lookup that read the clock at [now], every entry of the
    cache is live at [now]; under every other key the cache holds what
    pruning left, so a live entry of another key is still there,
    unchanged. *)
Theorem lookup_keeps_the_cache_live apiKey (p : Params) now api (w : World) :
  (forall k e,
      rateCache (snd (getRatesForDestination JSON_stringify apiKey p now api w)) !! k
        = Some e ->
      now < expiresAt e)
  /\
  (forall k e,
      k <> keyOf p -> rateCache w !! k = Some e -> now < expiresAt e ->
      rateCache (snd (getRatesForDestination JSON_stringify apiKey p now api w)) !! k
        = Some e)
  /\
  (forall k,
      k <> keyOf p -> rateCache w !! k = None ->
      rateCache (snd (getRatesForDestination JSON_stringify apiKey p now api w)) !! k
        = None).
Proof.
  destruct (lookup_cache_cases apiKey p now api w) as [E | (v & E)]; rewrite E.
  - split; [|split].
    + intros k e L. now apply prune_lookup_Some in L.
    + intros k e _ L T. apply prune_lookup_Some. now split.
    + intros k _ L. apply prune_lookup_None. intros e L'. congruence.
  - split; [|split].
    + intros k e L. destruct (decide (keyOf p = k)) as [<- | N].
      * rewrite lookup_insert_eq in L. injection L as <-. simpl. lia.
      * rewrite lookup_insert_ne in L by assumption. now apply prune_lookup_Some in L.
    + intros k e N L T. rewrite lookup_insert_ne by congruence.
      apply prune_lookup_Some. now split.
    + intros k N L. rewrite lookup_insert_ne by congruence.
      apply prune_lookup_None. intros e L'. congruence.
Qed.

(** X8. A result stored by a lookup at [t0] serves the lookups of the same
    parcel whose postal code differs only by letter case or surrounding
    white space: until [t0 + 60000] such a lookup returns the stored result
    and records no call, whatever the API would answer. *)
Theorem variant_postal_code_is_served_from_cache apiKey apiKey' (p p' : Params)
    (t0 t1 : Z) status payload api (v : RatesResult) (w : World) :
  misses t0 (rateCache w) (keyOf p) ->
  tokenSet apiKey = true ->
  response_ok status = true ->
  fst (getRatesForDestination JSON_stringify apiKey p t0 (Responds status payload) w)
    = Returned v ->
  same_parcel p p' ->
  t1 < t0 + 60000 ->
  getRatesForDestination JSON_stringify apiKey' p' t1 api
    (snd (getRatesForDestination JSON_stringify apiKey p t0 (Responds status payload) w))
  = (Returned v,
     {| rateCache :=
          pruneCache t1
            (rateCache
               (snd (getRatesForDestination JSON_stringify apiKey p t0
                       (Responds status payload) w)));
        trace :=
          trace (snd (getRatesForDestination JSON_stringify apiKey p t0
                        (Responds status payload) w)) |}).
Proof.
  intros M T R F S L.
  rewrite (getRatesForDestination_miss JSON_stringify _ _ _ _ _ M) in *.
  rewrite (fetchRates_success _ _ _ _ _ T R) in *.
  simpl in F |- *.
  destruct (buildResult JSON_stringify (parsedBody payload)) as [result|e];
    [|discriminate F].
  simpl in F |- *. injection F as ->.
  unfold getRatesForDestination.
  rewrite (start_hit apiKey' p' t1 api _
             {| expiresAt := t0 + CACHE_TTL_MS; value := v |}).
  - reflexivity.
  - simpl. rewrite (same_parcel_same_key _ _ S). apply lookup_insert_eq.
  - simpl. unfold CACHE_TTL_MS. exact L.
Qed.

Lemma requests_app (a b : list (@event num)) :
  requests (a ++ b) = (requests a + requests b)%nat.
Proof. unfold requests. now rewrite List.filter_app, length_app. Qed.

Lemma fetchRates_requests apiKey (body : json num) api tr :
  requests (snd (fetchRates apiKey body api tr)) =
  (requests tr + if tokenSet apiKey then 1 else 0)%nat.
Proof.
  unfold fetchRates.
  destruct apiKey as [[|c token]|];
    [ | destruct api as [|status payload]; [ | destruct (response_ok status)] | ];
    simpl; rewrite ?requests_app; unfold requests; simpl; lia.
Qed.

Lemma start_requests apiKey (p : Params) now api (w : World) :
  (requests (trace w) <= requests (trace (snd (start apiKey p now api w)))
   <= requests (trace w) + 1)%nat.
Proof.
  unfold start. cbv zeta.
  destruct (match pruneCache now (rateCache w) !! keyOf p with
            | Some cached => if now <? expiresAt cached then Some (value cached) else None
            | None => None
            end) as [v|].
  - simpl. lia.
  - pose proof (fetchRates_requests apiKey (requestBody p) api (trace w)) as Q.
    destruct (fetchRates apiKey (requestBody p) api (trace w)) as [r tr].
    simpl in *. destruct (tokenSet apiKey); lia.
Qed.

(** X9. No outbound request is repeated.  A call of [fetchRates] sends
    exactly one when the token is set and none when it is missing.  A
    lookup sends at most one: none when a live entry answers, none when
    the token is missing, exactly one on a miss with the token set; the
    part of it that runs once the answer is there sends none.  The handler
    sends at most two, and for a request it answers with 400 it sends none
    and leaves the cache and the trace as they were. *)
Theorem no_request_is_repeated apiKey (p : Params) now api (w : World) :
  (forall body tr,
     requests (snd (fetchRates apiKey body api tr)) =
     (requests tr + if tokenSet apiKey then 1 else 0)%nat)
  /\
  (forall pd,
     requests (trace (snd (finish JSON_stringify p now pd w))) = requests (trace w))
  /\
  (requests (trace (snd (getRatesForDestination JSON_stringify apiKey p now api w)))
   <= requests (trace w) + 1)%nat
  /\
  (forall e, rateCache w !! keyOf p = Some e -> now < expiresAt e ->
     requests (trace (snd (getRatesForDestination JSON_stringify apiKey p now api w)))
     = requests (trace w))
  /\
  (tokenSet apiKey = false ->
     requests (trace (snd (getRatesForDestination JSON_stringify apiKey p now api w)))
     = requests (trace w))
  /\
  (misses now (rateCache w) (keyOf p) -> tokenSet apiKey = true ->
     requests (trace (snd (getRatesForDestination JSON_stringify apiKey p now api w)))
     = S (requests (trace w)))
  /\
  (forall request nowUS nowGB apiUS apiGB usFirst,
     (requests (trace (snd (POST JSON_stringify apiKey request nowUS nowGB apiUS apiGB
                              usFirst w)))
      <= requests (trace w) + 2)%nat
     /\
     (forall body status,
        fst (POST JSON_stringify apiKey request nowUS nowGB apiUS apiGB usFirst w)
          = Returned (NextResponse_json body status) ->
        status = 400 ->
        snd (POST JSON_stringify apiKey request nowUS nowGB apiUS apiGB usFirst w) = w)).
Proof.
  assert (G : forall k (q : Params) t a (u : World),
             requests (trace (snd (getRatesForDestination JSON_stringify k q t a u))) =
             requests (trace (snd (start k q t a u)))).
  { intros k q t a u. unfold getRatesForDestination.
    destruct (start k q t a u) as [pd u1]. now rewrite finish_trace. }
  split; [|split; [|split; [|split; [|split; [|split]]]]].
  - intros body tr. apply fetchRates_requests.
  - intros pd. now rewrite finish_trace.
  - rewrite G. apply start_requests.
  - intros e L T. rewrite G. now rewrite (start_hit _ _ _ _ _ _ L T).
  - intros T. rewrite G. unfold start. cbv zeta.
    destruct (match pruneCache now (rateCache w) !! keyOf p with
              | Some cached => if now <? expiresAt cached then Some (value cached) else None
              | None => None
              end) as [v|]; [reflexivity|].
    pose proof (fetchRates_requests apiKey (requestBody p) api (trace w)) as Q.
    destruct (fetchRates apiKey (requestBody p) api (trace w)) as [r tr].
    simpl in *. rewrite T in Q. lia.
  - intros M T. rewrite G, (start_miss _ _ _ _ _ M). simpl.
    rewrite fetchRates_requests, T. lia.
  - intros request nowUS nowGB apiUS apiGB usFirst. split.
    2: { intros body status F S. unfold POST in *.
         destruct (validate request) as [[early|i]|e]; [reflexivity | | reflexivity].
         exfalso. unfold fanOut in F. cbv zeta in F.
         destruct (start apiKey (paramsFor US i) nowUS apiUS w) as [pdUS w1].
         destruct (start apiKey (paramsFor GB i) nowGB apiGB w1) as [pdGB w2].
         destruct usFirst.
         - destruct (finish JSON_stringify (paramsFor US i) nowUS pdUS w2) as [usr w3].
           destruct (finish JSON_stringify (paramsFor GB i) nowGB pdGB w3) as [ukr w4].
           simpl in F. apply bind_returned in F as (us & _ & F).
           apply bind_returned in F as (uk & _ & F). injection F as _ F. lia.
         - destruct (finish JSON_stringify (paramsFor GB i) nowGB pdGB w2) as [ukr w3].
           destruct (finish JSON_stringify (paramsFor US i) nowUS pdUS w3) as [usr w4].
           simpl in F. apply bind_returned in F as (uk & _ & F).
           apply bind_returned in F as (us & _ & F). injection F as _ F. lia. }
    unfold POST.
    destruct (validate request) as [[early|i]|e]; simpl; try lia.
    unfold fanOut. cbv zeta.
    pose proof (start_requests apiKey (paramsFor US i) nowUS apiUS w) as QU.
    destruct (start apiKey (paramsFor US i) nowUS apiUS w) as [pdUS w1].
    pose proof (start_requests apiKey (paramsFor GB i) nowGB apiGB w1) as QG.
    destruct (start apiKey (paramsFor GB i) nowGB apiGB w1) as [pdGB w2].
    simpl in QU, QG.
    destruct usFirst.
    + pose proof (finish_trace JSON_stringify (paramsFor US i) nowUS pdUS w2) as FU.
      destruct (finish JSON_stringify (paramsFor US i) nowUS pdUS w2) as [us w3].
      pose proof (finish_trace JSON_stringify (paramsFor GB i) nowGB pdGB w3) as FG.
      destruct (finish JSON_stringify (paramsFor GB i) nowGB pdGB w3) as [uk w4].
      simpl in *. rewrite FG, FU. lia.
    + pose proof (finish_trace JSON_stringify (paramsFor GB i) nowGB pdGB w2) as FG.
      destruct (finish JSON_stringify (paramsFor GB i) nowGB pdGB w2) as [uk w3].
      pose proof (finish_trace JSON_stringify (paramsFor US i) nowUS pdUS w3) as FU.
      destruct (finish JSON_stringify (paramsFor US i) nowUS pdUS w3) as [us w4].
      simpl in *. rewrite FU, FG. lia.
Qed.

End Lookup.

Lemma result_rates_are_allow_listed_witness :
  (forall x, In x (rates Sample.payloadResult) ->
     (exists q, In q (rawRates Sample.payload) /\ normalize q = Returned x) /\
     allow_listed (carrier x) (service x))
  /\ (length (rates Sample.payloadResult) <= length (rawRates Sample.payload))%nat.
Proof.
  exact (result_rates_are_allow_listed Sample.stringify Sample.payload
           Sample.payloadResult eq_refl).
Defined.

Lemma variant_postal_code_is_served_from_cache_witness :
  let first :=
    getRatesForDestination Sample.stringify (Some "token")
      (Sample.ukParcel " sw1a 1aa  ") 1000 (Responds 200 (Some Sample.payload))
      Sample.emptyWorld in
  getRatesForDestination Sample.stringify None (Sample.ukParcel "SW1A 1AA") 30000
    Rejects (snd first)
  = (Returned Sample.payloadResult,
     {| rateCache := pruneCache 30000 (rateCache (snd first));
        trace := trace (snd first) |}).
Proof.
  exact (variant_postal_code_is_served_from_cache Sample.stringify (Some "token") None
           (Sample.ukParcel " sw1a 1aa  ") (Sample.ukParcel "SW1A 1AA") 1000 30000
           200 (Some Sample.payload) Rejects Sample.payloadResult Sample.emptyWorld
           (empty_cache_misses 1000 _) eq_refl eq_refl eq_refl
           (conj eq_refl (conj eq_refl (conj eq_refl (conj eq_refl (conj eq_refl
              KeyFacts.sample_postal_variant)))))
           eq_refl).
Defined.

End LookupFacts.

(** ** More on the handler: what validation lets through *)

Module ValidationFacts.

Import Str Spec StrFacts Route LookupFacts.

Section Validation.

Context {num : Type} `{JsNumber num}.

Variable JSON_stringify : json num -> string.

Lemma postalOrDefault_clean (v : option (json num)) (dflt z : string) :
  dflt <> "" -> trim dflt = dflt ->
  postalOrDefault v dflt = Returned z -> z <> "" /\ trim z = z.
Proof.
  intros N T P. unfold postalOrDefault in P.
  apply bind_returned in P as (s & _ & P). cbv zeta in P. injection P as <-.
  destruct (trim s) as [|c r] eqn:E; simpl.
  - now split.
  - split; [discriminate|]. rewrite <- E. apply trim_idem.
Qed.

Lemma postalOrDefault_default (v : option (json num)) (dflt : string) :
  v = None \/ v = Some JNull -> trim dflt = dflt ->
  postalOrDefault v dflt = Returned dflt.
Proof.
  intros [-> | ->] T; unfold postalOrDefault; simpl; rewrite T;
    now destruct dflt.
Qed.

(** A postal code made of white space outside the ASCII range, here the
    ideographic space (U+3000) and the no-break space (U+00A0), is
    replaced by the default as an empty one is. *)
Lemma wide_space_takes_the_default :
  postalOrDefault (Some (JStr (encode 0x3000 ++ encode 0xA0))) "10001"
  = Returned "10001".
Proof. vm_compute. reflexivity. Qed.

(** X10. What validation lets through: the four dimensions are finite
    numbers, and each postal code is not empty and has no surrounding
    white space; a postal code that is absent or null in the body is
    replaced by its default, 10001 or SW1A 1AA. *)
Theorem validated_inputs_are_clean (body : json num) (i : Inputs) :
  validate (Some body) = Returned (inr i) ->
  (num_is_finite (in_weight i) = true /\ num_is_finite (in_width i) = true /\
   num_is_finite (in_height i) = true /\ num_is_finite (in_depth i) = true)
  /\ (in_usZip i <> "" /\ trim (in_usZip i) = in_usZip i)
  /\ (in_ukPostcode i <> "" /\ trim (in_ukPostcode i) = in_ukPostcode i)
  /\ (get (Some body) "usZip" = None \/ get (Some body) "usZip" = Some JNull ->
      in_usZip i = "10001")
  /\ (get (Some body) "ukPostcode" = None \/ get (Some body) "ukPostcode" = Some JNull ->
      in_ukPostcode i = "SW1A 1AA").
Proof.
  unfold validate. intros V.
  destruct (negb (truthy (Some body))); [discriminate|].
  apply bind_returned in V as (w & _ & V).
  apply bind_returned in V as (x & _ & V).
  apply bind_returned in V as (h & _ & V).
  apply bind_returned in V as (d & _ & V).
  destruct (num_is_finite w) eqn:Fw, (num_is_finite x) eqn:Fx,
    (num_is_finite h) eqn:Fh, (num_is_finite d) eqn:Fd; try discriminate V.
  simpl in V.
  apply bind_returned in V as (us & Pus & V).
  apply bind_returned in V as (uk & Puk & V).
  injection V as <-. simpl.
  split; [now repeat split|]. split; [|split; [|split]].
  - eapply postalOrDefault_clean; [| |exact Pus]; [discriminate | reflexivity].
  - eapply postalOrDefault_clean; [| |exact Puk]; [discriminate | reflexivity].
  - intros A. rewrite (postalOrDefault_default _ "10001" A eq_refl) in Pus.
    now injection Pus as <-.
  - intros A. rewrite (postalOrDefault_default _ "SW1A 1AA" A eq_refl) in Puk.
    now injection Puk as <-.
Qed.

Lemma validate_early (request : option (json num)) (r : Response) :
  validate request = Returned (inl r) ->
  r = NextResponse_json (ErrorBody "リクエストが不正です。") 400
  \/ r = NextResponse_json (ErrorBody "重量・サイズの入力が不正です。") 400.
Proof.
  unfold validate. intros V.
  destruct (negb (truthy (Some match request with Some b => b | None => JNull end))).
  - left. now injection V as <-.
  - apply bind_returned in V as (w & _ & V).
    apply bind_returned in V as (x & _ & V).
    apply bind_returned in V as (h & _ & V).
    apply bind_returned in V as (d & _ & V).
    destruct (negb (num_is_finite w) || negb (num_is_finite x)
              || negb (num_is_finite h) || negb (num_is_finite d)).
    + right. now injection V as <-.
    + apply bind_returned in V as (us & _ & V).
      apply bind_returned in V as (uk & _ & V). discriminate V.
Qed.

(** X11. When the handler answers, it answers either 400 with one of its
    two validation messages, having left the cache and the trace as they
    were, or 200 with a result for US and a result for UK; it builds no
    other response. *)
Theorem handler_answers_200_or_400 apiKey request nowUS nowGB apiUS apiGB usFirst
    (w : World) (resp : Response) :
  fst (POST JSON_stringify apiKey request nowUS nowGB apiUS apiGB usFirst w)
    = Returned resp ->
  (snd (POST JSON_stringify apiKey request nowUS nowGB apiUS apiGB usFirst w) = w /\
   (resp = NextResponse_json (ErrorBody "リクエストが不正です。") 400
    \/ resp = NextResponse_json (ErrorBody "重量・サイズの入力が不正です。") 400))
  \/ exists us uk, resp = NextResponse_json (RatesBody us uk) 200.
Proof.
  unfold POST. destruct (validate request) as [[early|i]|e] eqn:V; simpl.
  - intros [= <-]. left. split; [reflexivity | exact (validate_early request early V)].
  - intros F. right. unfold fanOut in F. cbv zeta in F.
    destruct (start apiKey (paramsFor US i) nowUS apiUS w) as [pdUS w1].
    destruct (start apiKey (paramsFor GB i) nowGB apiGB w1) as [pdGB w2].
    destruct usFirst.
    + destruct (finish JSON_stringify (paramsFor US i) nowUS pdUS w2) as [usr w3].
      destruct (finish JSON_stringify (paramsFor GB i) nowGB pdGB w3) as [ukr w4].
      simpl in F. apply bind_returned in F as (us & _ & F).
      apply bind_returned in F as (uk & _ & F). injection F as <-. now exists us, uk.
    + destruct (finish JSON_stringify (paramsFor GB i) nowGB pdGB w2) as [ukr w3].
      destruct (finish JSON_stringify (paramsFor US i) nowUS pdUS w3) as [usr w4].
      simpl in F. apply bind_returned in F as (uk & _ & F).
      apply bind_returned in F as (us & _ & F). injection F as <-. now exists us, uk.
  - discriminate.
Qed.

End Validation.

Lemma validated_inputs_are_clean_witness :
  (num_is_finite (in_weight Sample.inputs) = true /\
   num_is_finite (in_width Sample.inputs) = true /\
   num_is_finite (in_height Sample.inputs) = true /\
   num_is_finite (in_depth Sample.inputs) = true)
  /\ (in_usZip Sample.inputs <> "" /\ trim (in_usZip Sample.inputs) = in_usZip Sample.inputs)
  /\ (in_ukPostcode Sample.inputs <> "" /\
      trim (in_ukPostcode Sample.inputs) = in_ukPostcode Sample.inputs)
  /\ (get (Some Sample.inbound) "usZip" = None \/
      get (Some Sample.inbound) "usZip" = Some JNull ->
      in_usZip Sample.inputs = "10001")
  /\ (get (Some Sample.inbound) "ukPostcode" = None \/
      get (Some Sample.inbound) "ukPostcode" = Some JNull ->
      in_ukPostcode Sample.inputs = "SW1A 1AA").
Proof. exact (validated_inputs_are_clean Sample.inbound Sample.inputs eq_refl). Defined.

Lemma handler_answers_200_or_400_witness :
  let out :=
    POST Sample.stringify (Some "token") (Some Sample.inbound) 1000 1000
      (Responds 200 (Some Sample.payload)) (Responds 503 (Some Sample.unavailable))
      true Sample.emptyWorld in
  let resp :=
    NextResponse_json
      (RatesBody Sample.payloadResult
         {| rates := [];
            errors := [failureMessage GB 503 "Service Unavailable"] |}) 200 in
  fst out = Returned resp /\
  ((snd out = Sample.emptyWorld /\
    (resp = NextResponse_json (ErrorBody "リクエストが不正です。") 400
     \/ resp = NextResponse_json (ErrorBody "重量・サイズの入力が不正です。") 400))
   \/ exists us uk, resp = NextResponse_json (RatesBody us uk) 200).
Proof.
  split; [reflexivity|].
  exact (handler_answers_200_or_400 Sample.stringify (Some "token") (Some Sample.inbound)
           1000 1000 (Responds 200 (Some Sample.payload))
           (Responds 503 (Some Sample.unavailable)) true Sample.emptyWorld _ eq_refl).
Defined.

End ValidationFacts.

(** ** The rates list of the page *)

Module RatesListFacts.

Import Str Spec StrFacts Page.

Lemma prefix_app (p q s : string) :
  String.prefix (p ++ q) s = true -> String.prefix p s = true.
Proof.
  revert s. induction p as [|c p IH]; intros s; [now destruct s|].
  push_append. destruct s as [|d s]; simpl; [discriminate|].
  destruct (Ascii.ascii_dec c d); [apply IH | discriminate].
Qed.

Lemma includes_eq (s pat : string) :
  includes s pat =
  String.prefix pat s
  || match s with EmptyString => false | String _ rest => includes rest pat end.
Proof. now destruct s. Qed.

Lemma includes_app (s p q : string) : includes s (p ++ q) = true -> includes s p = true.
Proof.
  induction s as [|c s IH]; intros I.
  - rewrite (includes_eq "" (p ++ q)) in I. rewrite (includes_eq "" p).
    apply orb_true_iff in I as [I|I]; [|discriminate I].
    apply orb_true_iff. left. exact (prefix_app p q _ I).
  - rewrite (includes_eq (String c s) (p ++ q)) in I. rewrite (includes_eq (String c s) p).
    apply orb_true_iff in I as [I|I]; apply orb_true_iff.
    + left. exact (prefix_app p q _ I).
    + right. exact (IH I).
Qed.

Lemma japan_post_names_japan (c : string) :
  japan_post c -> includes (toLowerCase c) "japan" = true.
Proof.
  intros [J|J]; unfold carrier_is in J.
  - exact (includes_app _ "japan" " post" J).
  - exact (includes_app _ "japan" "post" J).
Qed.

(** The three filters name their carrier. *)
Lemma isDhlRate_true (r : RateItem) :
  isDhlRate r = true <->
  toLowerCase (carrier r) = "dhl" /\ In (service r) DHL_SERVICES.
Proof.
  unfold isDhlRate. rewrite andb_true_iff, String.eqb_eq, FilterFacts.in_list_In.
  reflexivity.
Qed.

Lemma isFedexRate_true (r : RateItem) :
  isFedexRate r = true <->
  toLowerCase (carrier r) = "fedex" /\ In (service r) FEDEX_SERVICES.
Proof.
  unfold isFedexRate. rewrite andb_true_iff, String.eqb_eq, FilterFacts.in_list_In.
  reflexivity.
Qed.

Lemma isJapanPostRate_true (r : RateItem) :
  isJapanPostRate r = true <->
  includes (toLowerCase (carrier r)) "japan" = true /\ In (service r) JAPANPOST_SERVICES.
Proof.
  unfold isJapanPostRate. rewrite andb_true_iff, FilterFacts.in_list_In. reflexivity.
Qed.

Lemma dhl_excludes (r : RateItem) :
  isDhlRate r = true -> isFedexRate r = false /\ isJapanPostRate r = false.
Proof.
  intros D. apply isDhlRate_true in D as [E _].
  unfold isFedexRate, isJapanPostRate. rewrite E. now split.
Qed.

Lemma fedex_excludes (r : RateItem) :
  isFedexRate r = true -> isDhlRate r = false /\ isJapanPostRate r = false.
Proof.
  intros D. apply isFedexRate_true in D as [E _].
  unfold isDhlRate, isJapanPostRate. rewrite E. now split.
Qed.

Lemma japan_excludes (r : RateItem) :
  isJapanPostRate r = true -> isDhlRate r = false /\ isFedexRate r = false.
Proof.
  intros J. split.
  - destruct (isDhlRate r) eqn:D; [|reflexivity].
    destruct (dhl_excludes r D) as [_ N]. congruence.
  - destruct (isFedexRate r) eqn:D; [|reflexivity].
    destruct (fedex_excludes r D) as [_ N]. congruence.
Qed.

(** A key of a table has its label. *)
Lemma labelOr_listed (table : list (string * ServiceInfo)) (s : string) :
  In s (keysOf table) ->
  exists info, In (s, info) table /\ labelOr table s = label info.
Proof.
  unfold labelOr. induction table as [|[k info] rest IH]; simpl; [intros []|].
  intros I. destruct (String.eqb s k) eqn:E.
  - apply String.eqb_eq in E as ->. exists info. split; [now left | reflexivity].
  - destruct I as [->|I]; [rewrite String.eqb_refl in E; discriminate E|].
    destruct (IH I) as (info' & I' & L). exists info'. split; [now right | exact L].
Qed.

(** The sort keeps the elements. *)
Lemma insertByPrice_In (x y : RateItem) (l : list RateItem) :
  In y (insertByPrice x l) <-> y = x \/ In y l.
Proof.
  induction l as [|z l IH]; simpl.
  - intuition congruence.
  - destruct (sortsAfter x z); simpl; rewrite ?IH; intuition congruence.
Qed.

Lemma sortByPrice_In (y : RateItem) (l : list RateItem) :
  In y (sortByPrice l) <-> In y l.
Proof.
  induction l as [|x l IH]; simpl; [reflexivity|].
  rewrite insertByPrice_In, IH. intuition congruence.
Qed.

Lemma cheapest_In (l : list RateItem) (c : RateItem) : cheapest l = Some c -> In c l.
Proof.
  unfold cheapest. destruct (sortByPrice l) as [|h t] eqn:E; [discriminate|].
  intros [= <-]. apply sortByPrice_In. rewrite E. now left.
Qed.

Lemma spread_cheapest_In (l : list RateItem) (r : RateItem) :
  In r (spread (cheapest l)) -> In r l.
Proof.
  destruct (cheapest l) as [c|] eqn:C; simpl; [|intros []].
  intros [<-|[]]. exact (cheapest_In l c C).
Qed.

Lemma spread_filter_other (f g : RateItem -> bool) (l : list RateItem) :
  (forall r, f r = true -> g r = false) ->
  List.filter g (spread (cheapest (List.filter f l))) = [].
Proof.
  intros X. destruct (cheapest (List.filter f l)) as [c|] eqn:C; [|reflexivity].
  apply cheapest_In, filter_In in C as [_ F]. simpl. now rewrite (X c F).
Qed.

Lemma filter_filter_other (f g : RateItem -> bool) (l : list RateItem) :
  (forall r, f r = true -> g r = false) -> List.filter g (List.filter f l) = [].
Proof.
  intros X. induction l as [|x l IH]; simpl; [reflexivity|].
  destruct (f x) eqn:F; [|exact IH]. simpl. now rewrite (X x F).
Qed.

Lemma filter_idem (f : RateItem -> bool) (l : list RateItem) :
  List.filter f (List.filter f l) = List.filter f l.
Proof.
  induction l as [|x l IH]; simpl; [reflexivity|].
  destruct (f x) eqn:F; simpl; [rewrite F, IH; reflexivity | exact IH].
Qed.

Lemma spread_length (x : option RateItem) (f : RateItem -> bool) :
  (length (List.filter f (spread x)) <= 1)%nat.
Proof. destruct x as [r|]; simpl; [destruct (f r); simpl; lia | lia]. Qed.

Lemma consistently_priced_incl (l l' : list RateItem) :
  (forall r, In r l' -> In r l) -> consistently_priced l -> consistently_priced l'.
Proof.
  intros I [A T]. split.
  - intros a b Ia Ib. apply A; auto.
  - intros a b c Ia Ib Ic. apply T; auto.
Qed.

(** Under a consistent comparator the first element of the sorted list
    sorts after no element of the list. *)
Lemma cheapest_sorts_first (l : list RateItem) (c : RateItem) :
  consistently_priced l -> cheapest l = Some c ->
  forall x, In x l -> sortsAfter c x = false.
Proof.
  unfold cheapest. revert c. induction l as [|y l IH]; intros c P C x I; [destruct I|].
  assert (Irr : forall a, In a (y :: l) -> sortsAfter a a = false).
  { intros a Ia. destruct (sortsAfter a a) eqn:E; [|reflexivity].
    rewrite <- E at 1. exact (proj1 P a a Ia Ia E). }
  assert (P' : consistently_priced l)
    by (apply (consistently_priced_incl (y :: l)); [intros; now right | exact P]).
  simpl in C. destruct (sortByPrice l) as [|h t] eqn:S.
  - simpl in C. injection C as <-.
    assert (l = []) as ->.
    { destruct l as [|z l]; [reflexivity|].
      assert (Z : In z (sortByPrice (z :: l))) by (apply sortByPrice_In; now left).
      rewrite S in Z. destruct Z. }
    destruct I as [<-|[]]. apply Irr. now left.
  - assert (Ih : In h l) by (apply sortByPrice_In; rewrite S; now left).
    specialize (IH h P' eq_refl). simpl in C.
    destruct (sortsAfter y h) eqn:Y; injection C as <-.
    + destruct I as [<-|I]; [|exact (IH x I)].
      apply (proj1 P); [now left | now right | exact Y].
    + destruct I as [<-|I]; [apply Irr; now left|].
      apply (proj2 P y h x); [now left | now right | now right | exact Y | exact (IH x I)].
Qed.

(** X12. Every rate the list shows is one of the rates received, and it
    is a DHL rate, a FedEx rate or a Japan Post rate of a known service:
    its carrier is "dhl" or "fedex" letter case aside, or contains
    "japan", the carrier is shown as DHL, FedEx or Japan Post, and the
    service is shown under the label of its entry in the table of that
    carrier, never under its code.  The list shows at most one DHL rate
    and at most one FedEx rate, and the Japan Post rates it shows are all
    those received, in the order received. *)
Theorem displayed_rates_are_known (received : list RateItem) :
  (forall r, In r (displayRates received) ->
     In r received /\
     ((toLowerCase (carrier r) = "dhl" /\ rowCarrier (rowOf r) = "DHL" /\
       exists info, In (service r, info) DHL_SERVICE_ENUM /\
                    rowService (rowOf r) = label info)
      \/ (toLowerCase (carrier r) = "fedex" /\ rowCarrier (rowOf r) = "FedEx" /\
          exists info, In (service r, info) FEDEX_SERVICE_ENUM /\
                       rowService (rowOf r) = label info)
      \/ (includes (toLowerCase (carrier r)) "japan" = true /\
          rowCarrier (rowOf r) = "Japan Post" /\
          exists info, In (service r, info) JAPANPOST_SERVICE_ENUM /\
                       rowService (rowOf r) = label info)))
  /\ (length (List.filter isDhlRate (displayRates received)) <= 1)%nat
  /\ (length (List.filter isFedexRate (displayRates received)) <= 1)%nat
  /\ List.filter isJapanPostRate (displayRates received)
     = List.filter isJapanPostRate received.
Proof.
  unfold displayRates. cbv zeta. split; [|split; [|split]].
  - intros r I.
    assert (K : In r received /\
                (isDhlRate r = true \/ isFedexRate r = true \/ isJapanPostRate r = true)).
    { apply in_app_or in I as [I|I]; [|apply in_app_or in I as [I|I]].
      - apply spread_cheapest_In, filter_In in I as [I F]. auto.
      - apply spread_cheapest_In, filter_In in I as [I F]. auto.
      - apply filter_In in I as [I F]. auto. }
    destruct K as [I' K]. split; [exact I'|].
    unfold rowOf, formatCarrier, formatServiceLabel. simpl.
    destruct K as [K|[K|K]].
    + apply isDhlRate_true in K as [E S]. left. rewrite E. simpl.
      split; [reflexivity|]. split; [reflexivity|]. exact (labelOr_listed _ _ S).
    + apply isFedexRate_true in K as [E S]. right. left. rewrite E. simpl.
      split; [reflexivity|]. split; [reflexivity|]. exact (labelOr_listed _ _ S).
    + apply isJapanPostRate_true in K as [E S]. right. right.
      split; [exact E|].
      destruct (String.eqb (toLowerCase (carrier r)) "fedex") eqn:F;
        [apply String.eqb_eq in F; rewrite F in E; discriminate E|].
      destruct (String.eqb (toLowerCase (carrier r)) "dhl") eqn:D;
        [apply String.eqb_eq in D; rewrite D in E; discriminate E|].
      rewrite E. split; [reflexivity|]. exact (labelOr_listed _ _ S).
  - rewrite !List.filter_app, !List.length_app.
    rewrite (spread_filter_other isFedexRate isDhlRate received)
      by (intros r F; exact (proj1 (fedex_excludes r F))).
    rewrite (filter_filter_other isJapanPostRate isDhlRate received)
      by (intros r F; exact (proj1 (japan_excludes r F))).
    simpl. pose proof (spread_length (cheapest (List.filter isDhlRate received)) isDhlRate).
    lia.
  - rewrite !List.filter_app, !List.length_app.
    rewrite (spread_filter_other isDhlRate isFedexRate received)
      by (intros r F; exact (proj1 (dhl_excludes r F))).
    rewrite (filter_filter_other isJapanPostRate isFedexRate received)
      by (intros r F; exact (proj2 (japan_excludes r F))).
    simpl.
    pose proof (spread_length (cheapest (List.filter isFedexRate received)) isFedexRate).
    lia.
  - rewrite !List.filter_app.
    rewrite (spread_filter_other isDhlRate isJapanPostRate received)
      by (intros r F; exact (proj2 (dhl_excludes r F))).
    rewrite (spread_filter_other isFedexRate isJapanPostRate received)
      by (intros r F; exact (proj2 (fedex_excludes r F))).
    simpl. apply filter_idem.
Qed.

(** X13. When the price differences order the rates received
    consistently, the DHL rate shown is a cheapest DHL rate of a known
    service: its price less the price of any such rate received is not
    positive.  The same holds of the FedEx rate shown. *)
Theorem shown_rate_is_the_cheapest (received : list RateItem) (r x : RateItem) :
  consistently_priced received ->
  In r (displayRates received) -> In x received ->
  (isDhlRate r = true /\ isDhlRate x = true) \/
  (isFedexRate r = true /\ isFedexRate x = true) ->
  sortsAfter r x = false.
Proof.
  intros P I Ix K. unfold displayRates in I. cbv zeta in I.
  assert (Sub : forall f, consistently_priced (List.filter f received)).
  { intros f. apply (consistently_priced_incl received); [|exact P].
    intros a Ia. now apply filter_In in Ia. }
  destruct K as [[R X]|[R X]].
  - apply in_app_or in I as [I|I]; [|apply in_app_or in I as [I|I]].
    + destruct (cheapest (List.filter isDhlRate received)) as [c|] eqn:C; [|destruct I].
      destruct I as [<-|[]].
      apply (cheapest_sorts_first _ c (Sub isDhlRate) C). now apply filter_In.
    + apply spread_cheapest_In, filter_In in I as [_ F].
      destruct (fedex_excludes r F). congruence.
    + apply filter_In in I as [_ F]. destruct (japan_excludes r F). congruence.
  - apply in_app_or in I as [I|I]; [|apply in_app_or in I as [I|I]].
    + apply spread_cheapest_In, filter_In in I as [_ F].
      destruct (dhl_excludes r F). congruence.
    + destruct (cheapest (List.filter isFedexRate received)) as [c|] eqn:C; [|destruct I].
      destruct I as [<-|[]].
      apply (cheapest_sorts_first _ c (Sub isFedexRate) C). now apply filter_In.
    + apply filter_In in I as [_ F]. destruct (japan_excludes r F). congruence.
Qed.

(** X14. A rate the allow-list of the route admits as a Japan Post quote
    (the carrier contains "japan post" or "japanpost", the service is one
    of the three codes of the route) is always shown by the list of the
    page, with the carrier "Japan Post" and the label of the service: the
    codes of the route are keys of the table of the page. *)
Theorem japan_post_quotes_are_shown (received : list RateItem) (r : RateItem) :
  In r received ->
  japan_post (carrier r) ->
  In (service r) Route.JAPAN_POST_SERVICES ->
  In r (displayRates received) /\
  rowCarrier (rowOf r) = "Japan Post" /\
  exists info, In (service r, info) JAPANPOST_SERVICE_ENUM /\
               rowService (rowOf r) = label info.
Proof.
  intros I J S. apply japan_post_names_japan in J.
  assert (S' : In (service r) JAPANPOST_SERVICES).
  { simpl in S |- *. intuition. }
  split.
  - unfold displayRates. cbv zeta. apply in_or_app. right. apply in_or_app. right.
    apply filter_In. split; [exact I|]. now apply isJapanPostRate_true.
  - unfold rowOf, formatCarrier, formatServiceLabel. simpl.
    destruct (String.eqb (toLowerCase (carrier r)) "fedex") eqn:F;
      [apply String.eqb_eq in F; rewrite F in J; discriminate J|].
    destruct (String.eqb (toLowerCase (carrier r)) "dhl") eqn:D;
      [apply String.eqb_eq in D; rewrite D in J; discriminate J|].
    rewrite J. split; [reflexivity|]. exact (labelOr_listed _ _ S').
Qed.

Lemma sampleRates_consistent : consistently_priced sampleRates.
Proof.
  split.
  - intros a b [<-|[<-|[<-|[]]]] [<-|[<-|[<-|[]]]]; vm_compute; congruence.
  - intros a b c [<-|[<-|[<-|[]]]] [<-|[<-|[<-|[]]]] [<-|[<-|[<-|[]]]];
      vm_compute; congruence.
Defined.

Lemma shown_rate_is_the_cheapest_witness :
  sortsAfter (dhlRate "dhl_express_worldwide" 5200) (dhlRate "dhl_express_0900" 9800)
  = false.
Proof.
  apply (shown_rate_is_the_cheapest sampleRates).
  - exact sampleRates_consistent.
  - left. reflexivity.
  - left. reflexivity.
  - left. split; reflexivity.
Defined.

Lemma japan_post_quotes_are_shown_witness :
  let ems :=
    {| carrier := "Japan Post"; service := "japanpost_ems"; price := 3100;
       currency := "JPY"; estimated_delivery_dates := None; carrier_id := None |} in
  In ems (displayRates (sampleRates ++ [ems])) /\
  rowCarrier (rowOf ems) = "Japan Post" /\
  exists info, In (service ems, info) JAPANPOST_SERVICE_ENUM /\
               rowService (rowOf ems) = label info.
Proof.
  intros ems. apply (japan_post_quotes_are_shown (sampleRates ++ [ems]) ems).
  - apply in_or_app. right. left. reflexivity.
  - left. reflexivity.
  - left. reflexivity.
Defined.

End RatesListFacts.

(** ** The form of the page and its request for rates *)

Module FormFacts.

Import Spec Page.

Lemma withNumber_finite (key : NumberField) (x : float) (v : Values) :
  (key <> ExchangeRate -> PrimFloat.is_finite x = true) ->
  finite_dimensions v -> finite_dimensions (withNumber key x v).
Proof.
  intros X (W & D & Hh & P). unfold finite_dimensions.
  destruct key; simpl; repeat split; try assumption; apply X; discriminate.
Qed.

Lemma wireNumber_finite (x : float) :
  PrimFloat.is_finite x = true ->
  exists y, wireNumber x = JNum y /\ PrimFloat.is_finite y = true.
Proof.
  intros F. unfold wireNumber. rewrite F.
  destruct (PrimFloat.is_zero x); eexists; split; try reflexivity. exact F.
Qed.

Ltac case_outcome :=
  match goal with
  | |- context [match ?m with Returned _ => _ | Thrown _ => _ end] => destruct m
  end.

Section Form.

Variable float_to_string : float -> string.
Variable string_to_float : string -> float.
Variable engineMessage : exn -> string.

Lemma step_finite (a : action) (v : Values) :
  finite_dimensions v -> finite_dimensions (step string_to_float a v).
Proof.
  intros F. destruct a as [key text|key text|rounded]; simpl.
  - unfold onNumberChange. apply withNumber_finite; [|exact F]. intros _.
    destruct (PrimFloat.is_finite (string_to_float text)) eqn:E; [exact E | reflexivity].
  - destruct F as (W & D & Hh & P). now repeat split.
  - apply withNumber_finite; [|exact F]. intros N. now contradiction N.
Qed.

Lemma formAfter_finite (actions : list action) :
  finite_dimensions (formAfter string_to_float actions).
Proof.
  unfold formAfter.
  assert (G : forall v, finite_dimensions v ->
                finite_dimensions (fold_left (fun values a => step string_to_float a values)
                                     actions v)).
  { induction actions as [|a rest IH]; intros v F; simpl; [exact F|].
    apply IH, step_finite, F. }
  apply G. now repeat split.
Qed.

Lemma finite_request_passes (v : Values) :
  finite_dimensions v ->
  exists i,
    @Route.validate float (form_number float_to_string string_to_float)
      (Some (ratesRequest v)) = Returned (inr i).
Proof.
  intros (W & D & Hh & P). unfold Route.validate, ratesRequest.
  destruct (wireNumber_finite _ W) as (w & -> & Fw).
  destruct (wireNumber_finite _ D) as (d & -> & Fd).
  destruct (wireNumber_finite _ Hh) as (h & -> & Fh).
  destruct (wireNumber_finite _ P) as (p & -> & Fp).
  simpl. rewrite Fw, Fd, Fh, Fp. simpl. eexists. reflexivity.
Qed.

(** X15. Whatever has been typed into the form, and whatever exchange
    rate has been loaded, the four dimensions of the form are finite
    numbers (an input that does not convert to a finite number is
    replaced by 0), and the request for rates the page sends passes the
    validation of the handler: the handler never answers it with 400. *)
Theorem form_request_passes_validation (actions : list action) :
  finite_dimensions (formAfter string_to_float actions)
  /\ exists i,
       @Route.validate float (form_number float_to_string string_to_float)
         (Some (ratesRequest (formAfter string_to_float actions))) = Returned (inr i).
Proof.
  split.
  - exact (formAfter_finite actions).
  - exact (finite_request_passes _ (formAfter_finite actions)).
Qed.

(** X16. A call for the rates ends with the loading flag off.  It leaves
    no error exactly when a response with a success status and a body that
    parses arrived, and then the rates are that body; in every other case
    the rates stay as they were.  An answer with a failure status whose
    body has a string under [error] leaves that string as the error, and
    one without [error] (or with null) the fixed message. *)
Theorem fetchShippingRates_outcome (api : ratesApi) (st : ShippingState) :
  let st' := fetchShippingRates float_to_string string_to_float engineMessage api st in
  shippingLoading st' = false
  /\ (shippingError st' = None <-> exists data, api = RatesResponds true (Some data))
  /\ (forall data, api = RatesResponds true (Some data) -> shipping st' = data)
  /\ (shippingError st' <> None -> shipping st' = shipping st)
  /\ (forall data message,
        api = RatesResponds false (Some data) ->
        get (Some data) "error" = Some (JStr message) ->
        shippingError st' = Some message)
  /\ (forall data,
        api = RatesResponds false (Some data) ->
        get (Some data) "error" = None \/ get (Some data) "error" = Some JNull ->
        shippingError st' = Some SHIPPING_FAILED).
Proof.
  intros st'. subst st'. unfold fetchShippingRates, fetchShippingRates_try.
  destruct api as [|ok [data|]]; [|destruct ok|]; simpl.
  - repeat split; try discriminate. intros (data & E). discriminate E.
  - repeat split; try discriminate; try congruence.
    intros _. now exists data.
  - split; [now case_outcome|].
    split; [split; [now case_outcome | intros (d & E); discriminate E]|].
    split; [discriminate|].
    split; [now case_outcome|].
    split.
    + intros d message [= <-] G. now rewrite G.
    + intros d [= <-] [G|G]; now rewrite G.
  - repeat split; try discriminate. intros (data & E). discriminate E.
Qed.

End Form.

End FormFacts.
